(** * Experiment orchestration for RAMSES simulations (src/experiment.py)

    A shallow embedding of the [Experiment] class: its registries (systems,
    disturbance batches, controller batches, observables, randomizations),
    its settings maps and their serialization, the case-path naming, and the
    time-stepping loop of [run] with its voltage-based stopping rule.

    Python objects whose classes live in other modules ([pf_dynamic.System],
    [control.Controller], [sim_interaction.Disturbance] and
    [sim_interaction.Observable]) are type parameters; what the code asks of
    them ([<], [==]/[hash], [str]) is taken as section variables.  Numbers
    that the code compares are IEEE binary64 values ([PrimFloat]). *)

From Stdlib Require Import Floats Ascii.
From stdpp Require Import base list strings gmap sorting pretty.

#[local] Set Warnings "-inexact-float".

(** ** The Python builtins the class relies on *)

Module Py.

(** Exceptions the code raises itself ([RuntimeError]) or that builtins
    raise on its behalf. *)
Inductive exn :=
| RuntimeError (msg : string)
| ValueError (msg : string)
| TypeError (msg : string)
| IndexError
| OverflowError (msg : string).

Inductive outcome (A : Type) :=
| Returned (a : A)
| Raised (e : exn).
Global Arguments Returned {A} a.
Global Arguments Raised {A} e.

(** An argument of a method that checks [isinstance(arg, T)]: either an
    instance of [T], or some other object, of which only the text that an
    f-string prints is kept. *)
Inductive pyobj (T : Type) :=
| Instance (x : T)
| Foreign (repr : string).
Global Arguments Instance {T} x.
Global Arguments Foreign {T} repr.

Definition instances {T} (args : list (pyobj T)) : list T :=
  omap (fun a => match a with Instance x => Some x | Foreign _ => None end) args.

(** [str.ljust(width)]: pad with spaces on the right up to [width]; a
    string that is already as long is returned as it is. *)
Definition spaces (n : nat) : string :=
  String.string_of_list_ascii (replicate n " "%char).

Definition ljust (s : string) (width : nat) : string :=
  s +:+ spaces (width - String.length s).

(** [sep.join(parts)]. *)
Fixpoint join (sep : string) (parts : list string) : string :=
  match parts with
  | [] => ""
  | [p] => p
  | p :: rest => p +:+ sep +:+ join sep rest
  end.

(** [max(...)] over lengths; the empty sequence raises [ValueError]. *)
Definition max_of (ns : list nat) : outcome nat :=
  match ns with
  | [] => Raised (ValueError "max() arg is an empty sequence")
  | n :: rest => Returned (foldl Nat.max n rest)
  end.

(** A [dict] keeps its keys in insertion order: assigning to a key that is
    present replaces the value where it stands, assigning to a new key
    appends the item. *)
Definition dict (V : Type) := list (string * V).

Fixpoint dict_get {V} (k : string) (d : dict V) : option V :=
  match d with
  | [] => None
  | (k', v) :: rest => if decide (k' = k) then Some v else dict_get k rest
  end.

Fixpoint dict_set {V} (k : string) (v : V) (d : dict V) : dict V :=
  match d with
  | [] => [(k, v)]
  | (k', v') :: rest =>
      if decide (k' = k) then (k, v) :: rest else (k', v') :: dict_set k v rest
  end.

Definition keys {V} (d : dict V) : list string := d.*1.
Definition values {V} (d : dict V) : list V := d.*2.

Section ordered.
Context {A : Type} (lt : A -> A -> bool).

(** [sorted(xs)]: a stable sort that only asks [y < x]. *)
Fixpoint insert_stable (x : A) (l : list A) : list A :=
  match l with
  | [] => [x]
  | y :: l' => if lt y x then y :: insert_stable x l' else x :: y :: l'
  end.

Definition sorted (l : list A) : list A := foldr insert_stable [] l.

(** [bisect.bisect_right(a, x)]: the loop
    [while lo < hi: mid = (lo + hi) // 2;
       if x < a[mid]: hi = mid  else: lo = mid + 1].
    [fuel] bounds the number of iterations; [None] stands for a run
    that needs more, or for an index outside [a]. *)
Fixpoint bisect_loop (fuel : nat) (a : list A) (x : A) (lo hi : nat) : option nat :=
  if decide (lo < hi) then
    match fuel with
    | 0 => None
    | S fuel' =>
        let mid := (lo + hi) `div` 2 in
        match a !! mid with
        | Some y =>
            if lt x y then bisect_loop fuel' a x lo mid
            else bisect_loop fuel' a x (S mid) hi
        | None => None
        end
    end
  else Some lo.

Definition bisect_right (a : list A) (x : A) : option nat :=
  bisect_loop (length a) a x 0 (length a).

(** [list.insert(i, x)] for [0 <= i]. *)
Definition list_insert_at (i : nat) (x : A) (a : list A) : list A :=
  take i a ++ x :: drop i a.

(** [bisect.insort(a, x)]. *)
Definition insort (a : list A) (x : A) : option (list A) :=
  i ← bisect_right a x; Some (list_insert_at i x a).
End ordered.

End Py.

Import Py.


(** [outcome] is the error monad in which the serializers run. *)
Global Instance outcome_ret : MRet outcome := fun _ a => Returned a.
Global Instance outcome_bind : MBind outcome := fun _ _ f m =>
  match m with Returned a => f a | Raised e => Raised e end.
Global Instance outcome_fmap : FMap outcome := fun _ _ f m =>
  match m with Returned a => Returned (f a) | Raised e => Raised e end.

(** The line terminator written by the f-strings. *)
Definition nl : string := String "010"%char "".

(** ** Interfaces of the collaborating classes *)

(** [__lt__], used by [sorted] and [bisect.insort]. *)
Class Ordered (A : Type) := py_lt : A -> A -> bool.
(** [__str__], used by the f-string in [get_observables_str]. *)
Class Printable (A : Type) := py_str : A -> string.
(** The attributes [add_controllers] looks for with [hasattr]. *)
Class ControllerLike (C : Type) := {
  has_overrides_OLTCs : C -> bool;
  has_get_actions : C -> bool;
  controller_repr : C -> string
}.

(** The order laws that Python expects of [__lt__] for [sorted] to deliver a
    sorted list: a strict weak order. *)
Class StrictWeak (A : Type) `{Ordered A} : Prop := {
  lt_irrefl : forall x : A, py_lt x x = false;
  lt_trans : forall x y z : A, py_lt x y = true -> py_lt y z = true -> py_lt x z = true;
  lt_incomp_trans : forall x y z : A,
    py_lt x y = false -> py_lt y z = false -> py_lt x z = false
}.

(** A strict total order that agrees with [==]: two objects that are not
    ordered either way are the same object. *)
Class StrictTotal (A : Type) `{Ordered A} : Prop := {
  total_weak :: StrictWeak A;
  lt_trichotomy : forall x y : A, py_lt x y = false -> py_lt y x = false -> x = y
}.

(** ** Setting values *)

Inductive number :=
| PyInt (z : Z)
| PyFloat (f : float).

Inductive scalar :=
| Str (s : string)
| Num (n : number).

(** A setting is a string token, a number, or a tuple of such. *)
Inductive setting_value :=
| Single (x : scalar)
| Tuple (xs : list scalar).

(** [np.format_float_positional] on a number: numpy's routine, not part of
    this repository, is a parameter of the development. *)
Class NumpyFormat := format_float_positional : number -> string.

(** An [int] that [float(...)] can convert: one that rounds, to the nearest
    binary64 and to even on a tie, to a finite number.  The largest binary64
    is [2^1024 - 2^971]; halfway to [2^1024] the tie goes up. *)
Definition fits_binary64 (z : Z) : bool := (Z.abs z <? 2 ^ 1024 - 2 ^ 970)%Z.

(** What [np.format_float_positional] does with any object: the object is
    first converted to a binary64 ([PyFloat_AsDouble]).  A [str] is not a
    real number and is refused; an [int] beyond the range of binary64 is
    refused too. *)
Definition np_format `{NumpyFormat} (x : scalar) : outcome string :=
  match x with
  | Num (PyInt z) =>
      if fits_binary64 z then Returned (format_float_positional (PyInt z))
      else Raised (OverflowError "int too large to convert to float")
  | Num (PyFloat f) => Returned (format_float_positional (PyFloat f))
  | Str _ => Raised (TypeError "must be real number, not str")
  end.

(** ** [np.format_float_positional], as numpy implements it *)

(** What numpy does for a Python number with the default arguments
    ([unique=True], [trim='k'], no precision, no padding): the number is
    converted to a binary64, Dragon4 gives the shortest digits that tell it
    from its two neighbours, and the digits are laid out with a decimal
    point and without an exponent. *)
Module Numpy.

(** The binary64 of a number: a [float] is one; an [int] is rounded to the
    nearest, to even on a tie. *)
Definition as_double (n : number) : spec_float :=
  match n with
  | PyFloat f => Prim2SF f
  | PyInt z => binary_normalize 53 1024 z 0 false
  end.

(** The gap below is half the gap above when the number is a power of two
    (but not the smallest normal one). *)
Definition has_unequal_margins (m : positive) (e : Z) : bool :=
  (Z.pos m =? 2 ^ 52)%Z && negb (e =? -1074)%Z.

(** The big integers of Dragon4: the number is [value / scale], and
    [margin_low / scale] and [margin_high / scale] are half the distances
    to the neighbour below and above. *)
Record scaled := {
  scale : Z;
  value : Z;
  margin_low : Z;
  margin_high : Z
}.

Definition scale_mantissa (m : positive) (e : Z) : scaled :=
  if has_unequal_margins m e then
    if (0 <? e)%Z then
      {| scale := 4; value := 4 * Z.pos m * 2 ^ e;
         margin_low := 2 ^ e; margin_high := 2 ^ (e + 1) |}
    else
      {| scale := 2 ^ (2 - e); value := 4 * Z.pos m;
         margin_low := 1; margin_high := 2 |}
  else
    if (0 <? e)%Z then
      {| scale := 2; value := 2 * Z.pos m * 2 ^ e;
         margin_low := 2 ^ e; margin_high := 2 ^ e |}
    else
      {| scale := 2 ^ (1 - e); value := 2 * Z.pos m;
         margin_low := 1; margin_high := 1 |}.

(** The exponent of the first digit.  The C code estimates it from the
    position of the highest bit and corrects the estimate by one; what it
    arrives at is the [k] with [10^k <= value / scale < 10^(k+1)], reached
    here by scaling one side until the quotient has one digit. *)
Fixpoint scale_down (fuel : nat) (s : scaled) (k : Z) : scaled * Z :=
  match fuel with
  | S fuel' =>
      if (10 * scale s <=? value s)%Z then
        scale_down fuel' {| scale := 10 * scale s; value := value s;
                            margin_low := margin_low s;
                            margin_high := margin_high s |} (k + 1)
      else (s, k)
  | 0 => (s, k)
  end.

Fixpoint scale_up (fuel : nat) (s : scaled) (k : Z) : scaled * Z :=
  match fuel with
  | S fuel' =>
      if (value s <? scale s)%Z then
        scale_up fuel' {| scale := scale s; value := 10 * value s;
                          margin_low := 10 * margin_low s;
                          margin_high := 10 * margin_high s |} (k - 1)
      else (s, k)
  | 0 => (s, k)
  end.

Definition first_digit (s : scaled) : scaled * Z :=
  if (value s <? scale s)%Z then scale_up (S (Z.to_nat (Z.log2 (scale s)))) s 0
  else scale_down (S (Z.to_nat (Z.log2 (value s)))) s 0.

(** Rounding up a last digit [9]: the nines before it go, the digit before
    them is incremented; when there is none, the digits are [1] at the next
    exponent. *)
Fixpoint carry (printed : list Z) : list Z * bool :=
  match printed with
  | [] => ([1%Z], true)
  | d :: before =>
      if (d =? 9)%Z then carry before else (rev ((d + 1)%Z :: before), false)
  end.

(** The last digit: rounded down when only that keeps the digits inside
    the lower margin, up when only that keeps them inside the upper one, to
    the nearer value when both do, to the even digit on a tie. *)
Definition round_off (low high : bool) (s : scaled) (printed : list Z)
    : list Z * bool :=
  let digit := (value s / scale s)%Z in
  let rest := (value s mod scale s)%Z in
  let round_down :=
    if Bool.eqb low high then
      match (2 * rest ?= scale s)%Z with
      | Lt => true
      | Eq => Z.even digit
      | Gt => false
      end
    else low in
  if round_down then (rev (digit :: printed), false)
  else if (digit =? 9)%Z then carry printed
  else (rev ((digit + 1)%Z :: printed), false).

(** The loop of the unique mode: digits are taken out until what is left
    is within a margin; the margins count as reached when the mantissa is
    even.  [printed] holds the digits so far, the last one first; the
    result says whether rounding carried into a new first digit. *)
Fixpoint generate (fuel : nat) (even : bool) (s : scaled) (printed : list Z)
    : list Z * bool :=
  let digit := (value s / scale s)%Z in
  let rest := (value s mod scale s)%Z in
  let low := if even then (rest <=? margin_low s)%Z else (rest <? margin_low s)%Z in
  let high := if even then (scale s <=? rest + margin_high s)%Z
              else (scale s <? rest + margin_high s)%Z in
  match fuel with
  | S fuel' =>
      if low || high then round_off low high s printed
      else generate fuel' even
             {| scale := scale s; value := 10 * rest;
                margin_low := 10 * margin_low s;
                margin_high := 10 * margin_high s |}
             (digit :: printed)
  | 0 => round_off low high s printed
  end.

(** The size of the buffer for the digits. *)
Definition buffer_size : nat := 16 * 1024.

(** The digits of [m * 2^e] and the exponent of the first one. *)
Definition dragon4 (m : positive) (e : Z) : list Z * Z :=
  let '(s, k) := first_digit (scale_mantissa m e) in
  let '(digits, carried) := generate buffer_size (Z.even (Z.pos m)) s [] in
  (digits, if carried then (k + 1)%Z else k).

Definition digit_char (d : Z) : ascii := ascii_of_N (48 + Z.to_N d).

(** The positional layout: the digits before the point, filled up with
    zeros when there are too few, the point, and the digits after it; for a
    number below 1 a zero, the point, the zeros after it and the digits. *)
Definition format_positional (digits : list Z) (print_exponent : Z) : string :=
  let chars := digit_char <$> digits in
  String.string_of_list_ascii
    (if (0 <=? print_exponent)%Z then
       let whole := Z.to_nat (print_exponent + 1) in
       take whole chars ++ replicate (whole - length chars) "0"%char
         ++ "."%char :: drop whole chars
     else
       "0"%char :: "."%char
         :: replicate (Z.to_nat (- (print_exponent + 1))) "0"%char ++ chars).

Definition dragon4_positional (x : spec_float) : string :=
  match x with
  | S754_zero s => (if s then "-" else "") +:+ format_positional [0%Z] 0
  | S754_infinity s => (if s then "-" else "") +:+ "inf"
  | S754_nan => "nan"
  | S754_finite s m e =>
      let '(digits, k) := dragon4 m e in
      (if s then "-" else "") +:+ format_positional digits k
  end.

Definition format_float_positional (n : number) : string :=
  dragon4_positional (as_double n).

(** A number that is neither an infinity nor a NaN. *)
Definition is_finite (n : number) : bool :=
  match as_double n with
  | S754_zero _ | S754_finite _ _ _ => true
  | S754_infinity _ | S754_nan => false
  end.

Definition format : NumpyFormat := format_float_positional.

End Numpy.

(** ** Wall-clock time, as [time.localtime()] reports it *)

Record struct_time := {
  tm_year : nat; tm_mon : nat; tm_mday : nat;
  tm_hour : nat; tm_min : nat; tm_sec : nat
}.

Definition pad2 (n : nat) : string :=
  if decide (n < 10) then "0" +:+ pretty n else pretty n.

Definition pad4 (n : nat) : string :=
  if decide (n < 10) then "000" +:+ pretty n
  else if decide (n < 100) then "00" +:+ pretty n
  else if decide (n < 1000) then "0" +:+ pretty n
  else pretty n.

(** [get_timestamp]: [time.strftime("[%Y-%m-%d %H %M %S]", now)]. *)
Definition get_timestamp (now : struct_time)
    (opening_delimiter closing_delimiter : string) : string :=
  opening_delimiter +:+ pad4 (tm_year now) +:+ "-" +:+ pad2 (tm_mon now) +:+ "-"
    +:+ pad2 (tm_mday now) +:+ " " +:+ pad2 (tm_hour now) +:+ " "
    +:+ pad2 (tm_min now) +:+ " " +:+ pad2 (tm_sec now) +:+ closing_delimiter.

Record Randomization := { rand_description : string }.

(** Class attributes. *)
Definition setting_names : list string :=
  ["PLOT_STEP"; "GP_REFRESH_RATE"; "DISP_PROF"; "T_LOAD_REST"; "OMEGA_REF";
   "S_BASE"; "NEWTON_TOLER"; "FIN_DIFFER"; "FULL_UPDATE"; "SKIP_CONV";
   "LATENCY"; "SCHEME"; "NB_THREADS"; "SPARSE_SOLVER"; "OMP"; "NET_FREQ_UPD"].

Definition solver_setting_names : list string :=
  ["disc_method"; "max_h"; "min_h"; "latency"; "upd_over"].

(** ** The [Experiment] object and its methods *)

Section experiment.
Context {System Controller Disturbance Observable : Type}.

Record Experiment := {
  name : string;
  DLL_dir : string;
  repetitions : Z;
  must_document : bool;
  description : string;
  systems : list (string * System);
  controllers : list (string * list Controller);
  disturbances : list (string * list Disturbance);
  observables : list Observable;
  randomizations : list (string * Randomization);
  metrics : list unit;
  settings : dict setting_value;
  solver_settings : dict setting_value;
  warning_voltages : float * float;
  error_voltages : float * float;
  disturbance_window : float;
  horizon : float;
  pyramses_step : float;
  current_repetition : Z
}.

(** Attribute assignments [self.x = ...] for the attributes that methods
    write after construction. *)
Definition with_description (v : string) (e : Experiment) : Experiment :=
  let '(Build_Experiment a b c d _ f g h i j k l m n o p q r s) := e in
  Build_Experiment a b c d v f g h i j k l m n o p q r s.
Definition with_systems (v : list (string * System)) (e : Experiment) : Experiment :=
  let '(Build_Experiment a b c d x _ g h i j k l m n o p q r s) := e in
  Build_Experiment a b c d x v g h i j k l m n o p q r s.
Definition with_controllers (v : list (string * list Controller)) (e : Experiment) : Experiment :=
  let '(Build_Experiment a b c d x f _ h i j k l m n o p q r s) := e in
  Build_Experiment a b c d x f v h i j k l m n o p q r s.
Definition with_disturbances (v : list (string * list Disturbance)) (e : Experiment) : Experiment :=
  let '(Build_Experiment a b c d x f g _ i j k l m n o p q r s) := e in
  Build_Experiment a b c d x f g v i j k l m n o p q r s.
Definition with_observables (v : list Observable) (e : Experiment) : Experiment :=
  let '(Build_Experiment a b c d x f g h _ j k l m n o p q r s) := e in
  Build_Experiment a b c d x f g h v j k l m n o p q r s.
Definition with_settings (v : dict setting_value) (e : Experiment) : Experiment :=
  let '(Build_Experiment a b c d x f g h i j k _ m n o p q r s) := e in
  Build_Experiment a b c d x f g h i j k v m n o p q r s.
Definition with_solver_settings (v : dict setting_value) (e : Experiment) : Experiment :=
  let '(Build_Experiment a b c d x f g h i j k l _ n o p q r s) := e in
  Build_Experiment a b c d x f g h i j k l v n o p q r s.
Definition with_horizon (v : float) (e : Experiment) : Experiment :=
  let '(Build_Experiment a b c d x f g h i j k l m n o p _ r s) := e in
  Build_Experiment a b c d x f g h i j k l m n o p v r s.

(** A method call either returns or raises, and in both cases leaves the
    object in some state: what it wrote before raising stays written. *)
Definition method (A : Type) : Type := Experiment -> outcome A * Experiment.

Definition mreturn {A} (a : A) : method A := fun e => (Returned a, e).
Definition raise {A} (x : exn) : method A := fun e => (Raised x, e).
Definition assign (f : Experiment -> Experiment) : method unit :=
  fun e => (Returned tt, f e).
Definition andthen {A B} (m : method A) (k : A -> method B) : method B :=
  fun e => match m e with
           | (Returned a, e') => k a e'
           | (Raised x, e') => (Raised x, e')
           end.

(** [for x in xs: body(x)], left at the first exception. *)
Fixpoint for_each {X} (xs : list X) (body : X -> method unit) : method unit :=
  match xs with
  | [] => mreturn tt
  | x :: rest => andthen (body x) (fun _ => for_each rest body)
  end.

Definition default_settings : dict setting_value :=
  [("PLOT_STEP", Single (Num (PyFloat 0.001)));
   ("GP_REFRESH_RATE", Single (Num (PyFloat 1.0)));
   ("DISP_PROF", Single (Str "T"));
   ("T_LOAD_REST", Single (Num (PyFloat 0.005)));
   ("OMEGA_REF", Single (Str "COI"));
   ("S_BASE", Single (Num (PyInt 100)));
   ("NEWTON_TOLER", Tuple [Num (PyFloat 0.001); Num (PyFloat 0.001); Num (PyFloat 0.0001)]);
   ("FIN_DIFFER", Tuple [Num (PyFloat 0.00001); Num (PyFloat 0.00001)]);
   ("FULL_UPDATE", Single (Str "T"));
   ("SKIP_CONV", Single (Str "F"));
   ("SCHEME", Single (Str "DE"));
   ("NB_THREADS", Single (Num (PyInt 2)));
   ("SPARSE_SOLVER", Single (Str "KLU"))].

Definition default_solver_settings : dict setting_value :=
  [("disc_method", Single (Str "BD"));
   ("max_h", Single (Num (PyFloat 0.001)));
   ("min_h", Single (Num (PyFloat 0.001)));
   ("latency", Single (Num (PyInt 0)));
   ("upd_over", Single (Str "ABL"))].

(** The attribute assignments of [Experiment.__init__]. *)
Definition initial (name DLL_dir : string) (repetitions : Z) (must_document : bool)
    : Experiment := {|
  name := name;
  DLL_dir := DLL_dir;
  repetitions := repetitions;
  must_document := must_document;
  description := "No description was provided.";
  systems := [];
  controllers := [];
  disturbances := [];
  observables := [];
  randomizations := [("Not random", {| rand_description := "Not random" |})];
  metrics := [];
  settings := default_settings;
  solver_settings := default_solver_settings;
  warning_voltages := (0.85, 1.0)%float;
  error_voltages := (0.7, 1.2)%float;
  disturbance_window := 5%float;
  horizon := 200%float;
  pyramses_step := 20e-3%float;
  current_repetition := 1
|}.

(** [Experiment.__init__]: the three checks, then the assignments;
    [path_exists] is [os.path.exists] on the file system of the moment. *)
Definition init (path_exists : string -> bool)
    (name DLL_dir : string) (repetitions : Z) (must_document : bool)
    : outcome Experiment :=
  if decide (10 < String.length name) then
    Raised (RuntimeError "Experiment name must not exceed 10 characters.")
  else if negb (path_exists DLL_dir) then
    Raised (RuntimeError ("RAMSES DLL directory " +:+ DLL_dir +:+ " does not exist."))
  else if decide (repetitions < 1)%Z then
    Raised (RuntimeError "Number of repetitions must be a positive int.")
  else Returned (initial name DLL_dir repetitions must_document).

(** [describe]. *)
Definition describe (text : string) : method unit :=
  if decide (100 < String.length text) then
    raise (RuntimeError "Description should have no more than 100 chars")
  else assign (with_description text).

Definition tag_too_long : exn :=
  RuntimeError "Description should have no more than 10 characters.".

(** [add_system]; [copy.deepcopy] of a value is the value. *)
Definition add_system (tag : string) (system : pyobj System) : method unit :=
  if decide (10 < String.length tag) then raise tag_too_long
  else match system with
       | Foreign r =>
           raise (RuntimeError ("System " +:+ r +:+ " is not an instance of the System class."))
       | Instance s =>
           fun e => assign (with_systems (systems e ++ [(tag, s)])) e
       end.

(** The validation loop of [add_disturbances]: it writes nothing. *)
Definition check_disturbance (d : pyobj Disturbance) : method unit :=
  match d with
  | Foreign r =>
      raise (RuntimeError
               ("Disturbance " +:+ r +:+ " is not an instance of the Disturbance class."))
  | Instance _ => mreturn tt
  end.

(** [add_disturbances]: validate every argument, then append the one batch
    [(description, sorted(list(disturbances)))]. *)
Definition add_disturbances `{Ordered Disturbance}
    (tag : string) (ds : list (pyobj Disturbance)) : method unit :=
  if decide (10 < String.length tag) then raise tag_too_long
  else
    andthen (for_each ds check_disturbance) (fun _ e =>
      assign (with_disturbances
                (disturbances e ++ [(tag, sorted py_lt (instances ds))])) e).

(** One turn of the loop of [add_observables]: the type check, then
    [bisect.insort(self.observables, obs)]. *)
Definition add_observable `{Ordered Observable} (obs : pyobj Observable) : method unit :=
  match obs with
  | Foreign r =>
      raise (RuntimeError
               ("Observable " +:+ r +:+ " is not an instance of the Observable class."))
  | Instance o => fun e =>
      match insort py_lt (observables e) o with
      | Some l => assign (with_observables l) e
      | None => raise IndexError e
      end
  end.

Definition add_observables `{Ordered Observable}
    (obs : list (pyobj Observable)) : method unit :=
  for_each obs add_observable.

(** The checks [add_controllers] makes on one argument. *)
Definition check_controller `{ControllerLike Controller}
    (c : pyobj Controller) : method unit :=
  match c with
  | Foreign r =>
      raise (RuntimeError
               ("Controller " +:+ r +:+ " is not an instance of the Controller class."))
  | Instance con =>
      if negb (has_overrides_OLTCs con) then
        raise (RuntimeError ("Controller " +:+ controller_repr con
                               +:+ " does not have an overrides_OLTCs attribute."))
      else if negb (has_get_actions con) then
        raise (RuntimeError ("Controller " +:+ controller_repr con
                               +:+ " does not have a get_actions method."))
      else mreturn tt
  end.

Definition add_controllers `{ControllerLike Controller}
    (tag : string) (cs : list (pyobj Controller)) : method unit :=
  if decide (10 < String.length tag) then raise tag_too_long
  else
    andthen (for_each cs check_controller) (fun _ e =>
      assign (with_controllers (controllers e ++ [(tag, instances cs)])) e).

(** [add_randomization], [add_metrics], [add_visualization]: bodies that
    hold a docstring only. *)
Definition add_randomization : method unit := mreturn tt.
Definition add_metrics : method unit := mreturn tt.
Definition add_visualization : method unit := mreturn tt.

(** [set_RAMSES_settings]: one loop that checks a key and writes its value
    before it looks at the next key. *)
Definition set_RAMSES_setting (item : string * setting_value) : method unit :=
  let '(setting, value) := item in
  if decide (setting ∈ setting_names) then
    fun e => assign (with_settings (dict_set setting value (settings e))) e
  else raise (RuntimeError ("Unknown setting " +:+ setting +:+ ".")).

Definition set_RAMSES_settings (settings_dict : dict setting_value) : method unit :=
  for_each settings_dict set_RAMSES_setting.

(** [set_solver_and_horizon]: the horizon is checked and stored first, then
    the same kind of loop runs over the solver settings. *)
Definition set_solver_setting (item : string * setting_value) : method unit :=
  let '(setting, value) := item in
  if decide (setting ∈ solver_setting_names) then
    fun e => assign (with_solver_settings (dict_set setting value (solver_settings e))) e
  else raise (RuntimeError ("Unknown setting " +:+ setting +:+ ".")).

Definition set_solver_and_horizon
    (solver_settings_dict : dict setting_value) (new_horizon : float) : method unit :=
  if PrimFloat.leb new_horizon 0 then raise (RuntimeError "Horizon must be positive.")
  else
    andthen (assign (with_horizon new_horizon)) (fun _ =>
      for_each solver_settings_dict set_solver_setting).

(** [get_dir]; [now] is the reading of the clock that [get_timestamp] takes
    when the experiment is documented. *)
Definition get_dir (e : Experiment) (now : struct_time) : string :=
  if must_document e then
    if decide (repetitions e = 1%Z) then
      get_timestamp now "[" "]" +:+ " " +:+ name e
    else
      get_timestamp now "[" "]" +:+ " " +:+ name e +:+ " ("
        +:+ pretty (current_repetition e) +:+ ")"
  else name e.

(** [val2str], the helper inside [get_settings_str]. *)
Definition val2str `{NumpyFormat} (values : setting_value) : outcome string :=
  match values with
  | Tuple vals => parts ← mapM np_format vals; mret (join " " parts)
  | Single (Num n) => np_format (Num n)
  | Single (Str s) => mret s
  end.

(** The locals of [get_settings_str] that fix the layout. *)
Definition col_sep : nat := 1.
Definition end_sep : nat := 1.
Definition end_char : string := ";".

(** One line of the settings file: the f-string of the loop. *)
Definition setting_line (setting_width val_width : nat)
    (setting text : string) : string :=
  "$" +:+ ljust setting setting_width +:+ ljust text val_width +:+ end_char +:+ nl.

Definition settings_header : string := "# Simulation settings" +:+ nl +:+ nl.

(** [get_settings_str]: the two widths are inferred from the map, then one
    line is written per item. *)
Definition get_settings_str `{NumpyFormat} (e : Experiment) : outcome string :=
  longest_key ← max_of (String.length <$> keys (settings e));
  let setting_width := longest_key + 1 in
  texts ← mapM val2str (values (settings e));
  longest_val ← max_of (String.length <$> texts);
  let val_width := longest_val + end_sep in
  lines ← mapM (fun item : string * setting_value =>
                  text ← val2str item.2;
                  mret (setting_line setting_width val_width item.1 text))
               (settings e);
  mret (settings_header +:+ foldr String.app "" lines).

(** [get_observables_str]: [set(...)] keeps one object per equality class
    and hands them out in an order of its own, [sorted] puts them in
    order, and every one is printed on a line. *)
Definition get_observables_str
    `{Ordered Observable, Printable Observable, Countable Observable}
    (e : Experiment) : string :=
  foldr String.app ""
    ((fun obs => py_str obs +:+ nl)
       <$> sorted py_lt (elements (list_to_set (observables e) : gset Observable))).

(** [case2str]. *)
Definition case2str (e : Experiment) (now : struct_time)
    (system_description disturbance_description
     controller_description randomization_description : string) : string :=
  get_dir e now +:+ "/" +:+ system_description +:+ ", " +:+ disturbance_description
    +:+ ", " +:+ controller_description +:+ ", " +:+ randomization_description.

(** The tags of the cases that the comprehension of [init_files_and_dirs]
    goes through, in its order. *)
Definition case_tags (e : Experiment) : list (string * string * string * string) :=
  sys ← systems e; dis ← disturbances e; con ← controllers e;
  ran ← randomizations e; [(sys.1, dis.1, con.1, ran.1)].

(** [case_dirs] of [init_files_and_dirs]; the [i]-th call of [case2str]
    reads the clock for itself, [clock i] is what it sees. *)
Definition case_dirs (e : Experiment) (clock : nat -> struct_time) : list string :=
  imap (fun i '(s, d, c, r) => case2str e (clock i) s d c r) (case_tags e).

End experiment.

Global Arguments Experiment : clear implicits.

(** ** The stepping loop of [run]

    [World] is everything the loop acts on besides the experiment: the
    system under simulation with its detectors and controllers, and the
    RAMSES session [sys.ram].  Each call may raise and may change the
    world. *)
Class Simulation (World : Type) := {
  getBusVolt : World -> outcome (list float) * World;
  contSim : float -> World -> outcome unit * World;
  update_detectors : World -> outcome unit * World;
  follow_controllers : World -> outcome unit * World;
  send_disturbances_until : float -> World -> outcome unit * World
}.

(** How the [for tk in time_values] loop is left. *)
Inductive loop_exit :=
| Completed                  (* the time values are exhausted *)
| AbortedOnDivergence        (* [break] of the voltage test *)
| AbortedOnEngineError       (* [break] of the [except] clause *)
| Propagated (x : exn).      (* an exception outside the [try] leaves [run] *)

Record loop_result (World : Type) := {
  exit : loop_exit;
  world : World;
  advanced : list float   (* the arguments of the calls of [contSim], in order *)
}.
Global Arguments exit {World} _.
Global Arguments world {World} _.
Global Arguments advanced {World} _.

Section run_loop.
Context {World : Type} `{Simulation World}.
Context (vmin vmax window h : float).

(** [all(vmin < v < vmax for v in voltages)]. *)
Definition voltages_ok (voltages : list float) : bool :=
  forallb (fun v => PrimFloat.ltb vmin v && PrimFloat.ltb v vmax) voltages.

(** The three calls that follow a successful step. *)
Definition after_step (tk : float) (w : World) : outcome unit * World :=
  match update_detectors w with
  | (Raised x, w1) => (Raised x, w1)
  | (Returned _, w1) =>
      match follow_controllers w1 with
      | (Raised x, w2) => (Raised x, w2)
      | (Returned _, w2) => send_disturbances_until (PrimFloat.add tk h) w2
      end
  end.

(** The loop; [log] holds the calls of [contSim] made so far.  The progress
    display only prints and is left out. *)
Fixpoint run_loop (time_values : list float) (w : World) (log : list float)
    : loop_result World :=
  match time_values with
  | [] => {| exit := Completed; world := w; advanced := log |}
  | tk :: rest =>
      match getBusVolt w with
      | (Raised _, w1) =>
          {| exit := AbortedOnEngineError; world := w1; advanced := log |}
      | (Returned voltages, w1) =>
          if PrimFloat.ltb window tk && negb (voltages_ok voltages) then
            {| exit := AbortedOnDivergence; world := w1; advanced := log |}
          else
            match contSim tk w1 with
            | (Raised _, w2) =>
                {| exit := AbortedOnEngineError; world := w2; advanced := log ++ [tk] |}
            | (Returned _, w2) =>
                match after_step tk w2 with
                | (Raised x, w3) =>
                    {| exit := Propagated x; world := w3; advanced := log ++ [tk] |}
                | (Returned _, w3) => run_loop rest w3 (log ++ [tk])
                end
            end
      end
  end.
End run_loop.

(** The loop as [run] starts it for an experiment: the band is
    [self.error_voltages], the window [self.disturbance_window], the step
    [self.pyramses_step]. *)
Definition run_case {S C D O World : Type} `{Simulation World}
    (e : Experiment S C D O) (time_values : list float) (w : World)
    : loop_result World :=
  run_loop (error_voltages e).1 (error_voltages e).2 (disturbance_window e)
    (pyramses_step e) time_values w [].

(** ** Calls on an experiment *)

Section calls.
Context {System Controller Disturbance Observable : Type}.
Context `{Ordered Disturbance, Ordered Observable, ControllerLike Controller}.

(** What [run] writes on the experiment itself: the systems are worked on in
    place ([touch] is what becomes of each), and the observables that the
    detectors ask for are added, one call of [add_observables] per request. *)
Definition run_registries (touch : System -> System)
    (requests : list (list (pyobj Observable)))
    : method (System := System) (Controller := Controller)
             (Disturbance := Disturbance) (Observable := Observable) unit :=
  andthen (fun e => assign (with_systems (prod_map id touch <$> systems e)) e)
          (fun _ => for_each requests add_observables).

Inductive call :=
| Describe (text : string)
| AddSystem (tag : string) (system : pyobj System)
| AddDisturbances (tag : string) (ds : list (pyobj Disturbance))
| AddObservables (obs : list (pyobj Observable))
| AddControllers (tag : string) (cs : list (pyobj Controller))
| AddRandomization
| AddMetrics
| AddVisualization
| SetRAMSESSettings (settings_dict : dict setting_value)
| SetSolverAndHorizon (solver_settings_dict : dict setting_value) (new_horizon : float)
| Run (touch : System -> System) (requests : list (list (pyobj Observable))).

Definition perform (c : call)
    : method (System := System) (Controller := Controller)
             (Disturbance := Disturbance) (Observable := Observable) unit :=
  match c with
  | Describe text => describe text
  | AddSystem tag system => add_system tag system
  | AddDisturbances tag ds => add_disturbances tag ds
  | AddObservables obs => add_observables obs
  | AddControllers tag cs => add_controllers tag cs
  | AddRandomization => add_randomization
  | AddMetrics => add_metrics
  | AddVisualization => add_visualization
  | SetRAMSESSettings d => set_RAMSES_settings d
  | SetSolverAndHorizon d hz => set_solver_and_horizon d hz
  | Run touch requests => run_registries touch requests
  end.

(** A client that goes on after a call has raised: the object is used as the
    call left it. *)
Definition perform_all (cs : list call) (e : Experiment System Controller Disturbance Observable)
    : Experiment System Controller Disturbance Observable :=
  foldl (fun e c => (perform c e).2) e cs.
End calls.

(** ** Vocabulary of the statements *)

(** No [e] and no [E]: the mark of scientific notation is absent. *)
Definition exponent_free (s : string) : bool :=
  forallb (fun c => negb (Ascii.eqb c "e" || Ascii.eqb c "E"))
          (String.list_ascii_of_string s).

(** The lines of a text, without their terminators. *)
Fixpoint split_lines_go (cur : string) (s : string) : list string :=
  match s with
  | EmptyString => if decide (cur = "") then [] else [String.rev cur]
  | String c s' =>
      if Ascii.eqb c "010" then String.rev cur :: split_lines_go "" s'
      else split_lines_go (String c cur) s'
  end.
Definition split_lines : string -> list string := split_lines_go "".


(** [x] does not come after [y]; [x] comes strictly before [y]. *)
Definition not_after {A} `{Ordered A} (x y : A) : Prop := py_lt y x = false.
Definition before {A} `{Ordered A} (x y : A) : Prop := py_lt x y = true.

(** The items of [d] assigned in turn. *)
Definition update_all {V} (d s : dict V) : dict V :=
  foldl (fun s (item : string * V) => dict_set item.1 item.2 s) s d.

(** The items that a checking loop gets through: those before the first key
    that is not among [names]; and that key. *)
Fixpoint recognized_prefix {V} (names : list string) (d : dict V) : dict V :=
  match d with
  | [] => []
  | (k, v) :: rest =>
      if decide (k ∈ names) then (k, v) :: recognized_prefix names rest else []
  end.

Definition first_unrecognized {V} (names : list string) (d : dict V) : option string :=
  head (filter (fun k => k ∉ names) (keys d)).

Definition unknown_setting (k : string) : exn :=
  RuntimeError ("Unknown setting " +:+ k +:+ ".").

(** The arguments that a checking-and-inserting loop gets through: those
    before the first one that is not an instance; and the print of that
    one. *)
Fixpoint accepted {T} (args : list (pyobj T)) : list T :=
  match args with
  | Instance x :: rest => x :: accepted rest
  | _ => []
  end.

Fixpoint first_foreign {T} (args : list (pyobj T)) : option string :=
  match args with
  | [] => None
  | Instance _ :: rest => first_foreign rest
  | Foreign r :: _ => Some r
  end.

Definition not_an_observable (r : string) : exn :=
  RuntimeError ("Observable " +:+ r +:+ " is not an instance of the Observable class.").

(** The text of the observables file for a list of observables. *)
Definition observable_lines {O} `{Printable O} (l : list O) : string :=
  foldr String.app "" ((fun obs => py_str obs +:+ nl) <$> l).

Definition as_number (x : scalar) : option number :=
  match x with Num n => Some n | Str _ => None end.

(** The numbers of a numeric value: the one of a scalar, the components of a
    tuple of numbers. *)
Definition numbers_of (v : setting_value) : option (list number) :=
  match v with
  | Single x => n ← as_number x; Some [n]
  | Tuple xs => mapM as_number xs
  end.

(** A number that [np.format_float_positional] can convert to a binary64. *)
Definition in_range (n : number) : bool :=
  match n with
  | PyInt z => fits_binary64 z
  | PyFloat _ => true
  end.

(** The two exceptions of the conversion. *)
Definition not_a_number : exn := TypeError "must be real number, not str".
Definition too_large : exn := OverflowError "int too large to convert to float".

(** What [np.format_float_positional] raises for an object, if anything. *)
Definition refusal (x : scalar) : option exn :=
  match x with
  | Str _ => Some not_a_number
  | Num n => if in_range n then None else Some too_large
  end.

(** What [val2str] raises for a value, if anything: a string on its own is
    returned as it is; of a tuple the components are converted in order. *)
Definition val2str_error (v : setting_value) : option exn :=
  match v with
  | Single (Str _) => None
  | Single (Num n) => refusal (Num n)
  | Tuple xs => head (omap refusal xs)
  end.

(** The first exception among the values, in their order. *)
Definition first_error (vs : list setting_value) : option exn :=
  head (omap val2str_error vs).

(** A line of the settings file: [$], the name in its column, the value in
    its column, [;] and the end of the line. *)
Definition directive (name_width value_width : nat) (name text : string) : string :=
  "$" +:+ ljust name name_width +:+ ljust text value_width +:+ ";" +:+ nl.

(** The widths of the two columns: one more than the widest entry. *)
Definition name_width (d : dict setting_value) : nat :=
  max_list (String.length <$> keys d) + 1.
Definition value_width (texts : list string) : nat :=
  max_list (String.length <$> texts) + 1.

Section histories.
Context {System Controller Disturbance Observable : Type}.
Implicit Types e : Experiment System Controller Disturbance Observable.

(** A property of the object that every assignment made by a method keeps. *)
Definition invariant (P : Experiment System Controller Disturbance Observable -> Prop)
    : Prop :=
  (forall v e, P e -> P (with_description v e))
  /\ (forall v e, P e -> P (with_systems v e))
  /\ (forall v e, P e -> P (with_controllers v e))
  /\ (forall v e, P e -> P (with_disturbances v e))
  /\ (forall v e, P e -> P (with_observables v e))
  /\ (forall k v e, k ∈ setting_names ->
        P e -> P (with_settings (dict_set k v (settings e)) e))
  /\ (forall k v e, k ∈ solver_setting_names ->
        P e -> P (with_solver_settings (dict_set k v (solver_settings e)) e))
  /\ (forall v e, P e -> P (with_horizon v e)).

(** An attribute that no assignment of the methods writes. *)
Definition untouched {A} (proj : Experiment System Controller Disturbance Observable -> A)
    : Prop :=
  forall e0, invariant (fun e => proj e = proj e0).

(** The names in the settings map: recognized, none twice, at least one. *)
Definition settings_keys_ok e : Prop :=
  NoDup (keys (settings e))
  /\ Forall (fun k => k ∈ setting_names) (keys (settings e))
  /\ settings e <> [].

(** Calls of [add_observables] one after another, whatever each of them
    does. *)
Definition add_all `{Ordered Observable} (calls : list (list (pyobj Observable))) e :=
  foldl (fun e args => (add_observables args e).2) e calls.

(** The observables ever added: those of every call that the call got
    through. *)
Definition ever_added (calls : list (list (pyobj Observable))) e (x : Observable) : Prop :=
  x ∈ observables e \/ exists args, args ∈ calls /\ x ∈ accepted args.

(** Calls of [add_disturbances] with valid arguments, one after another. *)
Definition add_batches `{Ordered Disturbance}
    (batches : list (string * list Disturbance)) e :=
  foldl (fun e b => (add_disturbances b.1 (Instance <$> b.2) e).2) e batches.
End histories.

(** ** Concrete collaborators, for running the model *)

Module Demo.

(** Observables numbered by the bus they watch. *)
#[global] Instance bus_lt : Ordered nat := Nat.ltb.
#[global] Instance bus_str : Printable nat := fun n => "BUS " +:+ pretty n.

(** Disturbances [(time, text)], ordered by their time alone. *)
Definition disturbance : Type := nat * string.
#[global] Instance disturbance_lt : Ordered disturbance := fun d1 d2 => Nat.ltb d1.1 d2.1.

(** Controllers that have both attributes. *)
#[global] Instance plain_controller : ControllerLike unit := {|
  has_overrides_OLTCs := fun _ => true;
  has_get_actions := fun _ => true;
  controller_repr := fun _ => "controller"
|}.

(** A positional rendering of a number that writes out the exact binary
    value: an integer as its digits and a point, a float [m * 2^e] with
    [e < 0] as the digits of [m * 5^(-e)] with the point [-e] places from
    the right. *)
Definition place_point (digits : string) (k : nat) : string :=
  let padded := String.string_of_list_ascii
                  (replicate (S k - String.length digits) "0"%char) +:+ digits in
  let n := String.length padded - k in
  String.substring 0 n padded +:+ "." +:+ String.substring n k padded.

Definition exact_positional (x : number) : string :=
  match x with
  | PyInt z => pretty z +:+ "."
  | PyFloat f =>
      match Prim2SF f with
      | S754_zero s => if s then "-0." else "0."
      | S754_infinity s => if s then "-inf" else "inf"
      | S754_nan => "nan"
      | S754_finite s m e =>
          (if s then "-" else "") +:+
          (if decide (0 <= e)%Z then pretty (Z.pos m * 2 ^ e)%Z +:+ "."
           else place_point (pretty (Z.pos m * 5 ^ (- e))%Z) (Z.to_nat (- e)))
      end
  end.
#[global] Instance exact_format : NumpyFormat := exact_positional.

Definition path_exists (p : string) : bool := bool_decide (p = "C:/RAMSES").

(** The object that [Experiment("demo", "C:/RAMSES", 1, documented)] builds. *)
Definition fresh (documented : bool) : Experiment unit unit disturbance nat :=
  initial "demo" "C:/RAMSES" 1 documented.

Definition noon : struct_time :=
  {| tm_year := 2024; tm_mon := 3; tm_mday := 9;
     tm_hour := 12; tm_min := 0; tm_sec := 0 |}.
Definition noon_and_a_second : struct_time :=
  {| tm_year := 2024; tm_mon := 3; tm_mday := 9;
     tm_hour := 12; tm_min := 0; tm_sec := 1 |}.

(** A scripted engine: the world is the list of voltage readings still to
    come; [contSim] consumes one and fails when none is left. *)
#[global] Instance scripted : Simulation (list (list float)) := {|
  getBusVolt w := (Returned (default [] (head w)), w);
  contSim _ w := match w with
                 | [] => (Raised (RuntimeError "engine stopped"), w)
                 | _ :: w' => (Returned tt, w')
                 end;
  update_detectors w := (Returned tt, w);
  follow_controllers w := (Returned tt, w);
  send_disturbances_until _ w := (Returned tt, w)
|}.

(** Inputs used to run the model. *)
Definition two_systems : list (call (System := unit) (Controller := unit)
                                    (Disturbance := disturbance) (Observable := nat)) :=
  [AddSystem "nordic" (Instance tt); AddSystem "ieee39" (Instance tt);
   AddRandomization;
   AddDisturbances "fault" [Instance (3, "FAULT BUS 4032"); Instance (1, "BREAKER OPEN")];
   AddControllers "mpc" [Instance tt];
   AddRandomization].

Definition diverging_script : list (list float) :=
  [[1.01]; [1.0]; [0.98]; [0.95]; [0.93; 0.65]; [0.9]]%float.

Definition profile_off_then_unknown : dict setting_value :=
  [("DISP_PROF", Single (Str "F")); ("BOGUS", Single (Str "1"))].

Definition first_history : list (list (pyobj nat)) :=
  [[Instance 5; Instance 3; Instance 5]; [Instance 4; Foreign "a bus name"; Instance 1]].
Definition second_history : list (list (pyobj nat)) :=
  [[Instance 3; Instance 4]; []; [Instance 5]].

End Demo.

(** ** The assignments that the methods make *)

(** A controller that passes the two [hasattr] checks of [add_controllers]. *)
Definition controller_ok {C} `{ControllerLike C} (c : C) : bool :=
  has_overrides_OLTCs c && has_get_actions c.

Section writes.
Context {System Controller Disturbance Observable : Type}.
Context `{Ordered Disturbance, Ordered Observable, ControllerLike Controller}.
Implicit Types e : Experiment System Controller Disturbance Observable.

(** One assignment to an attribute, as some method makes it: the value
    written and the check that guards the assignment come from the bodies of
    [describe], [add_system], [run], [add_disturbances], [add_observables],
    [add_controllers], [set_RAMSES_settings] and [set_solver_and_horizon]. *)
Inductive write : relation (Experiment System Controller Disturbance Observable) :=
| write_description text e :
    String.length text <= 100 -> write e (with_description text e)
| write_system tag s e :
    String.length tag <= 10 -> write e (with_systems (systems e ++ [(tag, s)]) e)
| write_touch touch e :
    write e (with_systems (prod_map id touch <$> systems e) e)
| write_disturbances tag (ds : list Disturbance) e :
    String.length tag <= 10 ->
    write e (with_disturbances (disturbances e ++ [(tag, sorted py_lt ds)]) e)
| write_observable o l e :
    insort py_lt (observables e) o = Some l -> write e (with_observables l e)
| write_controllers tag (cs : list Controller) e :
    String.length tag <= 10 -> Forall (fun c => controller_ok c = true) cs ->
    write e (with_controllers (controllers e ++ [(tag, cs)]) e)
| write_setting k v e :
    k ∈ setting_names -> write e (with_settings (dict_set k v (settings e)) e)
| write_solver_setting k v e :
    k ∈ solver_setting_names ->
    write e (with_solver_settings (dict_set k v (solver_settings e)) e)
| write_horizon hz e :
    PrimFloat.leb hz 0 = false -> write e (with_horizon hz e).

(** [Experiment.__str__]. *)
Definition to_str e : string := description e.
End writes.

(** ** What the constructor and the methods maintain *)

Definition tags_short {X} (axis : list (string * X)) : Prop :=
  Forall (fun entry => String.length entry.1 <= 10) axis.

Section maintained.
Context {System Controller Disturbance Observable : Type}.
Implicit Types e : Experiment System Controller Disturbance Observable.

(** The bounds that the checks of the constructor and of the methods
    enforce. *)
Definition bounds_ok e : Prop :=
  String.length (name e) <= 10
  /\ (1 <= repetitions e)%Z
  /\ String.length (description e) <= 100
  /\ tags_short (systems e)
  /\ tags_short (disturbances e)
  /\ tags_short (controllers e)
  /\ PrimFloat.leb (horizon e) 0 = false.

(** Every stored controller has the two attributes. *)
Definition controllers_ok `{ControllerLike Controller} e : Prop :=
  Forall (fun entry => Forall (fun c => controller_ok c = true) entry.2) (controllers e).

(** The registry of observables and every batch of disturbances are in
    order. *)
Definition registries_sorted `{Ordered Disturbance, Ordered Observable} e : Prop :=
  Sorted not_after (observables e)
  /\ Forall (fun entry => Sorted not_after entry.2) (disturbances e).

(** Nothing that [e1] holds is missing from [e2], and the axes keep their
    order. *)
Definition grown e1 e2 : Prop :=
  (systems e1).*1 `prefix_of` (systems e2).*1
  /\ disturbances e1 `prefix_of` disturbances e2
  /\ controllers e1 `prefix_of` controllers e2
  /\ observables e1 ⊆+ observables e2
  /\ keys (settings e1) `prefix_of` keys (settings e2)
  /\ keys (solver_settings e1) `prefix_of` keys (solver_settings e2).
End maintained.

(** ** More inputs for running the model *)

Module Sample.

(** A session in which some calls return and others raise. *)
Definition session : list (call (System := unit) (Controller := unit)
                                 (Disturbance := Demo.disturbance) (Observable := nat)) :=
  [Describe "Voltage control after a line trip";
   AddSystem "nordic" (Instance tt);
   AddSystem "a tag that is too long" (Instance tt);
   AddControllers "mpc" [Instance tt; Foreign "42"];
   AddControllers "pi" [Instance tt];
   AddDisturbances "fault" [Instance (3, "FAULT BUS 4032"); Instance (1, "BREAKER OPEN")];
   AddObservables [Instance 7; Instance 2; Instance 7; Foreign "'BUS 9'"; Instance 1];
   SetRAMSESSettings [("LATENCY", Tuple [Num (PyFloat 0.02); Num (PyInt 1)]);
                      ("BOGUS", Single (Str "1"))];
   SetSolverAndHorizon [("max_h", Single (Num (PyFloat 0.01)));
                        ("nope", Single (Str "1"))] 50;
   SetSolverAndHorizon [] (-3);
   Run id [[Instance 4]; [Instance 2]]].

Definition after_session : Experiment unit unit Demo.disturbance nat :=
  perform_all session (Demo.fresh false).

End Sample.

(** ** Why a call is rejected *)

Definition not_a_disturbance (r : string) : exn :=
  RuntimeError ("Disturbance " +:+ r +:+ " is not an instance of the Disturbance class.").

(** The error that [add_controllers] raises for one argument, if any: the
    three checks in the order of the source. *)
Definition controller_error {C} `{ControllerLike C} (c : pyobj C) : option exn :=
  match c with
  | Foreign r =>
      Some (RuntimeError
              ("Controller " +:+ r +:+ " is not an instance of the Controller class."))
  | Instance con =>
      if negb (has_overrides_OLTCs con) then
        Some (RuntimeError ("Controller " +:+ controller_repr con
                              +:+ " does not have an overrides_OLTCs attribute."))
      else if negb (has_get_actions con) then
        Some (RuntimeError ("Controller " +:+ controller_repr con
                              +:+ " does not have a get_actions method."))
      else None
  end.

(** The error of the first argument that has one. *)
Definition first_controller_error {C} `{ControllerLike C} (cs : list (pyobj C))
    : option exn :=
  head (omap controller_error cs).

Module Engines.

(** An engine that never fails and whose buses all sit at 1.01 pu; the
    world counts the steps made. *)
#[global] Instance steady : Simulation nat := {|
  getBusVolt w := (Returned [1.01; 1.01]%float, w);
  contSim _ w := (Returned tt, S w);
  update_detectors w := (Returned tt, w);
  follow_controllers w := (Returned tt, w);
  send_disturbances_until _ w := (Returned tt, w)
|}.

(** Readings that leave the band at once and come back. *)
Definition early_dip : list (list float) :=
  [[0.2]; [0.5]; [0.95]; [1.0]]%float.

End Engines.

(** ** Tags and time stamps *)

(** No comma in the string. *)
Definition comma_free (s : string) : bool :=
  forallb (fun c => negb (Ascii.eqb c ",")) (String.list_ascii_of_string s).

(** The number that a string of decimal digits writes. *)
Definition digits_value (s : string) : N :=
  foldl (fun n c => 10 * n + (N_of_ascii c - 48))%N 0%N (String.list_ascii_of_string s).

(** The [k] numbers from [x] on. *)
Fixpoint count_from (k : nat) (x : N) : list N :=
  match k with
  | 0 => []
  | S k' => x :: count_from k' (N.succ x)
  end.

(** A reading of the clock with a four-digit year and fields in their
    calendar ranges. *)
Definition plausible (t : struct_time) : Prop :=
  1000 <= tm_year t < 100 * 100
  /\ 1 <= tm_mon t <= 12 /\ 1 <= tm_mday t <= 31
  /\ tm_hour t < 24 /\ tm_min t < 60 /\ tm_sec t < 62.

Module Collisions.

(** Two systems and two batches of disturbances whose tags differ, and
    whose case names still coincide: the comma of a tag is taken for the
    separator. *)
Definition ambiguous : list (call (System := unit) (Controller := unit)
                                   (Disturbance := Demo.disturbance) (Observable := nat)) :=
  [AddSystem "a" (Instance tt); AddSystem "a, b" (Instance tt);
   AddDisturbances "b, c" []; AddDisturbances "c" [];
   AddControllers "d" []].

End Collisions.

(** ** Descriptions *)

(** The description that a sequence of calls leaves: the text of the last
    [describe] that was not refused. *)
Definition last_description {S C D O} `{Ordered D, Ordered O, ControllerLike C}
    (calls : list (call (System := S) (Controller := C) (Disturbance := D)
                        (Observable := O))) (start : string) : string :=
  foldl (fun text c =>
           match c with
           | Describe t => if decide (100 < String.length t) then text else t
           | _ => text
           end) start calls.

(** The error of [np.format_float_positional] on a string. *)
Module Updates.

(** A setting whose tuple holds a string, as the docstring of
    [set_RAMSES_settings] describes [OMP]. *)
Definition with_omp : list (call (System := unit) (Controller := unit)
                                  (Disturbance := Demo.disturbance) (Observable := nat)) :=
  [SetRAMSESSettings [("OMP", Tuple [Str "STA"; Num (PyInt 4)])]].

(** A base power that is an [int] of 401 digits. *)
Definition with_large_base : list (call (System := unit) (Controller := unit)
                                         (Disturbance := Demo.disturbance) (Observable := nat)) :=
  [SetRAMSESSettings [("S_BASE", Single (Num (PyInt (10 ^ 400))))]].

(** A latency that is an [int] of 401 digits. *)
Definition with_large_latency : list (call (System := unit) (Controller := unit)
                                            (Disturbance := Demo.disturbance) (Observable := nat)) :=
  [SetSolverAndHorizon [("latency", Single (Num (PyInt (10 ^ 400))))] 50].

(** A tolerance that is infinite. *)
Definition with_infinite_tolerance : list (call (System := unit) (Controller := unit)
                                                 (Disturbance := Demo.disturbance) (Observable := nat)) :=
  [SetRAMSESSettings
     [("NEWTON_TOLER", Tuple [Num (PyFloat 0.001); Num (PyFloat infinity);
                              Num (PyFloat 0.0001)])]].

Definition latency_and_profile : dict setting_value :=
  [("LATENCY", Tuple [Num (PyFloat 0.02); Num (PyInt 1)]);
   ("DISP_PROF", Single (Str "F"));
   ("NET_FREQ_UPD", Single (Str "T"))].

End Updates.

(** ** The solver and horizon file *)

(** What Python's own formatting does with the values: [f"{x:.3f}"] for a
    number, and the text that an f-string prints for a value that is not a
    string.  Both belong to the interpreter and are parameters. *)
Class PythonFormat := {
  format_3f : number -> string;
  str_of : setting_value -> string
}.

(** [f"{value}"]: a string prints as itself. *)
Definition fstring `{PythonFormat} (value : setting_value) : string :=
  match value with
  | Single (Str s) => s
  | _ => str_of value
  end.

(** [str.rjust(width)]. *)
Definition rjust (s : string) (width : nat) : string :=
  spaces (width - String.length s) +:+ s.

(** How [get_solver_and_horizon_str] can fail: a subscript on a key that
    the map lacks, or an exception of the number formatting. *)
Inductive solver_failure :=
| KeyError (key : string)
| FormatError (x : exn).

(** [self.solver_settings[key]]. *)
Definition subscript (d : dict setting_value) (key : string)
    : solver_failure + setting_value :=
  match dict_get key d with
  | Some v => inr v
  | None => inl (KeyError key)
  end.

(** The inner [val2str] of [get_solver_and_horizon_str]:
    [np.format_float_positional(val)] on whatever the map holds. *)
Definition solver_val2str `{NumpyFormat} (val : setting_value)
    : solver_failure + string :=
  match val with
  | Single x =>
      match np_format x with
      | Returned s => inr s
      | Raised err => inl (FormatError err)
      end
  | Tuple _ => inl (FormatError (TypeError "must be real number, not tuple"))
  end.

Definition and_then {A B} (m : solver_failure + A) (k : A -> solver_failure + B)
    : solver_failure + B :=
  match m with
  | inr a => k a
  | inl err => inl err
  end.

(** [get_solver_and_horizon_str]: the subscripts and conversions of the
    f-string happen from left to right. *)
Definition get_solver_and_horizon_str {S C D O} `{NumpyFormat, PythonFormat}
    (e : Experiment S C D O) : solver_failure + string :=
  let t0 := format_3f (PyInt 0) in
  let tf := format_3f (PyFloat (horizon e)) in
  let width := Nat.max (String.length t0) (String.length tf) in
  and_then (subscript (solver_settings e) "disc_method") (fun disc_method =>
  and_then (subscript (solver_settings e) "max_h") (fun max_h =>
  and_then (solver_val2str max_h) (fun max_h_text =>
  and_then (subscript (solver_settings e) "min_h") (fun min_h =>
  and_then (solver_val2str min_h) (fun min_h_text =>
  and_then (subscript (solver_settings e) "latency") (fun latency =>
  and_then (solver_val2str latency) (fun latency_text =>
  and_then (subscript (solver_settings e) "upd_over") (fun upd_over =>
    let head := rjust t0 width +:+ " CONTINUE SOLVER " +:+ fstring disc_method +:+ " "
                  +:+ max_h_text +:+ " " +:+ min_h_text +:+ " " +:+ latency_text +:+ " "
                  +:+ fstring upd_over +:+ nl in
    let tail := rjust tf width +:+ " STOP" +:+ nl in
    inr (head +:+ tail))))))))).

(** The width of the time field: that of the wider of the two times. *)
Definition time_width {S C D O} `{PythonFormat} (e : Experiment S C D O) : nat :=
  Nat.max (String.length (format_3f (PyInt 0)))
          (String.length (format_3f (PyFloat (horizon e)))).

(** What the inner [val2str] of [get_solver_and_horizon_str] raises for a
    value, if anything: a tuple is not a real number either. *)
Definition step_refusal (v : setting_value) : option exn :=
  match v with
  | Single x => refusal x
  | Tuple _ => Some (TypeError "must be real number, not tuple")
  end.

(** The values that the f-string hands to [val2str], in its order. *)
Definition step_values {S C D O} (e : Experiment S C D O) : list setting_value :=
  omap (fun k => dict_get k (solver_settings e)) ["max_h"; "min_h"; "latency"].

Module Formats.

(** A stand-in for [f"{x:.3f}"]: the integer part and three zeros, which
    is what Python prints for a whole number. *)
#[global] Instance whole_numbers : PythonFormat := {|
  format_3f x := match x with
                 | PyInt z => pretty z +:+ ".000"
                 | PyFloat f =>
                     match Prim2SF f with
                     | S754_finite false m e => pretty (Z.shiftl (Z.pos m) e) +:+ ".000"
                     | _ => "0.000"
                     end
                 end;
  str_of _ := "?"
|}.

End Formats.

(** * Files and directories *)

(** ** Path names *)

(** The names of the class: directories, and the files that
    [init_files_and_dirs] and [run] use. *)
Definition syst_filename : string := "system.dat".
Definition sett_filename : string := "settings.dat".
Definition obse_filename : string := "observables.dat".
Definition dist_filename : string := "disturbances.dat".
Definition inp_dir : string := "0_Input".
Definition out_dir : string := "1_RAMSES output".
Definition vis_dir : string := "2_Visualizations".
Definition obs_dir : string := "3_Explicit observables".
Definition obs_children_dirs : list string :=
  ["BUS"; "SYNC"; "INJEC"; "SHUNT"; "DCTL"; "BRANCH"].
Definition met_dir : string := "4_Metrics".
Definition det_dir : string := "5_Detectors".
Definition common_children_dirs : list string :=
  [inp_dir; out_dir; vis_dir; obs_dir; met_dir; det_dir].

Definition starts_with_sep (s : string) : bool :=
  match s with
  | String c _ => Ascii.eqb c "/"
  | EmptyString => false
  end.

Definition ends_with_sep (s : string) : bool :=
  match last (String.list_ascii_of_string s) with
  | Some c => Ascii.eqb c "/"
  | None => false
  end.

(** [os.path.join(a, *p)] of [posixpath]: a component that starts with the
    separator replaces what came before it; any other is appended, after a
    separator unless the path so far is empty or ends with one. *)
Definition join_step (path b : string) : string :=
  if starts_with_sep b then b
  else if bool_decide (path = "") || ends_with_sep path then path +:+ b
  else path +:+ "/" +:+ b.

Definition os_path_join (a : string) (p : list string) : string :=
  foldl join_step a p.

(** [path.split("/")]. *)
Fixpoint components (path : string) : list string :=
  match path with
  | EmptyString => [""]
  | String c rest =>
      if Ascii.eqb c "/" then "" :: components rest
      else match components rest with
           | first :: others => String c first :: others
           | [] => [String c ""]
           end
  end.

Definition slash_free (s : string) : bool :=
  forallb (fun c => negb (Ascii.eqb c "/")) (String.list_ascii_of_string s).

(** No character of code 0 in the string. *)
Definition nul_free (s : string) : bool :=
  forallb (fun c => negb (Ascii.eqb c "000")) (String.list_ascii_of_string s).

(** The number of bytes of the name as the operating system receives it
    (UTF-8): one for a character below 128, two for the others. *)
Definition encoded_length (s : string) : nat :=
  foldr (fun c n => (if (N_of_ascii c <? 128)%N then 1 else 2) + n) 0
    (String.list_ascii_of_string s).

(** A component that names an entry of a directory: not empty, neither of
    the two names that every directory interprets itself, and of at most
    255 bytes, the longest name that the usual file systems take. *)
Definition proper (c : string) : bool :=
  bool_decide (c <> "" /\ c <> "." /\ c <> "..") && (encoded_length c <=? 255).

(** A tag that can be part of a name: no separator and no character of
    code 0. *)
Definition plain (s : string) : bool := slash_free s && nul_free s.

Definition clean (c : string) : bool := proper c && plain c.

(** The longest path that the operating system takes, in bytes
    ([PATH_MAX] less the terminator). *)
Definition longest_path : nat := 4095.

(** The entry that a relative path names, for the paths made of proper
    components only.  Paths that are absolute, that hold an empty
    component, [.], [..] or a name of more than 255 bytes, or that are
    longer than [longest_path], are outside the model. *)
Definition resolve (path : string) : option (list string) :=
  let cs := components path in
  if forallb proper cs && (encoded_length path <=? longest_path) then Some cs
  else None.

(** ** The tree under the working directory *)

Inductive node :=
| Dir
| File (content : string).

(** The entries below the working directory, each under the list of the
    components that lead to it; the working directory itself is [[]] and
    is always there. *)
Abbreviation tree := (gmap (list string) node).

Inductive os_error :=
| FileNotFoundError (path : string)
| FileExistsError (path : string)
| NotADirectoryError (path : string)
| IsADirectoryError (path : string).

(** What ends [init_files_and_dirs] early: an error of the operating
    system, another exception (of [get_settings_str], or the [ValueError]
    with which Python refuses a path that holds a character of code 0), a
    failure of [get_solver_and_horizon_str]; [Unmodelled] marks a path on
    which the model does not say what the operating system does. *)
Inductive failure :=
| OSError (err : os_error)
| Exception (x : exn)
| SolverFailure (f : solver_failure)
| Unmodelled (path : string).

(** Code that works on the tree and may raise. *)
Definition io (A : Type) : Type := tree -> (failure + A) * tree.

Definition io_ret {A} (a : A) : io A := fun t => (inr a, t).
Definition io_raise {A} (err : failure) : io A := fun t => (inl err, t).
Definition io_bind {A B} (m : io A) (k : A -> io B) : io B := fun t =>
  match m t with
  | (inr a, t') => k a t'
  | (inl err, t') => (inl err, t')
  end.
Definition io_seq {A} (m : io unit) (k : io A) : io A := io_bind m (fun _ => k).

Fixpoint io_for {X} (xs : list X) (body : X -> io unit) : io unit :=
  match xs with
  | [] => io_ret tt
  | x :: rest => io_seq (body x) (io_for rest body)
  end.

Definition of_outcome {A} (o : outcome A) : io A :=
  match o with
  | Returned a => io_ret a
  | Raised x => io_raise (Exception x)
  end.

Definition of_solver {A} (o : solver_failure + A) : io A :=
  match o with
  | inr a => io_ret a
  | inl f => io_raise (SolverFailure f)
  end.

(** The directory that has to be there for an entry to be made in it: the
    working directory, or a directory of the tree. *)
Definition missing_parent (path : string) (q : list string) (t : tree)
    : option os_error :=
  match removelast q with
  | [] => None
  | up =>
      match t !! up with
      | Some Dir => None
      | Some (File _) => Some (NotADirectoryError path)
      | None => Some (FileNotFoundError path)
      end
  end.

Definition embedded_null : exn := ValueError "embedded null byte".

(** [os.path.exists(path)]; the empty path names nothing, and neither does
    a path that holds a character of code 0. *)
Definition os_path_exists (path : string) : io bool := fun t =>
  if negb (nul_free path) then (inr false, t)
  else if bool_decide (path = "") then (inr false, t)
  else match resolve path with
       | None => (inl (Unmodelled path), t)
       | Some q => (inr (bool_decide (is_Some (t !! q))), t)
       end.

(** [os.mkdir(path)]. *)
Definition os_mkdir (path : string) : io unit := fun t =>
  if negb (nul_free path) then (inl (Exception embedded_null), t)
  else if bool_decide (path = "") then (inl (OSError (FileNotFoundError path)), t)
  else match resolve path with
       | None => (inl (Unmodelled path), t)
       | Some q =>
           match missing_parent path q t with
           | Some err => (inl (OSError err), t)
           | None =>
               match t !! q with
               | Some _ => (inl (OSError (FileExistsError path)), t)
               | None => (inr tt, <[q := Dir]> t)
               end
           end
       end.

(** [open(path, "w")]: the file is created, or emptied when it is there;
    the handle is the entry. *)
Definition open_w (path : string) : io (list string) := fun t =>
  if negb (nul_free path) then (inl (Exception embedded_null), t)
  else if bool_decide (path = "") then (inl (OSError (FileNotFoundError path)), t)
  else match resolve path with
       | None => (inl (Unmodelled path), t)
       | Some q =>
           match missing_parent path q t with
           | Some err => (inl (OSError err), t)
           | None =>
               match t !! q with
               | Some Dir => (inl (OSError (IsADirectoryError path)), t)
               | _ => (inr q, <[q := File ""]> t)
               end
           end
       end.

(** [f.write(text)], seen when the file is closed. *)
Definition file_write (f : list string) (text : string) : io unit := fun t =>
  (inr tt, alter (fun n => match n with
                           | File content => File (content +:+ text)
                           | Dir => Dir
                           end) f t).

(** [if not os.path.exists(path): os.mkdir(path)]. *)
Definition make_if_missing (path_tested path_made : string) : io unit :=
  io_bind (os_path_exists path_tested) (fun found =>
    if found then io_ret tt else os_mkdir path_made).

(** [with open(path, "w") as f: f.write(text)]: the file is opened before
    the text is computed. *)
Definition write_text (path : string) (text : io string) : io unit :=
  io_bind (open_w path) (fun f => io_bind text (fun s => file_write f s)).

(** ** [init_files_and_dirs] *)

Section files_and_dirs.
Context {System Controller Disturbance Observable : Type}.
Context `{Ordered Observable, Printable Observable, Countable Observable}.
Context `{NumpyFormat, PythonFormat}.
Implicit Types e : Experiment System Controller Disturbance Observable.

(** The body of the loop over the case directories. *)
Definition init_case e (case_dir : string) : io unit :=
  io_seq (make_if_missing case_dir case_dir)
  (io_seq (io_for common_children_dirs (fun child_dir =>
             let name := os_path_join case_dir [child_dir] in
             io_seq (make_if_missing name name)
               (if bool_decide (child_dir = obs_dir) then
                  io_for obs_children_dirs (fun obs_child_dir =>
                    let name := os_path_join case_dir [child_dir; obs_child_dir] in
                    make_if_missing name name)
                else io_ret tt)))
  (io_seq (write_text (os_path_join case_dir [inp_dir; obse_filename])
             (io_ret (get_observables_str e)))
  (io_seq (write_text (os_path_join case_dir [inp_dir; sett_filename])
             (of_outcome (get_settings_str e)))
          (write_text (os_path_join case_dir [inp_dir; dist_filename])
             (of_solver (get_solver_and_horizon_str e)))))).

(** [init_files_and_dirs]: the names of the cases are computed first (the
    [i]-th reads the clock [clock i]), then [get_dir] is called for the
    test and, when the test fails, once more for [os.mkdir]. *)
Definition init_files_and_dirs e (clock : nat -> struct_time) : io unit :=
  let case_dirs := case_dirs e clock in
  let reads := length (case_tags e) in
  io_seq (make_if_missing (get_dir e (clock reads)) (get_dir e (clock (S reads))))
         (io_for case_dirs (init_case e)).

(** The working directory of a case in [run], and the [map2dir] that
    prefixes the names of the input files with it. *)
Definition map2dir_input (cwd filename : string) : string :=
  cwd +:+ "/" +:+ inp_dir +:+ "/" +:+ filename.

End files_and_dirs.

(** ** The layout *)

(** The last part of the name of a case directory. *)
Definition case_name (tags : string * string * string * string) : string :=
  let '(s, d, c, r) := tags in s +:+ ", " +:+ d +:+ ", " +:+ c +:+ ", " +:+ r.

(** The entries of one case, in the order in which they are made. *)
Definition case_entries (root name obs_text sett_text dist_text : string)
    : list (list string * node) :=
  ([root; name], Dir)
  :: (common_children_dirs ≫= fun child =>
        ([root; name; child], Dir)
        :: (if bool_decide (child = obs_dir)
            then (fun o => ([root; name; child; o], Dir)) <$> obs_children_dirs
            else []))
  ++ [([root; name; inp_dir; obse_filename], File obs_text);
      ([root; name; inp_dir; sett_filename], File sett_text);
      ([root; name; inp_dir; dist_filename], File dist_text)].

(** Everything that the docstring of [init_files_and_dirs] lays out: the
    directory of the experiment, and in it the entries of every case. *)
Definition planned (root : string) (names : list string)
    (obs_text sett_text dist_text : string) : list (list string * node) :=
  ([root], Dir) :: (names ≫= fun name => case_entries root name obs_text sett_text dist_text).

(** What is found at a place does not stand in the way of what is wanted
    there: nothing, a directory where a directory is wanted, a file where
    a file is wanted. *)
Definition agrees (found : option node) (wanted : node) : Prop :=
  match found, wanted with
  | None, _ => True
  | Some Dir, Dir => True
  | Some (File _), File _ => True
  | _, _ => False
  end.

Definition compatible (plan : list (list string * node)) (t : tree) : Prop :=
  forall q v, (q, v) ∈ plan -> agrees (t !! q) v.

(** The tags of the four axes. *)
Definition all_tags {S C D O} (e : Experiment S C D O) : list string :=
  (systems e).*1 ++ (disturbances e).*1 ++ (controllers e).*1 ++ (randomizations e).*1.

(** The text that a serializer returns, when it returns one. *)
Definition settings_text {S C D O} `{NumpyFormat} (e : Experiment S C D O) : string :=
  match get_settings_str e with
  | Returned s => s
  | Raised _ => ""
  end.

Definition solver_text {S C D O} `{NumpyFormat, PythonFormat}
    (e : Experiment S C D O) : string :=
  match get_solver_and_horizon_str e with
  | inr s => s
  | inl _ => ""
  end.

(** What the layout has at a place: the three texts in the input
    directory of a case, directories everywhere else. *)
Definition expected (obs_text sett_text dist_text : string) (q : list string) : node :=
  match q with
  | [_; _; d; f] =>
      if bool_decide (d = inp_dir) then
        if bool_decide (f = obse_filename) then File obs_text
        else if bool_decide (f = sett_filename) then File sett_text
        else File dist_text
      else Dir
  | _ => Dir
  end.

(** Steps of the construction, for the proofs: a directory is made if it is
    missing, a text is written. *)
Inductive step :=
| Ensure (path : string)
| Put (path : string) (text : string).

Definition run_step (s : step) : io unit :=
  match s with
  | Ensure path => make_if_missing path path
  | Put path text => write_text path (io_ret text)
  end.

Definition run_steps (steps : list step) : io unit := io_for steps run_step.

(** A path that the operations take and the entry that it names. *)
Definition names (path : string) (q : list string) : Prop :=
  nul_free path = true /\ path <> "" /\ resolve path = Some q.

Definition denotes (s : step) (entry : list string * node) : Prop :=
  match s, entry with
  | Ensure path, (q, Dir) => names path q
  | Put path text, (q, File content) => names path q /\ content = text
  | _, _ => False
  end.

Definition apply_all (plan : list (list string * node)) (t : tree) : tree :=
  foldl (fun t entry => <[entry.1 := entry.2]> t) t plan.

(** Every entry is made in the working directory or in a directory that
    was made before it. *)
Fixpoint parents_first (made : list (list string)) (plan : list (list string * node))
    : Prop :=
  match plan with
  | [] => True
  | (q, v) :: rest =>
      (removelast q = [] \/ removelast q ∈ made)
      /\ parents_first (match v with Dir => q :: made | File _ => made end) rest
  end.

(** The path with these components. *)
Definition path_of (q : list string) : string := join "/" q.

(** The steps of one case. *)
Definition case_steps (case_dir obs_text sett_text dist_text : string) : list step :=
  Ensure case_dir
  :: (common_children_dirs ≫= fun child =>
        Ensure (os_path_join case_dir [child])
        :: (if bool_decide (child = obs_dir)
            then (fun o => Ensure (os_path_join case_dir [child; o])) <$> obs_children_dirs
            else []))
  ++ [Put (os_path_join case_dir [inp_dir; obse_filename]) obs_text;
      Put (os_path_join case_dir [inp_dir; sett_filename]) sett_text;
      Put (os_path_join case_dir [inp_dir; dist_filename]) dist_text].


#[global] Instance node_eq_dec : EqDecision node.
Proof. solve_decision. Defined.

(** What is there when the settings file of the first case has been opened:
    the directory of the experiment and the entries of that case but the
    last, with nothing in the settings file. *)
Definition started_case (root name obs_text : string) : list (list string * node) :=
  ([root], Dir) :: removelast (case_entries root name obs_text "" "").

Module Races.

(** A clock that ticks after its first reading. *)
Definition ticking (i : nat) : struct_time :=
  match i with
  | 0 => Demo.noon
  | _ => Demo.noon_and_a_second
  end.

End Races.


(** ** The order of the time stamps *)

(** [s < t] on strings, as Python compares them: by the first character in
    which they differ, a proper prefix coming first. *)
Fixpoint str_lt (s t : string) : bool :=
  match s, t with
  | _, EmptyString => false
  | EmptyString, String _ _ => true
  | String a s', String b t' =>
      if N.ltb (N_of_ascii a) (N_of_ascii b) then true
      else if N.ltb (N_of_ascii b) (N_of_ascii a) then false
      else str_lt s' t'
  end.

(** The fields of a reading of the clock, from the year to the second. *)
Definition fields (t : struct_time) : list nat :=
  [tm_year t; tm_mon t; tm_mday t; tm_hour t; tm_min t; tm_sec t].

(** The order of the readings in time: by the first field in which they
    differ. *)
Fixpoint lex_lt (xs ys : list nat) : bool :=
  match xs, ys with
  | x :: xs', y :: ys' => (x <? y) || ((x =? y) && lex_lt xs' ys')
  | _, _ => false
  end.
(** The characters [0] to [9]. *)
Definition is_digit (c : ascii) : bool :=
  (48 <=? N_of_ascii c)%N && (N_of_ascii c <=? 57)%N.

Definition all_digits (s : string) : bool :=
  forallb is_digit (String.list_ascii_of_string s).

(** The number that the digits write after those that gave [acc]. *)
Definition value_from (acc : N) (s : string) : N :=
  foldl (fun n c => 10 * n + (N_of_ascii c - 48))%N acc (String.list_ascii_of_string s).

(** [s.split(sep)] for a separator of one character: the pieces between
    the separators, empty ones included. *)
Fixpoint split_at (sep : ascii) (s : string) : list string :=
  match s with
  | EmptyString => [""]
  | String c s' =>
      if Ascii.eqb c sep then "" :: split_at sep s'
      else match split_at sep s' with
           | piece :: pieces => String c piece :: pieces
           | [] => [String c ""]
           end
  end.

(** Digits, a point, digits; at least one digit is [seen] before the
    point. *)
Fixpoint digits_point_digits (seen : bool) (s : list ascii) : bool :=
  match s with
  | [] => false
  | c :: s' =>
      if is_digit c then digits_point_digits true s'
      else Ascii.eqb c "." && seen && forallb is_digit s'
  end.

(** A number in fixed-point decimal: an optional minus, the whole part, a
    point and the fraction, which may be empty. *)
Definition fixed_point (s : string) : bool :=
  match String.list_ascii_of_string s with
  | "-"%char :: body => digits_point_digits false body
  | body => digits_point_digits false body
  end.

(** * Properties *)

(** Closed decidable side conditions are settled by evaluation. *)
Ltac by_evaluation :=
  match goal with |- ?P => apply (bool_decide_unpack P); vm_compute; exact I end.

(** ** Strings *)

Lemma string_app_cons a s t : String a s +:+ t = String a (s +:+ t).
Proof. reflexivity. Qed.

Lemma list_ascii_of_string_app s t :
  String.list_ascii_of_string (s +:+ t)
  = String.list_ascii_of_string s ++ String.list_ascii_of_string t.
Proof.
  induction s as [|a s IH]; [done|].
  rewrite string_app_cons. simpl. by rewrite IH.
Qed.

Lemma list_ascii_of_string_inj s t :
  String.list_ascii_of_string s = String.list_ascii_of_string t -> s = t.
Proof.
  intros E. rewrite <- (String.string_of_list_ascii_of_string s).
  rewrite <- (String.string_of_list_ascii_of_string t). by rewrite E.
Qed.

Lemma string_app_inj_r s1 s2 t : s1 +:+ t = s2 +:+ t -> s1 = s2.
Proof.
  intros E. apply list_ascii_of_string_inj.
  apply (f_equal String.list_ascii_of_string) in E.
  rewrite !list_ascii_of_string_app in E. by apply app_inv_tail in E.
Qed.

Lemma string_length_app s t :
  String.length (s +:+ t) = String.length s + String.length t.
Proof.
  induction s as [|a s IH]; [done|].
  rewrite string_app_cons. simpl. by rewrite IH.
Qed.

Lemma spaces_length n : String.length (spaces n) = n.
Proof. unfold spaces. induction n as [|n IH]; simpl; [done|by rewrite IH]. Qed.


Lemma exponent_free_app s t :
  exponent_free (s +:+ t) = exponent_free s && exponent_free t.
Proof. unfold exponent_free. by rewrite list_ascii_of_string_app, forallb_app. Qed.

Lemma exponent_free_spaces n : exponent_free (spaces n) = true.
Proof.
  unfold exponent_free, spaces. rewrite String.list_ascii_of_string_of_list_ascii.
  induction n as [|n IH]; [done|]. simpl. exact IH.
Qed.

Lemma exponent_free_ljust s width :
  exponent_free (ljust s width) = exponent_free s.
Proof.
  unfold ljust. rewrite exponent_free_app, exponent_free_spaces.
  by destruct (exponent_free s).
Qed.

(** ** Case paths *)

Section case_paths.
Context {System Controller Disturbance Observable : Type}.
Implicit Types e : Experiment System Controller Disturbance Observable.

Lemma get_dir_undocumented e now now' :
  must_document e = false -> get_dir e now = get_dir e now'.
Proof. unfold get_dir. by intros ->. Qed.

(** C6 (as amended): in an undocumented experiment the case path does not
    depend on when it is asked for, so two calls with the same four tags
    give the same string; and at one reading of the clock, changing exactly
    one of the four tags changes the path. *)
Theorem case2str_stable_and_tag_sensitive e now now' s d c r s' d' c' r' :
  (must_document e = false -> case2str e now s d c r = case2str e now' s d c r)
  /\ (s <> s' -> case2str e now s d c r <> case2str e now s' d c r)
  /\ (d <> d' -> case2str e now s d c r <> case2str e now s d' c r)
  /\ (c <> c' -> case2str e now s d c r <> case2str e now s d c' r)
  /\ (r <> r' -> case2str e now s d c r <> case2str e now s d c r').
Proof.
  unfold case2str. split; [|repeat split].
  - intros Hdoc. by rewrite (get_dir_undocumented e now now' Hdoc).
  - intros Hne E. do 2 apply String.app_inj in E. by apply string_app_inj_r in E.
  - intros Hne E. do 4 apply String.app_inj in E. by apply string_app_inj_r in E.
  - intros Hne E. do 6 apply String.app_inj in E. by apply string_app_inj_r in E.
  - intros Hne E. by do 8 apply String.app_inj in E.
Qed.

End case_paths.

(** At two readings of the clock one second apart, a documented experiment
    names the same case differently: C6 does not hold as stated. *)
Lemma case2str_depends_on_clock :
  must_document (Demo.fresh true) = true
  /\ case2str (Demo.fresh true) Demo.noon "sys" "dist" "ctrl" "Not random"
     = "[2024-03-09 12 00 00] demo/sys, dist, ctrl, Not random"
  /\ case2str (Demo.fresh true) Demo.noon_and_a_second "sys" "dist" "ctrl" "Not random"
     = "[2024-03-09 12 00 01] demo/sys, dist, ctrl, Not random"
  /\ case2str (Demo.fresh true) Demo.noon "sys" "dist" "ctrl" "Not random"
     <> case2str (Demo.fresh true) Demo.noon_and_a_second "sys" "dist" "ctrl" "Not random".
Proof. repeat split; try by vm_compute. Qed.

Lemma case2str_stable_and_tag_sensitive_witness :
  case2str (Demo.fresh false) Demo.noon "sys" "dist" "ctrl" "Not random"
  = case2str (Demo.fresh false) Demo.noon_and_a_second "sys" "dist" "ctrl" "Not random"
  /\ case2str (Demo.fresh true) Demo.noon "sys" "dist" "ctrl" "Not random"
     <> case2str (Demo.fresh true) Demo.noon "sys" "dist" "none" "Not random".
Proof.
  split.
  - apply (case2str_stable_and_tag_sensitive (Demo.fresh false)
             Demo.noon Demo.noon_and_a_second
             "sys" "dist" "ctrl" "Not random" "sys" "dist" "ctrl" "Not random").
    reflexivity.
  - apply (case2str_stable_and_tag_sensitive (Demo.fresh true)
             Demo.noon Demo.noon
             "sys" "dist" "ctrl" "Not random" "sys" "dist" "none" "Not random").
    discriminate.
Defined.

(** ** What a method leaves untouched *)

Section frames.
Context {System Controller Disturbance Observable : Type}.
Context `{Ordered Disturbance, Ordered Observable, ControllerLike Controller}.
Implicit Types e : Experiment System Controller Disturbance Observable.

Lemma for_each_invariant {X} (P : Experiment System Controller Disturbance Observable -> Prop)
    (body : X -> method unit) xs e :
  (forall x e', P e' -> P (body x e').2) -> P e -> P (for_each xs body e).2.
Proof.
  intros Hbody. revert e. induction xs as [|x xs IH]; intros e He; [done|].
  simpl. unfold andthen. specialize (Hbody x e He).
  destruct (body x e) as [[[]|err] e1]; simpl in *; auto.
Qed.

(** The validation loops write nothing. *)
Lemma check_disturbances_pure (ds : list (pyobj Disturbance)) e :
  (for_each ds check_disturbance e).2 = e.
Proof.
  apply (for_each_invariant (fun e' => e' = e)); [|done].
  intros [d|r] e' ->; done.
Qed.

Lemma check_controllers_pure (cs : list (pyobj Controller)) e :
  (for_each cs check_controller e).2 = e.
Proof.
  apply (for_each_invariant (fun e' => e' = e)); [|done].
  intros [c|r] e' ->; [|done]. unfold check_controller.
  destruct (has_overrides_OLTCs c), (has_get_actions c); done.
Qed.

Section invariants.
Context (P : Experiment System Controller Disturbance Observable -> Prop).
Context (HP : invariant P).

Lemma add_observables_invariant (obs : list (pyobj Observable)) e :
  P e -> P (add_observables obs e).2.
Proof using HP.
  destruct HP as (_ & _ & _ & _ & Hobs & _). intros He.
  apply (for_each_invariant P); [|done]. intros [o|r] e' He'; [|done].
  unfold add_observable.
  destruct (insort py_lt (observables e') o); [|done]. by apply Hobs.
Qed.

Lemma perform_invariant (c : call) e : P e -> P (perform c e).2.
Proof using HP.
  pose proof HP as (Hdesc & Hsys & Hcon & Hdis & Hobs & Hset & Hsol & Hhor).
  intros He.
  destruct c as [text|tag sys|tag ds|obs|tag cs| | | |d|d hz|touch requests]; simpl.
  - unfold describe. case_decide; [done|]. by apply Hdesc.
  - unfold add_system. case_decide; [done|]. destruct sys; [|done]. by apply Hsys.
  - unfold add_disturbances, andthen. case_decide; [done|].
    pose proof (check_disturbances_pure ds e) as Hpure.
    destruct (for_each ds check_disturbance e) as [[[]|err] e1]; simpl in *; subst e1;
      [|done]. by apply Hdis.
  - by apply add_observables_invariant.
  - unfold add_controllers, andthen. case_decide; [done|].
    pose proof (check_controllers_pure cs e) as Hpure.
    destruct (for_each cs check_controller e) as [[[]|err] e1]; simpl in *; subst e1;
      [|done]. by apply Hcon.
  - done.
  - done.
  - done.
  - apply (for_each_invariant P); [|done].
    intros [k v] e' He'. unfold set_RAMSES_setting. case_decide; [|done]. by apply Hset.
  - unfold set_solver_and_horizon, andthen. destruct (PrimFloat.leb hz 0); [done|].
    simpl. apply (for_each_invariant P); [|by apply Hhor].
    intros [k v] e' He'. unfold set_solver_setting. case_decide; [|done]. by apply Hsol.
  - unfold run_registries, andthen. simpl.
    apply (for_each_invariant P); [|by apply Hsys].
    intros args e' He'. by apply add_observables_invariant.
Qed.

Lemma perform_all_invariant (calls : list call) e : P e -> P (perform_all calls e).
Proof using HP.
  revert e. induction calls as [|c calls IH]; intros e He; [done|].
  simpl. fold (perform_all calls (perform c e).2).
  by apply IH, perform_invariant.
Qed.
End invariants.

Lemma untouched_randomizations :
  untouched (randomizations (System := System) (Controller := Controller)
               (Disturbance := Disturbance) (Observable := Observable)).
Proof. intros e0. repeat split; by intros; destruct e. Qed.

Lemma untouched_thresholds :
  untouched (fun e : Experiment System Controller Disturbance Observable =>
               (error_voltages e, disturbance_window e, pyramses_step e)).
Proof. intros e0. repeat split; by intros; destruct e. Qed.

Lemma perform_all_untouched {A}
    (proj : Experiment System Controller Disturbance Observable -> A)
    (calls : list call) e :
  untouched proj -> proj (perform_all calls e) = proj e.
Proof. intros Hproj. by apply (perform_all_invariant _ (Hproj e)). Qed.

Lemma perform_all_randomizations (calls : list call) e :
  randomizations (perform_all calls e) = randomizations e.
Proof. apply perform_all_untouched, untouched_randomizations. Qed.

Lemma perform_all_thresholds (calls : list call) e :
  error_voltages (perform_all calls e) = error_voltages e
  /\ disturbance_window (perform_all calls e) = disturbance_window e
  /\ pyramses_step (perform_all calls e) = pyramses_step e.
Proof.
  pose proof (perform_all_untouched _ calls e untouched_thresholds) as Heq.
  by simplify_eq.
Qed.

Lemma length_bind_const {A B} (f : A -> list B) (l : list A) n :
  (forall x, length (f x) = n) -> length (l ≫= f) = length l * n.
Proof.
  intros Hf. induction l as [|x l IH]; [done|].
  rewrite bind_cons, length_app, Hf, IH. simpl. lia.
Qed.

Lemma case_dirs_length e clock :
  length (case_dirs e clock)
  = length (systems e) * (length (disturbances e)
      * (length (controllers e) * length (randomizations e))).
Proof.
  unfold case_dirs. rewrite length_imap. unfold case_tags.
  apply length_bind_const; intros sys.
  apply length_bind_const; intros dis.
  apply length_bind_const; intros con.
  rewrite (length_bind_const _ _ 1); [lia|done].
Qed.

(** C9: a constructed experiment has the single randomization tagged
    [Not random]; [add_randomization] returns without writing anything; no
    sequence of calls changes the axis; and so the case enumeration of
    [init_files_and_dirs] has one entry per triple of system, disturbance
    batch and controller batch. *)
Theorem randomizations_axis_fixed path_exists nm dll reps doc e
    (calls : list call) clock :
  init path_exists nm dll reps doc = Returned e ->
  randomizations e = [("Not random", {| rand_description := "Not random" |})]
  /\ add_randomization e = (Returned tt, e)
  /\ randomizations (perform_all calls e) = randomizations e
  /\ length (case_dirs (perform_all calls e) clock)
     = length (systems (perform_all calls e))
       * length (disturbances (perform_all calls e))
       * length (controllers (perform_all calls e)).
Proof.
  intros Hinit.
  assert (Hr : randomizations e
               = [("Not random", {| rand_description := "Not random" |})]).
  { unfold init in Hinit. repeat case_match; by simplify_eq. }
  split; [exact Hr|]. split; [done|].
  split; [apply perform_all_randomizations|].
  rewrite case_dirs_length, perform_all_randomizations, Hr. simpl. lia.
Qed.

End frames.

Lemma randomizations_axis_fixed_witness :
  init Demo.path_exists "demo" "C:/RAMSES" 1 false = Returned (Demo.fresh false)
  /\ randomizations (perform_all Demo.two_systems (Demo.fresh false))
     = [("Not random", {| rand_description := "Not random" |})]
  /\ length (case_dirs (perform_all Demo.two_systems (Demo.fresh false)) (fun _ => Demo.noon))
     = 2 * 1 * 1.
Proof.
  split; [reflexivity|].
  destruct (randomizations_axis_fixed Demo.path_exists "demo" "C:/RAMSES" 1 false
              (Demo.fresh false) Demo.two_systems (fun _ => Demo.noon))
    as (Hfresh & _ & Hkept & Hcases); [reflexivity|].
  split; [exact (eq_trans Hkept Hfresh) | exact Hcases].
Defined.

(** ** The stepping loop *)

Section stepping.
Context {World : Type} `{Simulation World}.
Context (vmin vmax window h : float).

Lemma run_loop_app pre post w log :
  run_loop vmin vmax window h (pre ++ post) w log
  = match exit (run_loop vmin vmax window h pre w log) with
    | Completed =>
        run_loop vmin vmax window h post
          (world (run_loop vmin vmax window h pre w log))
          (advanced (run_loop vmin vmax window h pre w log))
    | _ => run_loop vmin vmax window h pre w log
    end.
Proof.
  revert w log. induction pre as [|tk pre IH]; intros w log; [done|].
  simpl. destruct (getBusVolt w) as [[voltages|err] w1]; [|done].
  destruct (PrimFloat.ltb window tk && negb (voltages_ok vmin vmax voltages)); [done|].
  destruct (contSim tk w1) as [[[]|err] w2]; [|done].
  destruct (after_step h tk w2) as [[[]|err] w3]; [|done].
  apply IH.
Qed.

(** A loop that runs through all its time values has advanced the engine to
    each of them, in order. *)
Lemma run_loop_completed_log tv w log :
  exit (run_loop vmin vmax window h tv w log) = Completed ->
  advanced (run_loop vmin vmax window h tv w log) = log ++ tv.
Proof.
  revert w log. induction tv as [|tk tv IH]; intros w log; simpl.
  - by rewrite app_nil_r.
  - destruct (getBusVolt w) as [[voltages|err] w1]; [|done].
    destruct (PrimFloat.ltb window tk && negb (voltages_ok vmin vmax voltages)); [done|].
    destruct (contSim tk w1) as [[[]|err] w2]; [|done].
    destruct (after_step h tk w2) as [[[]|err] w3]; [|done].
    intros Hexit. rewrite (IH _ _ Hexit). by rewrite <- app_assoc.
Qed.

Lemma voltages_ok_false voltages v :
  v ∈ voltages -> PrimFloat.ltb vmin v && PrimFloat.ltb v vmax = false ->
  voltages_ok vmin vmax voltages = false.
Proof.
  intros Hin Hout. unfold voltages_ok. apply not_true_is_false. intros Hall.
  rewrite forallb_forall in Hall. apply list_elem_of_In in Hin.
  specialize (Hall v Hin). rewrite Hout in Hall. done.
Qed.

Lemma run_loop_divergence pre tk post w log voltages w1 v :
  exit (run_loop vmin vmax window h pre w log) = Completed ->
  getBusVolt (world (run_loop vmin vmax window h pre w log)) = (Returned voltages, w1) ->
  PrimFloat.ltb window tk = true ->
  v ∈ voltages -> PrimFloat.ltb vmin v && PrimFloat.ltb v vmax = false ->
  run_loop vmin vmax window h (pre ++ tk :: post) w log
  = {| exit := AbortedOnDivergence; world := w1; advanced := log ++ pre |}.
Proof.
  intros Hexit Hvolt Hlate Hin Hout. rewrite run_loop_app, Hexit. simpl.
  rewrite Hvolt, Hlate, (voltages_ok_false voltages v Hin Hout). simpl.
  by rewrite (run_loop_completed_log pre w log Hexit).
Qed.

End stepping.

Section divergence.
Context {System Controller Disturbance Observable : Type}.
Context `{Ordered Disturbance, Ordered Observable, ControllerLike Controller}.
Context {World : Type} `{Simulation World}.

(** C7: take an experiment as the constructor and any calls of its methods
    leave it, and a run whose steps before [tk] all went through.  If [tk]
    lies after the disturbance window (5) and one of the voltages read at
    that step is not strictly between 0.7 and 1.2, the loop is left through
    the [break] of the voltage test: the engine has been advanced to the
    earlier time values only, never to [tk] nor to a later one. *)
Theorem run_stops_on_divergence path_exists nm dll reps doc
    (e0 : Experiment System Controller Disturbance Observable) (calls : list call)
    (pre : list float) (tk : float) (post : list float) (w w1 : World)
    (voltages : list float) (v : float) :
  init path_exists nm dll reps doc = Returned e0 ->
  exit (run_case (perform_all calls e0) pre w) = Completed ->
  getBusVolt (world (run_case (perform_all calls e0) pre w)) = (Returned voltages, w1) ->
  PrimFloat.ltb 5 tk = true ->
  v ∈ voltages ->
  PrimFloat.ltb 0.7 v && PrimFloat.ltb v 1.2 = false ->
  run_case (perform_all calls e0) (pre ++ tk :: post) w
  = {| exit := AbortedOnDivergence; world := w1; advanced := pre |}.
Proof.
  intros Hinit. unfold run_case.
  destruct (perform_all_thresholds calls e0) as (-> & -> & ->).
  assert (He0 : e0 = initial nm dll reps doc).
  { unfold init in Hinit. repeat case_match; by simplify_eq. }
  subst e0. simpl. intros Hexit Hvolt Hlate Hin Hout.
  by rewrite (run_loop_divergence _ _ _ _ pre tk post w [] voltages w1 v).
Qed.

End divergence.

Lemma run_stops_on_divergence_witness :
  run_case (perform_all Demo.two_systems (Demo.fresh false))
    ([0; 2; 4; 6] ++ 8 :: [10])%float Demo.diverging_script
  = {| exit := AbortedOnDivergence;
       world := [[0.93; 0.65]; [0.9]]%float;
       advanced := [0; 2; 4; 6]%float |}.
Proof.
  apply (run_stops_on_divergence Demo.path_exists "demo" "C:/RAMSES" 1 false
           (Demo.fresh false) Demo.two_systems [0; 2; 4; 6]%float 8%float [10]%float
           Demo.diverging_script [[0.93; 0.65]; [0.9]]%float [0.93; 0.65]%float 0.65%float).
  - reflexivity.
  - vm_compute. reflexivity.
  - vm_compute. reflexivity.
  - vm_compute. reflexivity.
  - apply list_elem_of_In. right. left. reflexivity.
  - vm_compute. reflexivity.
Defined.

(** ** Dictionaries *)

Section dict_facts.
Context {V : Type}.
Implicit Types d s : dict V.

Lemma dict_get_set_eq k v s : dict_get k (dict_set k v s) = Some v.
Proof.
  induction s as [|[k' v'] s IH]; simpl.
  - by rewrite decide_True.
  - destruct (decide (k' = k)) as [->|Hne]; simpl.
    + by rewrite decide_True.
    + by rewrite decide_False.
Qed.

Lemma dict_get_set_ne k k' v s :
  k <> k' -> dict_get k' (dict_set k v s) = dict_get k' s.
Proof.
  intros Hne. induction s as [|[k0 v0] s IH]; simpl.
  - by rewrite decide_False.
  - destruct (decide (k0 = k)) as [->|Hne0]; simpl.
    + by rewrite !decide_False.
    + destruct (decide (k0 = k')); [done|apply IH].
Qed.

(** Assigning keeps the keys where they stand; a new key goes last. *)
Lemma dict_set_keys k v s :
  keys (dict_set k v s) = if decide (k ∈ keys s) then keys s else keys s ++ [k].
Proof.
  unfold keys. induction s as [|[k0 v0] s IH]; [done|].
  cbn [dict_set]. rewrite fmap_cons. cbn [fst].
  destruct (decide (k0 = k)) as [->|Hne0].
  - rewrite decide_True; [done|]. apply list_elem_of_here.
  - rewrite fmap_cons, IH. cbn [fst]. destruct (decide (k ∈ s.*1)) as [Hin|Hout].
    + rewrite decide_True; [done|]. by apply list_elem_of_further.
    + rewrite decide_False; [done|]. intros Hin.
      apply elem_of_cons in Hin as [->|Hin]; done.
Qed.

Lemma update_all_get d s k :
  NoDup (keys d) ->
  dict_get k (update_all d s)
  = match dict_get k d with Some v => Some v | None => dict_get k s end.
Proof.
  unfold keys. revert s. induction d as [|[k0 v0] d IH]; intros s Hnd; [done|].
  simpl in *. apply NoDup_cons in Hnd as [Hfresh Hnd]. rewrite (IH _ Hnd).
  destruct (decide (k0 = k)) as [->|Hne].
  - assert (dict_get k d = None) as ->; [|apply dict_get_set_eq].
    clear -Hfresh. induction d as [|[k1 v1] d IH]; [done|]. simpl in *.
    apply not_elem_of_cons in Hfresh as [Hne Hfresh].
    rewrite decide_False by done. by apply IH.
  - destruct (dict_get k d); [done|]. by apply dict_get_set_ne.
Qed.

Lemma recognized_prefix_all names d :
  Forall (fun k => k ∈ names) (keys d) ->
  recognized_prefix names d = d /\ first_unrecognized names d = None.
Proof.
  unfold first_unrecognized, keys. induction d as [|[k v] d IH]; intros Hall; [done|].
  simpl in *. apply Forall_cons in Hall as [Hk Hall].
  destruct (IH Hall) as [-> Hnone]. rewrite decide_True by done.
  split; [done|]. rewrite filter_cons_False; [done|]. by intros ?.
Qed.

Lemma recognized_prefix_stop names (pre : dict V) k (v : V) (post : dict V) :
  Forall (fun k => k ∈ names) (keys pre) -> k ∉ names ->
  recognized_prefix names (pre ++ (k, v) :: post) = pre
  /\ first_unrecognized names (pre ++ (k, v) :: post) = Some k.
Proof.
  unfold first_unrecognized, keys. intros Hall Hk.
  induction pre as [|[k0 v0] pre IH]; simpl in *.
  - rewrite decide_False by done. split; [done|]. by rewrite filter_cons_True.
  - apply Forall_cons in Hall as [Hk0 Hall]. destruct (IH Hall) as [-> Hsome].
    rewrite decide_True by done. split; [done|].
    rewrite filter_cons_False; [done|]. by intros ?.
Qed.
End dict_facts.

(** ** Merging settings *)

Section merge_loop.
Context {System Controller Disturbance Observable : Type}.
Local Abbreviation Exp := (Experiment System Controller Disturbance Observable).
Context (names : list string).
Context (get : Exp -> dict setting_value) (put : dict setting_value -> Exp -> Exp).
Context (get_put : forall s e, get (put s e) = s).
Context (put_put : forall s s' e, put s (put s' e) = put s e).
Context (put_get : forall e, put (get e) e = e).

Context (body : string * setting_value -> Exp -> outcome unit * Exp).
Context (body_eq : forall k v e,
  body (k, v) e = if decide (k ∈ names)
                  then (Returned tt, put (dict_set k v (get e)) e)
                  else (Raised (unknown_setting k), e)).

(** The shape shared by the loops of [set_RAMSES_settings] and
    [set_solver_and_horizon]. *)
Lemma merge_loop_run (d : dict setting_value) (e : Exp) :
  for_each d body e
  = (match first_unrecognized names d with
     | None => Returned tt
     | Some k => Raised (unknown_setting k)
     end,
     put (update_all (recognized_prefix names d) (get e)) e).
Proof using get_put put_put put_get body_eq.
  unfold first_unrecognized, keys. revert e.
  induction d as [|[k v] d IH]; intros e.
  - simpl. by rewrite put_get.
  - cbn [for_each recognized_prefix]. unfold andthen.
    rewrite fmap_cons, body_eq. cbn [fst]. destruct (decide (k ∈ names)) as [Hk|Hk].
    + rewrite IH, get_put, put_put.
      rewrite filter_cons_False; [done|]. by intros ?.
    + rewrite filter_cons_True by done. simpl. by rewrite put_get.
Qed.
End merge_loop.

Section settings.
Context {System Controller Disturbance Observable : Type}.
Implicit Types e : Experiment System Controller Disturbance Observable.

Lemma set_RAMSES_settings_run (d : dict setting_value) e :
  set_RAMSES_settings d e
  = (match first_unrecognized setting_names d with
     | None => Returned tt
     | Some k => Raised (unknown_setting k)
     end,
     with_settings (update_all (recognized_prefix setting_names d) (settings e)) e).
Proof.
  apply (merge_loop_run setting_names settings with_settings).
  - by intros s [].
  - by intros s s' [].
  - by intros [].
  - intros k v e'. unfold set_RAMSES_setting. by case_decide.
Qed.

Lemma solver_settings_run (d : dict setting_value) e :
  for_each d set_solver_setting e
  = (match first_unrecognized solver_setting_names d with
     | None => Returned tt
     | Some k => Raised (unknown_setting k)
     end,
     with_solver_settings
       (update_all (recognized_prefix solver_setting_names d) (solver_settings e)) e).
Proof.
  apply (merge_loop_run solver_setting_names solver_settings with_solver_settings).
  - by intros s [].
  - by intros s s' [].
  - by intros [].
  - intros k v e'. unfold set_solver_setting. by case_decide.
Qed.


(** C8 (as amended): a horizon [<= 0] raises and nothing is written.
    Otherwise the horizon is stored at once; with recognized keys only the
    call returns and the solver settings are the former ones with exactly
    the given keys overwritten; with a key that is not recognized the call
    raises the unknown-setting error, the new horizon stays stored and so
    do the items that come before that key. *)
Theorem set_solver_and_horizon_outcomes (d : dict setting_value) (hz : float) e :
  NoDup (keys d) ->
  (PrimFloat.leb hz 0 = true ->
   set_solver_and_horizon d hz e
   = (Raised (RuntimeError "Horizon must be positive."), e))
  /\ (PrimFloat.leb hz 0 = false ->
      Forall (fun k => k ∈ solver_setting_names) (keys d) ->
      exists e', set_solver_and_horizon d hz e = (Returned tt, e')
        /\ horizon e' = hz
        /\ e' = with_solver_settings (solver_settings e') (with_horizon hz e)
        /\ forall k, dict_get k (solver_settings e')
                     = match dict_get k d with
                       | Some v => Some v
                       | None => dict_get k (solver_settings e)
                       end)
  /\ (PrimFloat.leb hz 0 = false ->
      forall pre k v post,
        d = pre ++ (k, v) :: post ->
        Forall (fun k => k ∈ solver_setting_names) (keys pre) ->
        k ∉ solver_setting_names ->
        exists e', set_solver_and_horizon d hz e = (Raised (unknown_setting k), e')
          /\ horizon e' = hz
          /\ e' = with_solver_settings (solver_settings e') (with_horizon hz e)
          /\ forall k', dict_get k' (solver_settings e')
                        = match dict_get k' pre with
                          | Some v' => Some v'
                          | None => dict_get k' (solver_settings e)
                          end).
Proof.
  intros Hnd. unfold set_solver_and_horizon, andthen.
  assert (Hs : forall s, solver_settings (with_solver_settings s (with_horizon hz e)) = s)
    by (by destruct e).
  assert (Hh : forall s, horizon (with_solver_settings s (with_horizon hz e)) = hz)
    by (by destruct e).
  assert (Hold : solver_settings (with_horizon hz e) = solver_settings e)
    by (by destruct e).
  split; [by intros ->|]. split.
  - intros -> Hall. simpl.
    destruct (recognized_prefix_all solver_setting_names d Hall) as [Hp Hf].
    eexists. rewrite solver_settings_run, Hp, Hf, Hold. split; [done|].
    rewrite Hs, Hh. repeat split. intros k. by apply update_all_get.
  - intros -> pre k v post -> Hall Hk. simpl.
    destruct (recognized_prefix_stop solver_setting_names pre k v post Hall Hk) as [Hp Hf].
    eexists. rewrite solver_settings_run, Hp, Hf, Hold. split; [done|].
    rewrite Hs, Hh. repeat split. intros k'. apply update_all_get.
    unfold keys in *. rewrite fmap_app in Hnd. by apply NoDup_app in Hnd as [? _].
Qed.

End settings.



(** An unknown solver key with a positive horizon: the call raises, and the
    horizon has been replaced all the same, so C8 does not hold as stated. *)
Lemma set_solver_and_horizon_keeps_new_horizon :
  (set_solver_and_horizon [("max_h", Single (Num (PyFloat 0.01)));
                           ("bogus", Single (Str "1"))] 50 (Demo.fresh false)).1
  = Raised (RuntimeError "Unknown setting bogus.")
  /\ PrimFloat.eqb (horizon (Demo.fresh false)) 200 = true
  /\ PrimFloat.eqb
       (horizon (set_solver_and_horizon [("max_h", Single (Num (PyFloat 0.01)));
                                         ("bogus", Single (Str "1"))] 50
                   (Demo.fresh false)).2) 50 = true
  /\ horizon (set_solver_and_horizon [("max_h", Single (Num (PyFloat 0.01)));
                                      ("bogus", Single (Str "1"))] 50
                (Demo.fresh false)).2
     <> horizon (Demo.fresh false)
  /\ solver_settings (set_solver_and_horizon [("max_h", Single (Num (PyFloat 0.01)));
                                              ("bogus", Single (Str "1"))] 50
                        (Demo.fresh false)).2
     <> solver_settings (Demo.fresh false).
Proof.
  split; [by vm_compute|]. split; [by vm_compute|]. split; [by vm_compute|]. split.
  - intros E. apply (f_equal (fun x => PrimFloat.eqb x 200)) in E.
    vm_compute in E. discriminate.
  - intros E. apply (f_equal (fun s => match dict_get "max_h" s with
                                       | Some (Single (Num (PyFloat x))) =>
                                           PrimFloat.eqb x 0.001
                                       | _ => false
                                       end)) in E.
    vm_compute in E. discriminate.
Qed.

Lemma set_solver_and_horizon_outcomes_witness :
  set_solver_and_horizon [("disc_method", Single (Str "TR"))] (-1) (Demo.fresh false)
  = (Raised (RuntimeError "Horizon must be positive."), Demo.fresh false)
  /\ (exists e', set_solver_and_horizon [("disc_method", Single (Str "TR"))] 60
                   (Demo.fresh false) = (Returned tt, e')
        /\ horizon e' = 60%float
        /\ dict_get "disc_method" (solver_settings e') = Some (Single (Str "TR"))
        /\ dict_get "upd_over" (solver_settings e') = Some (Single (Str "ABL")))
  /\ (exists e', set_solver_and_horizon [("bogus", Single (Str "1"))] 60
                   (Demo.fresh false) = (Raised (unknown_setting "bogus"), e')
        /\ horizon e' = 60%float).
Proof.
  split; [|split].
  - destruct (set_solver_and_horizon_outcomes
                [("disc_method", Single (Str "TR"))] (-1) (Demo.fresh false))
      as [Hneg _]; [by_evaluation|].
    apply Hneg. reflexivity.
  - destruct (set_solver_and_horizon_outcomes
                [("disc_method", Single (Str "TR"))] 60 (Demo.fresh false))
      as (_ & Hok & _); [by_evaluation|].
    destruct Hok as (e' & Hrun & Hhz & _ & Hget); [reflexivity|by_evaluation|].
    exists e'. split; [exact Hrun|]. split; [exact Hhz|].
    split; [apply (Hget "disc_method")|apply (Hget "upd_over")].
  - destruct (set_solver_and_horizon_outcomes
                [("bogus", Single (Str "1"))] 60 (Demo.fresh false))
      as (_ & _ & Hbad); [by_evaluation|].
    destruct (Hbad eq_refl [] "bogus" (Single (Str "1")) [])
      as (e' & Hrun & Hhz & _); [reflexivity|by_evaluation|by_evaluation|].
    exists e'. split; [exact Hrun|exact Hhz].
Defined.

(** ** Sorting and sorted insertion *)

Section sorting_facts.
Context {A : Type} `{Ordered A}.

Lemma insert_stable_perm x l : insert_stable py_lt x l ≡ₚ x :: l.
Proof.
  induction l as [|y l IH]; simpl; [done|].
  destruct (py_lt y x); [|done]. rewrite IH. apply Permutation_swap.
Qed.

Lemma sorted_perm l : sorted py_lt l ≡ₚ l.
Proof.
  induction l as [|x l IH]; simpl; [done|].
  by rewrite insert_stable_perm, IH.
Qed.

Lemma bisect_loop_step fuel (a : list A) x lo hi :
  lo < hi ->
  bisect_loop py_lt (S fuel) a x lo hi
  = match a !! ((lo + hi) `div` 2) with
    | Some y =>
        if py_lt x y then bisect_loop py_lt fuel a x lo ((lo + hi) `div` 2)
        else bisect_loop py_lt fuel a x (S ((lo + hi) `div` 2)) hi
    | None => None
    end.
Proof. intros Hlt. cbn [bisect_loop]. by rewrite decide_True. Qed.

Lemma bisect_loop_done fuel (a : list A) x lo hi :
  ~ lo < hi -> bisect_loop py_lt fuel a x lo hi = Some lo.
Proof. intros Hge. destruct fuel; cbn [bisect_loop]; by rewrite decide_False. Qed.

(** The search ends within [hi - lo] turns, inside the interval. *)
Lemma bisect_loop_total fuel (a : list A) x lo hi :
  lo <= hi -> hi <= length a -> hi - lo <= fuel ->
  exists i, bisect_loop py_lt fuel a x lo hi = Some i /\ lo <= i <= hi.
Proof.
  revert lo hi. induction fuel as [|fuel IH]; intros lo hi Hle Hhi Hfuel.
  - rewrite bisect_loop_done by lia. exists lo. split; [done|lia].
  - destruct (decide (lo < hi)) as [Hlt|Hge];
      [|rewrite bisect_loop_done by done; exists lo; split; [done|lia]].
    rewrite bisect_loop_step by done.
    assert (Hmid : lo <= (lo + hi) `div` 2 < hi).
    { split; [apply Nat.div_le_lower_bound; lia|apply Nat.Div0.div_lt_upper_bound; lia]. }
    destruct (lookup_lt_is_Some_2 a ((lo + hi) `div` 2)) as [y ->]; [lia|].
    destruct (py_lt x y).
    + destruct (IH lo ((lo + hi) `div` 2)) as (i & -> & Hi); [lia..|].
      exists i. split; [done|lia].
    + destruct (IH (S ((lo + hi) `div` 2)) hi) as (i & -> & Hi); [lia..|].
      exists i. split; [done|lia].
Qed.

(** [bisect.insort] always finds a place, and puts [x] there. *)
Lemma insort_total (a : list A) x :
  exists l, insort py_lt a x = Some l /\ l ≡ₚ x :: a.
Proof.
  unfold insort, bisect_right.
  destruct (bisect_loop_total (length a) a x 0 (length a)) as (i & -> & Hi); [lia..|].
  simpl. eexists. split; [done|]. unfold list_insert_at.
  rewrite <- Permutation_middle. by rewrite take_drop.
Qed.

Section weak.
Context `{!StrictWeak A}.

Lemma lt_asym x y : py_lt x y = true -> py_lt y x = false.
Proof.
  intros Hxy. destruct (py_lt y x) eqn:Hyx; [|done].
  pose proof (lt_trans x y x Hxy Hyx) as Hxx. by rewrite lt_irrefl in Hxx.
Qed.

Global Instance not_after_trans : Transitive not_after.
Proof. intros x y z Hxy Hyz. exact (lt_incomp_trans z y x Hyz Hxy). Qed.

Lemma insert_stable_sorted x l :
  Sorted not_after l -> Sorted not_after (insert_stable py_lt x l).
Proof.
  induction 1 as [|y l Hsorted IH Hhd]; simpl; [by repeat constructor|].
  destruct (py_lt y x) eqn:Hyx.
  - constructor; [done|]. destruct Hhd as [|z l Hyz]; simpl.
    + constructor. by apply lt_asym.
    + destruct (py_lt z x); constructor; [done|by apply lt_asym].
  - by repeat constructor.
Qed.

Lemma sorted_sorted l : Sorted not_after (sorted py_lt l).
Proof.
  induction l as [|x l IH]; simpl; [constructor|by apply insert_stable_sorted].
Qed.
End weak.

Section total.
Context `{!StrictTotal A}.

Lemma not_after_ne_before x y : not_after x y -> x <> y -> before x y.
Proof.
  unfold not_after, before. intros Hyx Hne.
  destruct (py_lt x y) eqn:Hxy; [done|]. by destruct Hne, (lt_trichotomy x y).
Qed.

(** Without repeated objects, [sorted] gives a strictly increasing list. *)
Lemma sorted_strict l : NoDup l -> StronglySorted before (sorted py_lt l).
Proof.
  intros Hnd. assert (Hnd' : NoDup (sorted py_lt l)) by by rewrite sorted_perm.
  pose proof (Sorted_StronglySorted _ _ (sorted_sorted l)) as Hs.
  induction Hs as [|x l' Hs IH Hall]; [constructor|].
  apply NoDup_cons in Hnd' as [Hx Hnd']. constructor; [by apply IH|].
  apply Forall_forall. intros y Hy. apply not_after_ne_before.
  - rewrite Forall_forall in Hall. apply Hall, Hy.
  - intros ->. by apply Hx, list_elem_of_In.
Qed.

Global Instance before_strict : StrictOrder before.
Proof.
  split.
  - intros x Hx. unfold before in Hx. by rewrite lt_irrefl in Hx.
  - intros x y z. apply lt_trans.
Qed.

Lemma strictly_sorted_NoDup l : StronglySorted before l -> NoDup l.
Proof.
  induction 1 as [|x l Hs IH Hall]; constructor; [|done].
  intros Hin. rewrite Forall_forall in Hall.
  by apply (irreflexivity before x), Hall.
Qed.

(** Two strictly increasing lists with the same members are the same list. *)
Lemma strictly_sorted_unique l1 l2 :
  StronglySorted before l1 -> StronglySorted before l2 ->
  (forall x, x ∈ l1 <-> x ∈ l2) -> l1 = l2.
Proof.
  intros H1 H2 Hiff. apply (StronglySorted_unique_strong before); [|done|done|].
  - intros x y _ _ Hxy Hyx. destruct (irreflexivity before x). by transitivity y.
  - apply NoDup_Permutation; [by apply strictly_sorted_NoDup..|done].
Qed.
End total.
End sorting_facts.

(** ** The registries *)

Lemma accepted_instances {T} (xs : list T) (rest : list (pyobj T)) :
  accepted ((Instance <$> xs) ++ rest) = xs ++ accepted rest.
Proof. induction xs as [|x xs IH]; csimpl; [done|by rewrite IH]. Qed.

Lemma instances_of_instances {T} (xs : list T) : instances (Instance <$> xs) = xs.
Proof. unfold instances. induction xs as [|x xs IH]; csimpl; [done|by rewrite IH]. Qed.

Section registries.
Context {System Controller Disturbance Observable : Type}.
Context `{Ordered Disturbance, Ordered Observable}.
Implicit Types e : Experiment System Controller Disturbance Observable.

(** What a call of [add_observables] does, whether it returns or raises. *)
Lemma add_observables_run (args : list (pyobj Observable)) e :
  exists l,
    add_observables args e
    = (match first_foreign args with
       | None => Returned tt
       | Some r => Raised (not_an_observable r)
       end, with_observables l e)
    /\ l ≡ₚ accepted args ++ observables e.
Proof.
  revert e. induction args as [|[o|r] args IH]; intros e.
  - exists (observables e). split; [by destruct e|done].
  - destruct (insort_total (observables e) o) as (l1 & Hins & Hperm).
    destruct (IH (with_observables l1 e)) as (l & Hrun & Hl).
    exists l. split.
    + unfold add_observables in *. cbn [for_each add_observable]. unfold andthen.
      rewrite Hins. unfold assign. rewrite Hrun. by destruct e.
    + rewrite Hl. assert (observables (with_observables l1 e) = l1) as -> by by destruct e.
      rewrite Hperm. simpl. by rewrite Permutation_middle.
  - exists (observables e). split; [by destruct e|done].
Qed.

(** C10: when the argument after [pre] is not an observable, the call
    raises, and it leaves the registry exactly as the call with the
    arguments [pre] alone leaves it, which returns: every one of [pre] is in
    the registry, next to what was there before. *)
Theorem add_observables_not_atomic (pre : list Observable) (bad : string)
    (post : list (pyobj Observable)) e :
  exists e',
    add_observables (Instance <$> pre) e = (Returned tt, e')
    /\ add_observables ((Instance <$> pre) ++ Foreign bad :: post) e
       = (Raised (not_an_observable bad), e')
    /\ (forall x, x ∈ pre -> x ∈ observables e')
    /\ observables e' ≡ₚ pre ++ observables e.
Proof.
  assert (Hsplit : forall xs e0,
    add_observables ((Instance <$> xs) ++ Foreign bad :: post) e0
    = (Raised (not_an_observable bad), (add_observables (Instance <$> xs) e0).2)
    /\ (add_observables (Instance <$> xs) e0).1 = Returned tt).
  { unfold add_observables. induction xs as [|x xs IH]; intros e0; [done|].
    rewrite fmap_cons. cbn [app for_each]. unfold andthen.
    destruct (add_observable (Instance x) e0) as [[[]|err] e1] eqn:Hone.
    - apply IH.
    - exfalso. unfold add_observable in Hone.
      destruct (insort_total (observables e0) x) as (l & Hins & _).
      rewrite Hins in Hone. discriminate. }
  destruct (Hsplit pre e) as [Hbad Hgood].
  destruct (add_observables_run (Instance <$> pre) e) as (l & Hrun & Hl).
  rewrite <- (app_nil_r (Instance <$> pre)), accepted_instances in Hl.
  simpl in Hl. rewrite app_nil_r in Hl.
  rewrite Hrun in Hgood, Hbad. simpl in Hgood, Hbad.
  exists (with_observables l e). rewrite Hbad, Hrun, Hgood.
  assert (observables (with_observables l e) = l) as -> by by destruct e.
  split; [done|]. split; [done|]. split; [|done].
  intros x Hx. rewrite Hl. apply elem_of_app. by left.
Qed.

Lemma add_all_observables calls e x :
  x ∈ observables (add_all calls e) <-> ever_added calls e x.
Proof.
  unfold ever_added. revert e. induction calls as [|args calls IH]; intros e.
  - simpl. split; [by left|]. intros [Hx|(args & Hin & _)]; [done|].
    by apply elem_of_nil in Hin.
  - simpl. fold (add_all calls (add_observables args e).2). rewrite IH.
    destruct (add_observables_run args e) as (l & -> & Hl). simpl.
    assert (observables (with_observables l e) = l) as -> by by destruct e.
    rewrite Hl, elem_of_app. split.
    + intros [[Hx|Hx]|(args' & Hin & Hx)]; [right|by left|right].
      * exists args. split; [apply list_elem_of_here|done].
      * exists args'. split; [by apply list_elem_of_further|done].
    + intros [Hx|(args' & Hin & Hx)]; [by left; right|].
      apply elem_of_cons in Hin as [->|Hin]; [by left; left|].
      right. by exists args'.
Qed.

End registries.

Section observables_text.
Context {System Controller Disturbance Observable : Type}.
Context `{Ordered Observable, Printable Observable}.
Context `{EqDecision Observable, Countable Observable}.
Context `{!StrictTotal Observable}.
Implicit Types e : Experiment System Controller Disturbance Observable.

(** The text is that of the strictly increasing list of the registry's
    members. *)
Lemma get_observables_str_spec e :
  exists l, StronglySorted before l
    /\ (forall x, x ∈ l <-> x ∈ observables e)
    /\ get_observables_str e = observable_lines l.
Proof.
  exists (sorted py_lt (elements (list_to_set (observables e) : gset Observable))).
  split; [apply sorted_strict, NoDup_elements|]. split; [|done].
  intros x. by rewrite sorted_perm, elem_of_elements, elem_of_list_to_set.
Qed.

(** C1: after any calls of [add_observables], the text of
    [get_observables_str] is the one-per-line print of the strictly
    increasing (so duplicate-free) list whose members are the observables
    ever added; two histories that add the same set give the same text. *)
Theorem get_observables_str_canonical (calls : list (list (pyobj Observable))) e :
  exists l, StronglySorted before l
    /\ NoDup l
    /\ (forall x, x ∈ l <-> ever_added calls e x)
    /\ get_observables_str (add_all calls e) = observable_lines l
    /\ forall (calls' : list (list (pyobj Observable))) e',
         (forall x, ever_added calls' e' x <-> ever_added calls e x) ->
         get_observables_str (add_all calls' e') = get_observables_str (add_all calls e).
Proof.
  destruct (get_observables_str_spec (add_all calls e)) as (l & Hsorted & Hmem & Htext).
  exists l. split; [done|]. split; [by apply strictly_sorted_NoDup|].
  split; [intros x; by rewrite Hmem, add_all_observables|]. split; [done|].
  intros calls' e' Hsame.
  destruct (get_observables_str_spec (add_all calls' e')) as (l' & Hsorted' & Hmem' & ->).
  rewrite Htext. f_equal. apply strictly_sorted_unique; [done..|].
  intros x. by rewrite Hmem, Hmem', !add_all_observables.
Qed.

End observables_text.

Section disturbance_batches.
Context {System Controller Disturbance Observable : Type}.
Context `{Ordered Disturbance}.
Context `{!StrictWeak Disturbance}.
Implicit Types e : Experiment System Controller Disturbance Observable.

Lemma check_disturbances_pass (ds : list Disturbance) e :
  for_each (Instance <$> ds) check_disturbance e = (Returned tt, e).
Proof.
  induction ds as [|d ds IH]; [done|]. rewrite fmap_cons.
  cbn [for_each check_disturbance]. unfold andthen, mreturn. exact IH.
Qed.

Lemma add_disturbances_run tag (ds : list Disturbance) e :
  String.length tag <= 10 ->
  add_disturbances tag (Instance <$> ds) e
  = (Returned tt, with_disturbances (disturbances e ++ [(tag, sorted py_lt ds)]) e).
Proof.
  intros Htag. unfold add_disturbances, andthen. rewrite decide_False by lia.
  by rewrite check_disturbances_pass, instances_of_instances.
Qed.

(** C5: a call whose arguments pass the checks returns and appends one
    batch at the end of the list, made of the tag and of the arguments in
    sorted order (a permutation of them in which no element comes after a
    later one); a sequence of such calls leaves the batches in the order of
    the calls. *)
Theorem add_disturbances_sorted_batch tag (ds : list Disturbance)
    (batches : list (string * list Disturbance)) e :
  String.length tag <= 10 ->
  Forall (fun b => String.length b.1 <= 10) batches ->
  add_disturbances tag (Instance <$> ds) e
  = (Returned tt, with_disturbances (disturbances e ++ [(tag, sorted py_lt ds)]) e)
  /\ Sorted not_after (sorted py_lt ds)
  /\ sorted py_lt ds ≡ₚ ds
  /\ disturbances (add_batches batches e)
     = disturbances e ++ ((fun b => (b.1, sorted py_lt b.2)) <$> batches).
Proof.
  intros Htag Hbatches. split; [by apply add_disturbances_run|].
  split; [apply sorted_sorted|]. split; [apply sorted_perm|].
  revert e. induction Hbatches as [|[t b] batches Ht _ IH]; intros e.
  - simpl. by rewrite app_nil_r.
  - simpl. fold (add_batches batches (add_disturbances t (Instance <$> b) e).2).
    rewrite IH, add_disturbances_run by done. simpl.
    assert (forall v, disturbances (with_disturbances v e) = v) as -> by by destruct e.
    by rewrite <- app_assoc.
Qed.

End disturbance_batches.

(** The demonstration orders obey the laws. *)
#[global] Instance bus_total : StrictTotal nat.
Proof.
  split; [split|]; unfold py_lt, Demo.bus_lt.
  - intros x. apply Nat.ltb_irrefl.
  - intros x y z. rewrite !Nat.ltb_lt. lia.
  - intros x y z. rewrite !Nat.ltb_ge. lia.
  - intros x y. rewrite !Nat.ltb_ge. lia.
Qed.

#[global] Instance disturbance_weak : StrictWeak Demo.disturbance.
Proof.
  split; unfold py_lt, Demo.disturbance_lt.
  - intros x. apply Nat.ltb_irrefl.
  - intros x y z. rewrite !Nat.ltb_lt. lia.
  - intros x y z. rewrite !Nat.ltb_ge. lia.
Qed.

Lemma get_observables_str_canonical_witness :
  get_observables_str (add_all Demo.second_history (Demo.fresh false))
  = get_observables_str (add_all Demo.first_history (Demo.fresh false))
  /\ get_observables_str (add_all Demo.first_history (Demo.fresh false))
     = "BUS 3" +:+ nl +:+ "BUS 4" +:+ nl +:+ "BUS 5" +:+ nl.
Proof.
  split; [|by vm_compute].
  destruct (get_observables_str_canonical (System := unit) (Controller := unit)
              (Disturbance := Demo.disturbance) Demo.first_history (Demo.fresh false))
    as (l & _ & _ & _ & _ & Hsame).
  apply Hsame. intros x. rewrite <- !add_all_observables.
  change (x ∈ [3; 4; 5] <-> x ∈ [3; 4; 5; 5]).
  rewrite !elem_of_cons. tauto.
Defined.

Lemma add_disturbances_sorted_batch_witness :
  add_disturbances "fault"
    (Instance <$> [(3, "FAULT BUS 4032"); (1, "BREAKER OPEN"); (3, "CLEAR BUS 4032")])
    (Demo.fresh false)
  = (Returned tt,
     with_disturbances
       [("fault", [(1, "BREAKER OPEN"); (3, "FAULT BUS 4032"); (3, "CLEAR BUS 4032")])]
       (Demo.fresh false))
  /\ (disturbances (add_batches [("late", [(9, "TRIP")]); ("early", [(2, "TRIP")])]
                      (Demo.fresh false))).*1
     = ["late"; "early"].
Proof.
  destruct (add_disturbances_sorted_batch (System := unit) (Controller := unit)
              (Observable := nat) "fault"
              [(3, "FAULT BUS 4032"); (1, "BREAKER OPEN"); (3, "CLEAR BUS 4032")]
              [("late", [(9, "TRIP")]); ("early", [(2, "TRIP")])] (Demo.fresh false))
    as (Hrun & _ & _ & Horder); [by_evaluation|by_evaluation|].
  split; [exact Hrun|]. rewrite Horder. reflexivity.
Defined.

(** ** The settings file *)

Lemma max_of_nonempty n ns : max_of (n :: ns) = Returned (max_list (n :: ns)).
Proof.
  unfold max_of. f_equal. revert n. induction ns as [|m ns IH]; intros n; simpl.
  - lia.
  - rewrite IH. simpl. lia.
Qed.

Lemma max_of_lengths {A} (f : A -> nat) (l : list A) :
  l <> [] -> max_of (f <$> l) = Returned (max_list (f <$> l)).
Proof. destruct l; [done|]. intros _. rewrite fmap_cons. apply max_of_nonempty. Qed.

Lemma mapM_outcome_Forall2 {A B} (f : A -> outcome B) l ks :
  mapM f l = Returned ks <-> Forall2 (fun x y => f x = Returned y) l ks.
Proof.
  revert ks. induction l as [|x l IH]; intros ks; simpl.
  - split; [intros [= <-]; constructor|by inversion 1].
  - destruct (f x) as [y|err] eqn:Hx; simpl.
    + destruct (mapM f l) as [k|err] eqn:Hl; simpl.
      * split.
        -- intros [= <-]. constructor; [done|by apply IH].
        -- inversion 1 as [|? y' ? k' Hy Hk]; subst. rewrite Hx in Hy.
           apply IH in Hk. by simplify_eq.
      * split; [done|]. inversion 1 as [|? y' ? k' Hy Hk]; subst.
        apply IH in Hk. done.
    + split; [done|]. inversion 1 as [|? y' ? k' Hy Hk]; subst. by rewrite Hx in Hy.
Qed.

Lemma exponent_free_join parts :
  Forall (fun p => exponent_free p = true) parts ->
  exponent_free (join " " parts) = true.
Proof.
  induction 1 as [|p parts Hp Hparts IH]; [done|].
  destruct parts as [|q parts]; [done|].
  change (join " " (p :: q :: parts)) with (p +:+ " " +:+ join " " (q :: parts)).
  by rewrite !exponent_free_app, Hp, IH.
Qed.

Section settings_text.
Context `{NumpyFormat}.

Lemma np_format_outcome x :
  np_format x = match refusal x with
                | Some err => Raised err
                | None => match x with
                          | Num n => Returned (format_float_positional n)
                          | Str s => Returned s
                          end
                end.
Proof.
  destruct x as [s|[z|f]]; [done| |done]. unfold np_format, refusal, in_range.
  by destruct (fits_binary64 z).
Qed.

Lemma mapM_np_format_numbers (xs : list scalar) (ns : list number) (parts : list string) :
  mapM as_number xs = Some ns -> mapM np_format xs = Returned parts ->
  parts = format_float_positional <$> ns.
Proof.
  revert ns parts. induction xs as [|x xs IH]; intros ns parts Hns Hparts.
  { injection Hns as <-. by injection Hparts as <-. }
  cbn [mapM] in Hns, Hparts.
  destruct x as [s|n]; [done|]. cbn [as_number mbind option_bind] in Hns.
  destruct (mapM as_number xs) as [ns'|] eqn:Hns'; [|done].
  cbn in Hns. injection Hns as <-.
  rewrite np_format_outcome in Hparts.
  destruct (refusal (Num n)); [done|]. cbn [mbind outcome_bind] in Hparts.
  destruct (mapM np_format xs) as [parts'|] eqn:Hparts'; [|done].
  cbn in Hparts. injection Hparts as <-. by rewrite (IH ns' parts').
Qed.

(** The text of a numeric value, when there is one: the prints of its
    numbers, joined. *)
Lemma val2str_numeric v ns t :
  numbers_of v = Some ns -> val2str v = Returned t ->
  t = join " " (format_float_positional <$> ns).
Proof.
  destruct v as [[s|n]|xs]; cbn [numbers_of val2str]; [done| |].
  - intros [= <-]. rewrite np_format_outcome. by destruct (refusal (Num n)); intros [= <-].
  - intros Hns Ht. destruct (mapM np_format xs) as [parts|] eqn:Hparts; [|done].
    cbn in Ht. injection Ht as <-. by rewrite (mapM_np_format_numbers xs ns parts).
Qed.

Lemma mapM_np_format_outcome (xs : list scalar) :
  match head (omap refusal xs) with
  | Some err => mapM np_format xs = Raised err
  | None => exists parts, mapM np_format xs = Returned parts
  end.
Proof.
  induction xs as [|x xs IH]; [by eexists|]. cbn [mapM omap list_omap].
  rewrite np_format_outcome. destruct (refusal x) as [err|] eqn:Hx; [done|].
  destruct x as [s|n]; [done|].
  cbn [mbind outcome_bind]. destruct (head (omap refusal xs)) as [err|].
  - by rewrite IH.
  - destruct IH as [parts ->]. by eexists.
Qed.

Lemma val2str_outcome v :
  match val2str_error v with
  | Some err => val2str v = Raised err
  | None => exists t, val2str v = Returned t
  end.
Proof.
  destruct v as [[s|n]|xs]; cbn [val2str val2str_error].
  - by eexists.
  - rewrite np_format_outcome. destruct (refusal (Num n)); [done|by eexists].
  - pose proof (mapM_np_format_outcome xs) as Hxs.
    destruct (head (omap refusal xs)) as [err|]; [by rewrite Hxs|].
    destruct Hxs as [parts ->]. by eexists.
Qed.

Lemma mapM_val2str_outcome (vs : list setting_value) :
  match first_error vs with
  | Some err => mapM val2str vs = Raised err
  | None => exists texts, Forall2 (fun v t => val2str v = Returned t) vs texts
  end.
Proof.
  unfold first_error. induction vs as [|v vs IH]; [by eexists|].
  cbn [mapM omap list_omap]. pose proof (val2str_outcome v) as Hv.
  destruct (val2str_error v) as [err|]; [by rewrite Hv|].
  destruct Hv as [t Ht]. rewrite Ht. cbn [mbind outcome_bind].
  destruct (head (omap val2str_error vs)) as [err|].
  - by rewrite IH.
  - destruct IH as [texts IH]. exists (t :: texts). by constructor.
Qed.

Section layout.
Context {System Controller Disturbance Observable : Type}.
Implicit Types e : Experiment System Controller Disturbance Observable.

Lemma setting_lines_run (d : dict setting_value) texts sw vw :
  Forall2 (fun v t => val2str v = Returned t) (values d) texts ->
  mapM (fun item : string * setting_value =>
          text ← val2str item.2; mret (setting_line sw vw item.1 text)) d
  = Returned (zip_with (directive sw vw) (keys d) texts).
Proof.
  unfold values, keys. revert texts.
  induction d as [|[k v] d IH]; intros texts Htexts.
  - by inversion Htexts.
  - rewrite fmap_cons in Htexts. inversion Htexts as [|? t ? ts Ht Hts]; subst.
    cbn [mapM snd fst]. rewrite Ht. cbn [mbind outcome_bind].
    rewrite (IH ts Hts). done.
Qed.

(** What [get_settings_str] writes when it returns. *)
Lemma get_settings_str_inv e text :
  get_settings_str e = Returned text ->
  exists texts,
    Forall2 (fun v t => val2str v = Returned t) (values (settings e)) texts
    /\ settings e <> []
    /\ text = settings_header
              +:+ foldr String.app ""
                    (zip_with (directive (name_width (settings e)) (value_width texts))
                              (keys (settings e)) texts).
Proof.
  unfold get_settings_str, name_width, value_width. intros Hrun.
  assert (Hne : settings e <> []).
  { intros Hnil. by rewrite Hnil in Hrun. }
  assert (Hkeys : keys (settings e) <> []).
  { unfold keys. by destruct (settings e). }
  rewrite (max_of_lengths _ _ Hkeys) in Hrun. cbn [mbind outcome_bind] in Hrun.
  destruct (mapM val2str (values (settings e))) as [texts|err] eqn:Htexts; [|done].
  apply mapM_outcome_Forall2 in Htexts. cbn [mbind outcome_bind] in Hrun.
  assert (Htne : texts <> []).
  { intros ->. apply Forall2_nil_inv_r in Htexts. unfold values in Htexts.
    by destruct (settings e). }
  rewrite (max_of_lengths _ _ Htne) in Hrun. cbn [mbind outcome_bind] in Hrun.
  rewrite (setting_lines_run _ _ _ _ Htexts) in Hrun.
  cbn [mbind outcome_bind mret outcome_ret] in Hrun.
  injection Hrun as <-. by exists texts.
Qed.

(** It returns whenever there is a setting and no value is refused, and
    raises the first refusal otherwise. *)
Lemma get_settings_str_outcome e :
  settings e <> [] ->
  match first_error (values (settings e)) with
  | Some err => get_settings_str e = Raised err
  | None => exists text, get_settings_str e = Returned text
  end.
Proof.
  intros Hne. unfold get_settings_str.
  assert (Hkeys : keys (settings e) <> []).
  { unfold keys. by destruct (settings e). }
  rewrite (max_of_lengths _ _ Hkeys). cbn [mbind outcome_bind].
  pose proof (mapM_val2str_outcome (values (settings e))) as Hvals.
  destruct (first_error (values (settings e))) as [err|]; [by rewrite Hvals|].
  destruct Hvals as [texts Htexts].
  pose proof (proj2 (mapM_outcome_Forall2 _ _ _) Htexts) as ->.
  cbn [mbind outcome_bind].
  assert (Htne : texts <> []).
  { intros ->. apply Forall2_nil_inv_r in Htexts. unfold values in Htexts.
    by destruct (settings e). }
  rewrite (max_of_lengths _ _ Htne). cbn [mbind outcome_bind].
  rewrite (setting_lines_run _ _ _ _ Htexts). by eexists.
Qed.
End layout.
End settings_text.

(** ** The print of [np.format_float_positional] *)

Lemma split_at_piece sep (p : string) :
  forallb (fun c => negb (Ascii.eqb c sep)) (String.list_ascii_of_string p) = true ->
  split_at sep p = [p].
Proof.
  induction p as [|c p IH]; [done|]. cbn [String.list_ascii_of_string forallb split_at].
  intros [Hc Hp]%andb_prop. destruct (Ascii.eqb c sep); [done|]. by rewrite IH.
Qed.

Lemma split_at_app sep (p q : string) :
  forallb (fun c => negb (Ascii.eqb c sep)) (String.list_ascii_of_string p) = true ->
  split_at sep (p +:+ String sep q) = p :: split_at sep q.
Proof.
  induction p as [|c p IH]; simpl.
  - intros _. by rewrite Ascii.eqb_refl.
  - intros [Hc Hp]%andb_prop. destruct (Ascii.eqb c sep); [done|]. by rewrite IH.
Qed.

(** Splitting at the spaces undoes joining with spaces, for parts that
    hold no space. *)
Lemma split_at_join (parts : list string) :
  parts <> [] ->
  Forall (fun p => forallb (fun c => negb (Ascii.eqb c " "))
                     (String.list_ascii_of_string p) = true) parts ->
  split_at " " (join " " parts) = parts.
Proof.
  intros Hne Hparts. induction Hparts as [|p parts Hp Hparts IH]; [done|].
  destruct parts as [|q parts]; [by apply split_at_piece|].
  change (join " " (p :: q :: parts)) with (p +:+ String " " (join " " (q :: parts))).
  rewrite split_at_app by done. by rewrite IH.
Qed.

Module NumpyFacts.
Import Numpy.

(** The invariant of the digit loop: the next digit is one of [0..9]. *)
Definition one_digit (s : scaled) : Prop :=
  (0 < scale s /\ 0 <= value s < 10 * scale s)%Z.

Definition decimal (d : Z) : Prop := (0 <= d <= 9)%Z.

Lemma scale_mantissa_positive m e :
  (0 < scale (scale_mantissa m e) /\ 0 < value (scale_mantissa m e))%Z.
Proof.
  unfold scale_mantissa.
  destruct (has_unequal_margins m e), (Z.ltb_spec 0 e); cbn [scale value];
    split; try lia; try (apply Z.pow_pos_nonneg; lia);
    assert (0 < 2 ^ e)%Z by (apply Z.pow_pos_nonneg; lia); nia.
Qed.

Lemma scale_up_one_digit fuel s k :
  one_digit s -> one_digit (scale_up fuel s k).1.
Proof.
  revert s k. induction fuel as [|fuel IH]; intros s k Hs; [done|].
  cbn [scale_up]. destruct (Z.ltb_spec (value s) (scale s)); [|done].
  apply IH. unfold one_digit in *. cbn [scale value]. lia.
Qed.

Lemma scale_down_one_digit fuel s k :
  (0 < scale s)%Z -> (0 <= value s < 10 * 2 ^ Z.of_nat fuel * scale s)%Z ->
  one_digit (scale_down fuel s k).1.
Proof.
  revert s k. induction fuel as [|fuel IH]; intros s k Hs Hv.
  - cbn [scale_down fst]. split; [done|]. change (2 ^ Z.of_nat 0)%Z with 1%Z in Hv. lia.
  - cbn [scale_down]. destruct (Z.leb_spec (10 * scale s) (value s)).
    + apply IH; cbn [scale value]; [lia|].
      rewrite Nat2Z.inj_succ, Z.pow_succ_r in Hv by lia.
      assert (0 < 2 ^ Z.of_nat fuel)%Z by (apply Z.pow_pos_nonneg; lia). nia.
    + cbn [fst]. split; [done|lia].
Qed.

Lemma first_digit_one_digit s :
  (0 < scale s)%Z -> (0 < value s)%Z -> one_digit (first_digit s).1.
Proof.
  intros Hs Hv. unfold first_digit. destruct (Z.ltb_spec (value s) (scale s)).
  - apply scale_up_one_digit. split; [done|lia].
  - apply scale_down_one_digit; [done|].
    rewrite Nat2Z.inj_succ, Z2Nat.id by apply Z.log2_nonneg.
    pose proof (Z.log2_spec (value s) Hv) as [_ Hlog].
    rewrite Z.pow_succ_r in * by apply Z.log2_nonneg. nia.
Qed.

Lemma carry_decimal printed :
  Forall decimal printed ->
  Forall decimal (carry printed).1 /\ (carry printed).1 <> [].
Proof.
  induction 1 as [|d before Hd Hbefore IH]; cbn [carry].
  - split; [|done]. repeat constructor; unfold decimal; lia.
  - destruct (Z.eqb_spec d 9); [done|]. cbn [fst]. split.
    + apply Forall_rev. constructor; [|done]. unfold decimal in *. lia.
    + intros Hnil%(f_equal length). rewrite length_rev in Hnil. done.
Qed.

Lemma quotient_decimal s : one_digit s -> decimal (value s / scale s).
Proof.
  intros (Hs & Hv0 & Hv). split.
  - apply Z.div_pos; lia.
  - assert (value s / scale s < 10)%Z; [|lia].
    apply Z.div_lt_upper_bound; lia.
Qed.

Lemma round_off_decimal low high s printed :
  one_digit s -> Forall decimal printed ->
  Forall decimal (round_off low high s printed).1
  /\ (round_off low high s printed).1 <> [].
Proof.
  intros Hs Hprinted. pose proof (quotient_decimal s Hs) as Hd.
  unfold round_off.
  assert (Hrev : forall d, decimal d ->
            Forall decimal (rev (d :: printed)) /\ rev (d :: printed) <> []).
  { intros d Hdec. split; [apply Forall_rev; by constructor|].
    intros Hnil%(f_equal length). rewrite length_rev in Hnil. done. }
  match goal with |- context [if ?b then _ else _] => destruct b end.
  - by apply Hrev.
  - destruct (Z.eqb_spec (value s / scale s) 9); [by apply carry_decimal|].
    apply Hrev. unfold decimal in *. lia.
Qed.

Lemma generate_decimal fuel even s printed :
  one_digit s -> Forall decimal printed ->
  Forall decimal (generate fuel even s printed).1
  /\ (generate fuel even s printed).1 <> [].
Proof.
  revert s printed. induction fuel as [|fuel IH]; intros s printed Hs Hprinted.
  - by apply round_off_decimal.
  - cbn [generate].
    match goal with |- context [if ?b then _ else _] => destruct b end.
    + by apply round_off_decimal.
    + apply IH.
      * destruct Hs as (Hs & Hv0 & Hv). split; cbn [scale value]; [done|].
        pose proof (Z.mod_pos_bound (value s) (scale s) Hs). lia.
      * constructor; [|done]. by apply quotient_decimal.
Qed.

Lemma dragon4_decimal m e :
  Forall decimal (dragon4 m e).1 /\ (dragon4 m e).1 <> [].
Proof.
  unfold dragon4.
  pose proof (scale_mantissa_positive m e) as [Hs Hv].
  pose proof (first_digit_one_digit _ Hs Hv) as Hone.
  destruct (first_digit (scale_mantissa m e)) as [s k]. cbn [fst] in Hone.
  pose proof (generate_decimal buffer_size (Z.even (Z.pos m)) s [] Hone (Forall_nil_2 _)) as Hgen.
  by destruct (generate buffer_size (Z.even (Z.pos m)) s []) as [digits carried].
Qed.

Lemma digit_char_is_digit d : decimal d -> is_digit (digit_char d) = true.
Proof.
  intros [H0 H9]. unfold is_digit, digit_char.
  assert (Hn : (Z.to_N d <= 9)%N) by lia.
  rewrite N_ascii_embedding by lia. apply andb_true_intro. split; apply N.leb_le; lia.
Qed.

(** A whole part that is not empty, the point, the fraction. *)
Definition numeral (cs : list ascii) : Prop :=
  exists whole fraction,
    cs = whole ++ "."%char :: fraction /\ whole <> []
    /\ Forall (fun c => is_digit c = true) whole
    /\ Forall (fun c => is_digit c = true) fraction.

Lemma format_positional_numeral digits k :
  Forall decimal digits -> digits <> [] ->
  numeral (String.list_ascii_of_string (format_positional digits k)).
Proof.
  intros Hdec Hne. unfold format_positional.
  rewrite String.list_ascii_of_string_of_list_ascii.
  assert (Hchars : Forall (fun c => is_digit c = true) (digit_char <$> digits)).
  { apply Forall_fmap. eapply Forall_impl; [exact Hdec|]. apply digit_char_is_digit. }
  assert (Hzeros : forall n, Forall (fun c => is_digit c = true) (replicate n "0"%char)).
  { intros n. by apply Forall_replicate. }
  destruct (Z.leb_spec 0 k).
  - eexists (take _ _ ++ replicate _ _), (drop _ _). split; [by rewrite <- app_assoc|].
    split; [|split].
    + intros Hnil%(f_equal length). rewrite length_app, length_take, length_replicate,
        length_fmap in Hnil. destruct digits; [done|]. cbn [length] in Hnil. lia.
    + apply Forall_app. split; [by apply Forall_take|done].
    + by apply Forall_drop.
  - exists ["0"%char], (replicate (Z.to_nat (- (k + 1))) "0"%char ++ (digit_char <$> digits)).
    split; [done|]. split; [done|]. split; [by repeat constructor|].
    apply Forall_app. by split.
Qed.

Lemma digits_point_digits_numeral seen whole fraction :
  Forall (fun c => is_digit c = true) whole ->
  Forall (fun c => is_digit c = true) fraction ->
  digits_point_digits seen (whole ++ "."%char :: fraction)
  = seen || bool_decide (whole <> []).
Proof.
  intros Hwhole Hfraction. revert seen.
  induction Hwhole as [|c whole Hc Hwhole IH]; intros seen.
  - cbn. rewrite orb_false_r. destruct seen; [|done]. cbn.
    apply forallb_forall. intros c Hc%list_elem_of_In.
    rewrite Forall_forall in Hfraction. by apply Hfraction.
  - cbn [app digits_point_digits]. rewrite Hc, IH. cbn. by rewrite orb_true_r.
Qed.

Lemma numeral_fixed_point (sign : bool) body :
  numeral (String.list_ascii_of_string body) ->
  fixed_point ((if sign then "-" else "") +:+ body) = true.
Proof.
  intros (whole & fraction & Hbody & Hne & Hwhole & Hfraction).
  assert (Hrun : digits_point_digits false (String.list_ascii_of_string body) = true).
  { rewrite Hbody, digits_point_digits_numeral by done. by rewrite bool_decide_eq_true_2. }
  unfold fixed_point. destruct sign.
  { change ("-" +:+ body) with (String "-" body). done. }
  change ("" +:+ body) with body. rewrite Hbody in *. destruct whole as [|c whole]; [done|].
  cbn [app] in *. inversion Hwhole as [|? ? Hc _]; subst.
  destruct c as [[] [] [] [] [] [] [] []]; first [discriminate Hc|exact Hrun].
Qed.

(** The characters of a print. *)
Definition print_chars : list ascii :=
  String.list_ascii_of_string "0123456789.-infa".

Lemma is_digit_print_char c : is_digit c = true -> c ∈ print_chars.
Proof.
  destruct c as [[] [] [] [] [] [] [] []]; try done; intros _; by_evaluation.
Qed.

Lemma numeral_print_chars (sign : bool) body :
  numeral (String.list_ascii_of_string body) ->
  Forall (fun c => c ∈ print_chars)
    (String.list_ascii_of_string ((if sign then "-" else "") +:+ body)).
Proof.
  intros (whole & fraction & Hbody & _ & Hwhole & Hfraction).
  rewrite list_ascii_of_string_app, Hbody. apply Forall_app. split.
  - destruct sign; [|done]. constructor; [by_evaluation|done].
  - apply Forall_app. split; [|constructor; [by_evaluation|]];
      (eapply Forall_impl; [eassumption|apply is_digit_print_char]).
Qed.

Lemma zero_numeral : numeral (String.list_ascii_of_string (format_positional [0%Z] 0)).
Proof. apply format_positional_numeral; [|done]. repeat constructor; unfold decimal; lia. Qed.

Lemma finite_numeral m e :
  numeral (String.list_ascii_of_string (format_positional (dragon4 m e).1 (dragon4 m e).2)).
Proof. destruct (dragon4_decimal m e). by apply format_positional_numeral. Qed.

(** A finite number is printed in fixed-point decimal; the others as
    [inf], [-inf] and [nan]. *)
Lemma format_float_positional_shape n :
  if is_finite n then fixed_point (format_float_positional n) = true
  else format_float_positional n ∈ ["inf"; "-inf"; "nan"].
Proof.
  unfold is_finite, format_float_positional, dragon4_positional.
  destruct (as_double n) as [s|s| |s m e].
  - apply numeral_fixed_point, zero_numeral.
  - destruct s; by_evaluation.
  - by_evaluation.
  - pose proof (finite_numeral m e) as Hnum. destruct (dragon4 m e) as [digits k].
    by apply numeral_fixed_point.
Qed.

Lemma format_float_positional_chars n :
  Forall (fun c => c ∈ print_chars)
    (String.list_ascii_of_string (format_float_positional n)).
Proof.
  unfold format_float_positional, dragon4_positional.
  destruct (as_double n) as [s|s| |s m e].
  - apply numeral_print_chars, zero_numeral.
  - destruct s; by_evaluation.
  - by_evaluation.
  - pose proof (finite_numeral m e) as Hnum. destruct (dragon4 m e) as [digits k].
    by apply numeral_print_chars.
Qed.

Lemma print_chars_avoid (P : ascii -> bool) s :
  forallb P print_chars = true ->
  Forall (fun c => c ∈ print_chars) (String.list_ascii_of_string s) ->
  forallb P (String.list_ascii_of_string s) = true.
Proof.
  intros HP Hs. apply forallb_forall. intros c Hc%list_elem_of_In.
  rewrite Forall_forall in Hs. specialize (Hs c Hc).
  rewrite forallb_forall in HP. by apply HP, list_elem_of_In.
Qed.

Lemma format_float_positional_exponent_free n :
  exponent_free (format_float_positional n) = true.
Proof.
  apply print_chars_avoid; [done|apply format_float_positional_chars].
Qed.

Lemma format_float_positional_space_free n :
  forallb (fun c => negb (Ascii.eqb c " "))
    (String.list_ascii_of_string (format_float_positional n)) = true.
Proof.
  apply print_chars_avoid; [done|apply format_float_positional_chars].
Qed.
End NumpyFacts.

(** C4, amended: with [np.format_float_positional] as numpy implements
    it, whenever [get_settings_str] returns, the line of every numeric
    setting (a number, or a tuple of numbers) carries a value whose column
    holds no [e] and no [E]; the value of an empty tuple is empty, and
    otherwise the pieces of the value between its spaces are the prints of
    the setting's numbers, in their order; the print of a finite number is
    in fixed-point decimal (an optional minus, digits, a point, digits), the
    print of another one is [inf], [-inf] or [nan]. *)
Theorem numeric_settings_fixed_point {System Controller Disturbance Observable}
    (e : Experiment System Controller Disturbance Observable) text :
  get_settings_str (H := Numpy.format) e = Returned text ->
  exists lines sw vw,
    text = settings_header +:+ foldr String.app "" lines
    /\ forall i k v ns,
         settings e !! i = Some (k, v) -> numbers_of v = Some ns ->
         exists value,
           lines !! i = Some (directive sw vw k value)
           /\ exponent_free (ljust value vw) = true
           /\ (ns = [] -> value = "")
           /\ (ns <> [] -> split_at " " value = Numpy.format_float_positional <$> ns)
           /\ Forall (fun n =>
                        if Numpy.is_finite n
                        then fixed_point (Numpy.format_float_positional n) = true
                        else Numpy.format_float_positional n ∈ ["inf"; "-inf"; "nan"])
                     ns.
Proof.
  intros Hrun. destruct (get_settings_str_inv _ _ Hrun) as (texts & Htexts & _ & ->).
  eexists _, _, _. split; [done|].
  intros i k v ns Hi Hns. unfold dict in Hi.
  exists (join " " (Numpy.format_float_positional <$> ns)).
  assert (values (settings e) !! i = Some v) as Hvi.
  { unfold values. by rewrite list_lookup_fmap, Hi. }
  destruct (Forall2_lookup_l _ _ _ _ _ Htexts Hvi) as (t & Hti & Ht).
  pose proof (val2str_numeric (H := Numpy.format) v ns t Hns Ht) as ->.
  split; [|split; [|split; [|split]]].
  - rewrite lookup_zip_with. unfold keys. by rewrite list_lookup_fmap, Hi, Hti.
  - rewrite exponent_free_ljust. apply exponent_free_join, Forall_fmap, Forall_forall.
    intros n _. apply NumpyFacts.format_float_positional_exponent_free.
  - by intros ->.
  - intros Hne. apply split_at_join; [by destruct ns|].
    apply Forall_fmap, Forall_forall. intros n _.
    apply NumpyFacts.format_float_positional_space_free.
  - apply Forall_forall. intros n _. apply NumpyFacts.format_float_positional_shape.
Qed.

Lemma numeric_settings_fixed_point_witness :
  exists text lines sw vw value,
    get_settings_str (H := Numpy.format) (Demo.fresh false) = Returned text
    /\ text = settings_header +:+ foldr String.app "" lines
    /\ lines !! 6 = Some (directive sw vw "NEWTON_TOLER" value)
    /\ exponent_free (ljust value vw) = true
    /\ split_at " " value
       = Numpy.format_float_positional <$> [PyFloat 0.001; PyFloat 0.001; PyFloat 0.0001]
    /\ Numpy.format_float_positional <$> [PyFloat 0.001; PyFloat 0.001; PyFloat 0.0001]
       = ["0.001"; "0.001"; "0.0001"]
    /\ Forall (fun n =>
                 if Numpy.is_finite n
                 then fixed_point (Numpy.format_float_positional n) = true
                 else Numpy.format_float_positional n ∈ ["inf"; "-inf"; "nan"])
         [PyFloat 0.001; PyFloat 0.001; PyFloat 0.0001]
    /\ Numpy.is_finite <$> [PyFloat 0.001; PyFloat 0.001; PyFloat 0.0001]
       = [true; true; true].
Proof.
  assert (Hrun : exists text,
            get_settings_str (H := Numpy.format) (Demo.fresh false) = Returned text).
  { eexists. vm_compute. reflexivity. }
  destruct Hrun as [text Hrun].
  destruct (numeric_settings_fixed_point (Demo.fresh false) text Hrun)
    as (lines & sw & vw & Htext & Hnum).
  destruct (Hnum 6 "NEWTON_TOLER"
              (Tuple [Num (PyFloat 0.001); Num (PyFloat 0.001); Num (PyFloat 0.0001)])
              [PyFloat 0.001; PyFloat 0.001; PyFloat 0.0001] eq_refl eq_refl)
    as (value & Hline & Hfree & _ & Hsplit & Hshape).
  exists text, lines, sw, vw, value. split; [exact Hrun|]. split; [exact Htext|].
  split; [exact Hline|]. split; [exact Hfree|]. split; [by apply Hsplit|].
  split; [vm_compute; reflexivity|]. split; [exact Hshape|].
  vm_compute; reflexivity.
Defined.

(** C4 does not hold as stated: set to [(0.001, inf, 0.0001)], the
    tolerances are written as [0.001 inf 0.0001]; the component [inf] is no
    number in fixed-point decimal. *)
Lemma infinite_setting_not_fixed_point :
  exists text,
    settings (perform_all Updates.with_infinite_tolerance (Demo.fresh false)) !! 6
    = Some ("NEWTON_TOLER",
            Tuple [Num (PyFloat 0.001); Num (PyFloat infinity); Num (PyFloat 0.0001)])
    /\ get_settings_str (H := Numpy.format)
         (perform_all Updates.with_infinite_tolerance (Demo.fresh false))
       = Returned text
    /\ split_lines text !! 8 = Some ("$NEWTON_TOLER    " +:+ "0.001 inf 0.0001" +:+ " ;")
    /\ split_at " " "0.001 inf 0.0001" = ["0.001"; "inf"; "0.0001"]
    /\ fixed_point "inf" = false.
Proof.
  eexists. split; [vm_compute; reflexivity|]. split; [vm_compute; reflexivity|].
  split; [vm_compute; reflexivity|]. split; reflexivity.
Qed.

Section settings_file.
Context {System Controller Disturbance Observable : Type}.
Context `{Ordered Disturbance, Ordered Observable, ControllerLike Controller}.
Context `{NumpyFormat}.
Implicit Types e : Experiment System Controller Disturbance Observable.

Lemma settings_keys_invariant :
  invariant (settings_keys_ok (System := System) (Controller := Controller)
               (Disturbance := Disturbance) (Observable := Observable)).
Proof.
  assert (Hkeep : forall e e', settings e' = settings e ->
                               settings_keys_ok e -> settings_keys_ok e').
  { unfold settings_keys_ok. by intros e e' ->. }
  assert (Hset : forall k v e, k ∈ setting_names -> settings_keys_ok e ->
                   settings_keys_ok (with_settings (dict_set k v (settings e)) e)).
  { unfold settings_keys_ok. intros k v e Hk (Hnd & Hall & Hne).
    assert (forall s, settings (with_settings s e) = s) as -> by by destruct e.
    rewrite dict_set_keys. split; [|split].
    - case_decide; [done|]. apply NoDup_app. split; [done|].
      split; [|apply NoDup_singleton]. by intros x Hx ->%list_elem_of_singleton.
    - case_decide; [done|]. apply Forall_app. split; [done|]. by constructor.
    - destruct (settings e) as [|[k0 v0] d]; [done|]. simpl. by case_decide. }
  split; [intros v e; apply Hkeep; by destruct e|].
  split; [intros v e; apply Hkeep; by destruct e|].
  split; [intros v e; apply Hkeep; by destruct e|].
  split; [intros v e; apply Hkeep; by destruct e|].
  split; [intros v e; apply Hkeep; by destruct e|].
  split; [exact Hset|].
  split; [intros k v e _; apply Hkeep; by destruct e|].
  intros v e; apply Hkeep; by destruct e.
Qed.



End settings_file.



(** ** Every method is a sequence of guarded assignments *)

Section writes_facts.
Context {System Controller Disturbance Observable : Type}.
Context `{Ordered Disturbance, Ordered Observable, ControllerLike Controller}.
Implicit Types e : Experiment System Controller Disturbance Observable.

Lemma for_each_writes {X} (body : X -> method unit) xs e :
  (forall x e', rtc write e' (body x e').2) -> rtc write e (for_each xs body e).2.
Proof.
  intros Hbody. revert e. induction xs as [|x xs IH]; intros e; [done|].
  simpl. unfold andthen. specialize (Hbody x e).
  destruct (body x e) as [[[]|err] e1]; simpl in *; [|done].
  etrans; [exact Hbody|apply IH].
Qed.

Lemma add_observable_writes (o : pyobj Observable) e :
  rtc write e (add_observable o e).2.
Proof.
  destruct o as [o|r]; [|done]. unfold add_observable.
  destruct (insort py_lt (observables e) o) as [l|] eqn:Hins; [|done].
  unfold assign; simpl; apply rtc_once. by apply (write_observable o).
Qed.

Lemma check_controllers_ok (cs : list (pyobj Controller)) e :
  (for_each cs check_controller e).1 = Returned tt ->
  Forall (fun c => controller_ok c = true) (instances cs)
  /\ first_foreign cs = None.
Proof.
  revert e. induction cs as [|[c|r] cs IH]; intros e; [done| |done].
  cbn [for_each check_controller]. unfold andthen, instances, controller_ok.
  destruct (has_overrides_OLTCs c) eqn:Ho; [|done].
  destruct (has_get_actions c) eqn:Hg; [|done]. simpl.
  intros Hrest. destruct (IH _ Hrest) as [Hall Hnone]. split; [|done].
  constructor; [by rewrite Ho, Hg|done].
Qed.

Lemma andthen_assign {B} (f : Experiment System Controller Disturbance Observable ->
                              Experiment System Controller Disturbance Observable)
    (k : unit -> method B) e :
  andthen (assign f) k e = k tt (f e).
Proof. reflexivity. Qed.

Lemma perform_writes (c : call) e : rtc write e (perform c e).2.
Proof.
  destruct c as [text|tag sys|tag ds|obs|tag cs| | | |d|d hz|touch requests]; simpl.
  - unfold describe. case_decide; [done|]. unfold assign; simpl; apply rtc_once. constructor. lia.
  - unfold add_system. case_decide; [done|]. destruct sys; [|done].
    unfold assign; simpl; apply rtc_once. constructor. lia.
  - unfold add_disturbances, andthen. case_decide; [done|].
    pose proof (check_disturbances_pure ds e) as Hpure.
    destruct (for_each ds check_disturbance e) as [[[]|err] e1]; simpl in *; subst e1;
      [|done]. unfold assign; simpl; apply rtc_once. constructor. lia.
  - apply for_each_writes. intros. apply add_observable_writes.
  - unfold add_controllers, andthen. case_decide; [done|].
    pose proof (check_controllers_pure cs e) as Hpure.
    pose proof (check_controllers_ok cs e) as Hok.
    destruct (for_each cs check_controller e) as [[[]|err] e1]; simpl in *; subst e1;
      [|done]. unfold assign; simpl; apply rtc_once. constructor; [lia|by apply Hok].
  - done.
  - done.
  - done.
  - apply for_each_writes. intros [k v] e'. unfold set_RAMSES_setting.
    case_decide; [|done]. unfold assign; simpl; apply rtc_once. by constructor.
  - unfold set_solver_and_horizon.
    destruct (PrimFloat.leb hz 0) eqn:Hhz; [done|]. rewrite andthen_assign.
    etrans; [apply rtc_once; by apply (write_horizon hz)|].
    apply for_each_writes. intros [k v] e'. unfold set_solver_setting.
    case_decide; [|done]. unfold assign; simpl; apply rtc_once. by constructor.
  - unfold run_registries.
    change (rtc write e (for_each requests add_observables
                           (with_systems (prod_map id touch <$> systems e) e)).2).
    etrans; [apply rtc_once; apply (write_touch touch)|].
    apply for_each_writes. intros args e'.
    apply for_each_writes. intros. apply add_observable_writes.
Qed.

Lemma perform_all_writes (calls : list call) e : rtc write e (perform_all calls e).
Proof.
  revert e. induction calls as [|c calls IH]; intros e; [done|].
  simpl. fold (perform_all calls (perform c e).2).
  etrans; [apply perform_writes|apply IH].
Qed.

(** A property that every guarded assignment keeps holds after any calls. *)
Lemma perform_all_keeps (P : Experiment System Controller Disturbance Observable -> Prop)
    (calls : list call) e :
  (forall e1 e2, write e1 e2 -> P e1 -> P e2) -> P e -> P (perform_all calls e).
Proof.
  intros Hstep He. induction (perform_all_writes calls e) as [|e1 e2 e3 Hw _ IH]; [done|].
  apply IH. by apply (Hstep e1).
Qed.

Lemma init_inv path_exists nm dll reps doc e0 :
  init path_exists nm dll reps doc = Returned e0 ->
  e0 = initial nm dll reps doc
  /\ String.length nm <= 10 /\ path_exists dll = true /\ (1 <= reps)%Z.
Proof.
  unfold init. intros Hinit. repeat case_match; simplify_eq.
  repeat split; try lia. by destruct (path_exists dll).
Qed.

End writes_facts.

(** ** Invariants of a constructed experiment *)

Section maintained_facts.
Context {System Controller Disturbance Observable : Type}.
Context `{Ordered Disturbance, Ordered Observable, ControllerLike Controller}.
Implicit Types e : Experiment System Controller Disturbance Observable.

Lemma write_bounds e1 e2 : write e1 e2 -> bounds_ok e1 -> bounds_ok e2.
Proof.
  unfold bounds_ok, tags_short.
  destruct 1 as [text e Hlen|tag s e Hlen|touch e|tag ds e Hlen|o l e Hins
                |tag cs e Hlen Hcs|k v e Hk|k v e Hk|hz e Hhz];
    destruct e; simpl in *; intros (?&?&?&?&?&?&?); repeat split; try done;
    first [ apply Forall_app; split; [done|by constructor]
          | apply Forall_fmap; eapply Forall_impl; [done|by intros []] ].
Qed.

(** X1: after the constructor and any calls of the methods, the name has at
    most 10 characters, the number of repetitions is at least 1, the
    description has at most 100 characters, every tag of a system, of a
    batch of disturbances and of a batch of controllers has at most 10
    characters, and the horizon is not [<= 0]. *)
Theorem constructed_bounds path_exists nm dll reps doc e0 (calls : list call) :
  init path_exists nm dll reps doc = Returned e0 ->
  bounds_ok (perform_all calls e0).
Proof.
  intros Hinit. apply perform_all_keeps; [apply write_bounds|].
  apply init_inv in Hinit as (-> & Hnm & _ & Hreps).
  unfold bounds_ok, tags_short. simpl. repeat split; try done. by_evaluation.
Qed.

Lemma write_solver_keys e1 e2 :
  write e1 e2 ->
  keys (solver_settings e1) = solver_setting_names ->
  keys (solver_settings e2) = solver_setting_names.
Proof.
  destruct 1; destruct e; simpl in *; try done.
  intros Hkeys. rewrite dict_set_keys, Hkeys. by rewrite decide_True.
Qed.

(** X2: after the constructor and any calls, the solver settings hold the
    five recognized keys, each once, in the order of the defaults: no call
    adds, drops or moves one. *)
Theorem constructed_solver_keys path_exists nm dll reps doc e0 (calls : list call) :
  init path_exists nm dll reps doc = Returned e0 ->
  keys (solver_settings (perform_all calls e0))
  = ["disc_method"; "max_h"; "min_h"; "latency"; "upd_over"].
Proof.
  intros Hinit.
  apply (perform_all_keeps (fun e => keys (solver_settings e) = solver_setting_names));
    [apply write_solver_keys|].
  by apply init_inv in Hinit as (-> & _).
Qed.

Lemma write_controllers_ok e1 e2 : write e1 e2 -> controllers_ok e1 -> controllers_ok e2.
Proof.
  unfold controllers_ok. destruct 1; destruct e; simpl in *; try done.
  intros Hold. apply Forall_app. split; [done|]. by constructor.
Qed.

(** X3: every controller stored in a constructed experiment has passed both
    attribute checks, whatever calls were made and whichever of them
    raised. *)
Theorem constructed_controllers_ok path_exists nm dll reps doc e0 (calls : list call) :
  init path_exists nm dll reps doc = Returned e0 ->
  controllers_ok (perform_all calls e0).
Proof.
  intros Hinit. apply perform_all_keeps; [apply write_controllers_ok|].
  apply init_inv in Hinit as (-> & _). constructor.
Qed.

Lemma dict_set_keys_prefix {V} k (v : V) (s : dict V) :
  keys s `prefix_of` keys (dict_set k v s).
Proof. rewrite dict_set_keys. case_decide; [done|]. by apply prefix_app_r. Qed.

Lemma insort_perm {A} (lt : A -> A -> bool) (a l : list A) x :
  insort lt a x = Some l -> l ≡ₚ x :: a.
Proof.
  intros Hins. destruct (insort_total (H := lt) a x) as (l' & Hl' & Hperm).
  unfold py_lt in Hl'. rewrite Hins in Hl'. by simplify_eq.
Qed.

Lemma write_grown e1 e2 : write e1 e2 -> grown e1 e2.
Proof.
  unfold grown.
  destruct 1 as [text e Hlen|tag s e Hlen|touch e|tag ds e Hlen|o l e Hins
                |tag cs e Hlen Hcs|k v e Hk|k v e Hk|hz e Hhz];
    destruct e; simpl in *; repeat split; try done;
    try (by apply prefix_app_r); try apply dict_set_keys_prefix.
  - rewrite fmap_app. by apply prefix_app_r.
  - rewrite <- list_fmap_compose.
    erewrite (list_fmap_ext (fst ∘ prod_map id touch) fst); [done|by intros ? []].
  - apply insort_perm in Hins. rewrite Hins. by apply submseteq_cons.
Qed.

Lemma grown_refl e : grown e e.
Proof. by repeat split. Qed.

Lemma grown_trans e1 e2 e3 : grown e1 e2 -> grown e2 e3 -> grown e1 e3.
Proof.
  intros (?&?&?&?&?&?) (?&?&?&?&?&?). repeat split; by etrans.
Qed.

(** X4: no call removes or reorders what the experiment holds: after any
    calls the tags of the systems, the batches of disturbances, the batches
    of controllers and the keys of both settings maps still start with what
    they were, and every observable is still in the registry. *)
Theorem calls_only_add (calls : list call) e : grown e (perform_all calls e).
Proof.
  induction (perform_all_writes calls e) as [e1|e1 e2 e3 Hw _ IH]; [apply grown_refl|].
  eapply grown_trans; [by apply write_grown|done].
Qed.

End maintained_facts.

Lemma constructed_bounds_witness : bounds_ok Sample.after_session.
Proof.
  apply (constructed_bounds Demo.path_exists "demo" "C:/RAMSES" 1 false
           (Demo.fresh false) Sample.session).
  reflexivity.
Defined.

Lemma constructed_solver_keys_witness :
  keys (solver_settings Sample.after_session)
  = ["disc_method"; "max_h"; "min_h"; "latency"; "upd_over"].
Proof.
  apply (constructed_solver_keys Demo.path_exists "demo" "C:/RAMSES" 1 false
           (Demo.fresh false) Sample.session).
  reflexivity.
Defined.

Lemma constructed_controllers_ok_witness : controllers_ok Sample.after_session.
Proof.
  apply (constructed_controllers_ok Demo.path_exists "demo" "C:/RAMSES" 1 false
           (Demo.fresh false) Sample.session).
  reflexivity.
Defined.

(** ** The registry is kept in order *)

Section bisect_facts.
Context {A : Type} `{Ordered A} `{!StrictWeak A}.

Lemma sorted_lookup_le (a : list A) j k y z :
  Sorted not_after a -> j <= k -> a !! j = Some y -> a !! k = Some z ->
  py_lt z y = false.
Proof.
  intros Hs%Sorted_StronglySorted; [|apply _]. revert j k.
  induction Hs as [|x a Hs IH Hall]; intros j k Hjk Hj Hk; [done|].
  destruct j as [|j], k as [|k]; simpl in *; simplify_eq.
  - apply lt_irrefl.
  - rewrite Forall_forall in Hall. apply Hall. by eapply list_elem_of_lookup_2.
  - lia.
  - apply (IH j k); [lia|done..].
Qed.

Lemma bisect_loop_spec fuel (a : list A) x lo hi :
  Sorted not_after a ->
  lo <= hi -> hi <= length a -> hi - lo <= fuel ->
  (forall j y, j < lo -> a !! j = Some y -> py_lt x y = false) ->
  (forall j y, hi <= j -> a !! j = Some y -> py_lt x y = true) ->
  exists i, bisect_loop py_lt fuel a x lo hi = Some i
    /\ lo <= i <= hi
    /\ (forall j y, j < i -> a !! j = Some y -> py_lt x y = false)
    /\ (forall j y, i <= j -> a !! j = Some y -> py_lt x y = true).
Proof.
  intros Hs. revert lo hi.
  induction fuel as [|fuel IH]; intros lo hi Hle Hhi Hfuel Hlow Hhigh.
  - rewrite bisect_loop_done by lia. exists lo. repeat split; try done; try lia.
    intros j y Hj. apply Hhigh. lia.
  - destruct (decide (lo < hi)) as [Hlt|Hge].
    2:{ rewrite bisect_loop_done by done. exists lo. repeat split; try done; try lia.
        intros j y Hj. apply Hhigh. lia. }
    rewrite bisect_loop_step by done.
    assert (Hmid : lo <= (lo + hi) `div` 2 < hi).
    { split; [apply Nat.div_le_lower_bound; lia|apply Nat.Div0.div_lt_upper_bound; lia]. }
    destruct (lookup_lt_is_Some_2 a ((lo + hi) `div` 2)) as [m Hm]; [lia|].
    rewrite Hm. destruct (py_lt x m) eqn:Hxm.
    + destruct (IH lo ((lo + hi) `div` 2)) as (i & -> & Hi & Hlo' & Hhi'); [lia..|done| |].
      { intros j y Hj Hy. destruct (py_lt x y) eqn:Hxy; [done|].
        pose proof (sorted_lookup_le a _ j m y Hs Hj Hm Hy) as Hym.
        by rewrite (lt_incomp_trans x y m Hxy Hym) in Hxm. }
      exists i. repeat split; try done; lia.
    + destruct (IH (S ((lo + hi) `div` 2)) hi) as (i & -> & Hi & Hlo' & Hhi');
        [lia..| |done|].
      { intros j y Hj Hy.
        assert (j <= (lo + hi) `div` 2) as Hjm by lia.
        pose proof (sorted_lookup_le a j _ y m Hs Hjm Hy Hm) as Hmy.
        exact (lt_incomp_trans x m y Hxm Hmy). }
      exists i. repeat split; try done; lia.
Qed.

(** X5: on a list in order, [bisect.bisect_right] returns a position in the
    list such that no element before it is greater than [x] and every
    element from it on is greater than [x]: [x] goes after the elements
    equal to it. *)
Theorem bisect_right_position (a : list A) x :
  Sorted not_after a ->
  exists i, bisect_right py_lt a x = Some i
    /\ i <= length a
    /\ Forall (fun y => py_lt x y = false) (take i a)
    /\ Forall (fun y => py_lt x y = true) (drop i a).
Proof.
  intros Hs. unfold bisect_right.
  destruct (bisect_loop_spec (length a) a x 0 (length a) Hs)
    as (i & -> & Hi & Hlow & Hhigh); [lia..| | |].
  { intros j y Hj. lia. }
  { intros j y Hj Hy. apply lookup_lt_Some in Hy. lia. }
  exists i. split; [done|]. split; [lia|]. split.
  - apply Forall_lookup. intros j y Hy.
    pose proof (lookup_lt_Some _ _ _ Hy) as Hlen. rewrite length_take in Hlen.
    rewrite lookup_take_lt in Hy by lia. apply (Hlow j); [lia|done].
  - apply Forall_lookup. intros j y Hy. rewrite lookup_drop in Hy.
    apply (Hhigh (i + j)); [lia|done].
Qed.

Lemma insort_sorted (a l : list A) x :
  Sorted not_after a -> insort py_lt a x = Some l -> Sorted not_after l.
Proof.
  intros Hs Hins. unfold insort in Hins.
  destruct (bisect_loop_spec (length a) a x 0 (length a) Hs)
    as (i & Hi & Hrange & Hlow & Hhigh); [lia..| | |].
  { intros j y Hj. lia. }
  { intros j y Hj Hy. apply lookup_lt_Some in Hy. lia. }
  unfold bisect_right in Hins. rewrite Hi in Hins. simpl in Hins.
  injection Hins as <-. unfold list_insert_at.
  apply StronglySorted_Sorted.
  pose proof (Sorted_StronglySorted _ _ Hs) as Hss.
  rewrite <- (take_drop i a) in Hss.
  apply StronglySorted_app in Hss as (Hcross & Hleft & Hright).
  apply StronglySorted_app_2; [|done|].
  - intros y z Hy Hz. apply elem_of_cons in Hz as [->|Hz]; [|by apply Hcross].
    apply list_elem_of_lookup in Hy as [j Hy].
    pose proof (lookup_lt_Some _ _ _ Hy) as Hlen. rewrite length_take in Hlen.
    rewrite lookup_take_lt in Hy by lia. apply (Hlow j); [lia|done].
  - constructor; [done|]. apply Forall_lookup. intros j y Hy.
    rewrite lookup_drop in Hy. apply lt_asym. apply (Hhigh (i + j)); [lia|done].
Qed.

End bisect_facts.

Section sorted_registries.
Context {System Controller Disturbance Observable : Type}.
Context `{Ordered Disturbance, Ordered Observable, ControllerLike Controller}.
Context `{!StrictWeak Disturbance, !StrictWeak Observable}.
Implicit Types e : Experiment System Controller Disturbance Observable.

Lemma write_sorted e1 e2 : write e1 e2 -> registries_sorted e1 -> registries_sorted e2.
Proof.
  unfold registries_sorted.
  destruct 1 as [text e Hlen|tag s e Hlen|touch e|tag ds e Hlen|o l e Hins
                |tag cs e Hlen Hcs|k v e Hk|k v e Hk|hz e Hhz];
    destruct e; simpl in *; intros [Hobs Hdis]; split; try done.
  - apply Forall_app. split; [done|]. constructor; [|done]. apply sorted_sorted.
  - by apply (insort_sorted _ _ o Hobs).
Qed.

Lemma perform_all_sorted (calls : list call) e :
  registries_sorted e -> registries_sorted (perform_all calls e).
Proof. apply perform_all_keeps, write_sorted. Qed.

(** X6: after the constructor and any calls, the registry of observables is
    in non-decreasing order (every [bisect.insort] finds it so and leaves
    it so), and so is every stored batch of disturbances. *)
Theorem constructed_registries_sorted path_exists nm dll reps doc e0 (calls : list call) :
  init path_exists nm dll reps doc = Returned e0 ->
  registries_sorted (perform_all calls e0).
Proof.
  intros Hinit. apply perform_all_sorted.
  apply init_inv in Hinit as (-> & _). split; constructor.
Qed.

End sorted_registries.

Lemma constructed_registries_sorted_witness :
  registries_sorted Sample.after_session
  /\ observables Sample.after_session = [2; 2; 4; 7; 7].
Proof.
  split; [|reflexivity].
  apply (constructed_registries_sorted Demo.path_exists "demo" "C:/RAMSES" 1 false
           (Demo.fresh false) Sample.session).
  reflexivity.
Defined.

Section registry_text.
Context {System Controller Disturbance Observable : Type}.
Context `{Ordered Disturbance, Ordered Observable, ControllerLike Controller}.
Context `{Printable Observable, EqDecision Observable, Countable Observable}.
Context `{!StrictWeak Disturbance, !StrictTotal Observable}.
Implicit Types e : Experiment System Controller Disturbance Observable.

Lemma remove_dups_strongly_sorted (R : relation Observable) (l : list Observable) :
  StronglySorted R l -> StronglySorted R (remove_dups l).
Proof.
  induction 1 as [|x l Hs IH Hall]; simpl; [constructor|].
  case_decide; [done|]. constructor; [done|].
  rewrite Forall_forall in *. intros y Hy. by apply Hall, elem_of_remove_dups.
Qed.

Lemma strictly_increasing (l : list Observable) :
  StronglySorted not_after l -> NoDup l -> StronglySorted before l.
Proof.
  induction 1 as [|x l Hs IH Hall]; intros Hnd; [constructor|].
  apply NoDup_cons in Hnd as [Hx Hnd]. constructor; [by apply IH|].
  rewrite Forall_forall in *. intros y Hy. apply not_after_ne_before; [by apply Hall|].
  by intros ->.
Qed.

(** X7: for a constructed experiment the text of [get_observables_str] is
    the registry itself, printed in its own order with repeated observables
    dropped: the [sorted(list(set(...)))] of the serializer reorders
    nothing. *)
Theorem observables_text_follows_registry path_exists nm dll reps doc e0
    (calls : list call) :
  init path_exists nm dll reps doc = Returned e0 ->
  get_observables_str (perform_all calls e0)
  = observable_lines (remove_dups (observables (perform_all calls e0))).
Proof.
  intros Hinit.
  assert (Hsorted : Sorted not_after (observables (perform_all calls e0))).
  { apply perform_all_sorted. apply init_inv in Hinit as (-> & _). split; constructor. }
  destruct (get_observables_str_spec (perform_all calls e0)) as (l & Hl & Hmem & ->).
  f_equal. apply strictly_sorted_unique; [done| |].
  - apply strictly_increasing; [|apply NoDup_remove_dups].
    apply remove_dups_strongly_sorted, Sorted_StronglySorted; [apply _|done].
  - intros x. by rewrite Hmem, elem_of_remove_dups.
Qed.

End registry_text.

Lemma observables_text_follows_registry_witness :
  get_observables_str Sample.after_session
  = "BUS 2" +:+ nl +:+ "BUS 4" +:+ nl +:+ "BUS 7" +:+ nl.
Proof.
  etrans.
  - apply (observables_text_follows_registry Demo.path_exists "demo" "C:/RAMSES" 1 false
             (Demo.fresh false) Sample.session eq_refl).
  - reflexivity.
Defined.

(** ** Rejected calls *)

Section rejections.
Context {System Controller Disturbance Observable : Type}.
Context `{Ordered Disturbance, ControllerLike Controller}.
Implicit Types e : Experiment System Controller Disturbance Observable.

Lemma check_disturbances_run (ds : list (pyobj Disturbance)) e :
  for_each ds check_disturbance e
  = (match first_foreign ds with
     | None => Returned tt
     | Some r => Raised (not_a_disturbance r)
     end, e).
Proof.
  induction ds as [|[d|r] ds IH]; [done| |done].
  cbn [for_each check_disturbance first_foreign]. unfold andthen, mreturn. exact IH.
Qed.

(** X8: [add_disturbances] is all or nothing.  A tag of more than 10
    characters is refused before any argument is looked at; otherwise the
    first argument that is not a disturbance is reported; in both cases the
    experiment is left exactly as it was.  Only when every argument passes
    is the batch appended. *)
Theorem add_disturbances_all_or_nothing tag (ds : list (pyobj Disturbance)) e :
  add_disturbances tag ds e
  = if decide (10 < String.length tag) then (Raised tag_too_long, e)
    else match first_foreign ds with
         | Some r => (Raised (not_a_disturbance r), e)
         | None =>
             (Returned tt,
              with_disturbances (disturbances e ++ [(tag, sorted py_lt (instances ds))]) e)
         end.
Proof.
  unfold add_disturbances, andthen. case_decide; [done|].
  rewrite check_disturbances_run. by destruct (first_foreign ds).
Qed.

Lemma check_controllers_run (cs : list (pyobj Controller)) e :
  for_each cs check_controller e
  = (match first_controller_error cs with
     | None => Returned tt
     | Some x => Raised x
     end, e).
Proof.
  unfold first_controller_error.
  induction cs as [|[c|r] cs IH]; [done| |done].
  cbn [for_each check_controller omap list_omap controller_error]. unfold andthen.
  destruct (has_overrides_OLTCs c); [|done].
  destruct (has_get_actions c); [|done]. exact IH.
Qed.

(** X9: [add_controllers] is all or nothing.  A tag of more than 10
    characters is refused first; otherwise the arguments are checked in
    order (instance of the class, then the [overrides_OLTCs] attribute, then
    the [get_actions] method) and the first failure is the error raised; in
    both cases the experiment is left exactly as it was.  Only when every
    argument passes is the batch appended, in the order given. *)
Theorem add_controllers_all_or_nothing tag (cs : list (pyobj Controller)) e :
  add_controllers tag cs e
  = if decide (10 < String.length tag) then (Raised tag_too_long, e)
    else match first_controller_error cs with
         | Some x => (Raised x, e)
         | None =>
             (Returned tt, with_controllers (controllers e ++ [(tag, instances cs)]) e)
         end.
Proof.
  unfold add_controllers, andthen. case_decide; [done|].
  rewrite check_controllers_run. by destruct (first_controller_error cs).
Qed.

End rejections.

(** ** More on the stepping loop *)

Section stepping_more.
Context {World : Type} `{Simulation World}.
Context (vmin vmax window h : float).

Lemma run_loop_log_grows tv w log :
  exists n, advanced (run_loop vmin vmax window h tv w log) = log ++ take n tv.
Proof.
  revert w log. induction tv as [|tk tv IH]; intros w log.
  - exists 0. simpl. by rewrite app_nil_r.
  - simpl. destruct (getBusVolt w) as [[voltages|err] w1];
      [|exists 0; simpl; by rewrite app_nil_r].
    destruct (PrimFloat.ltb window tk && negb (voltages_ok vmin vmax voltages));
      [exists 0; simpl; by rewrite app_nil_r|].
    destruct (contSim tk w1) as [[[]|err] w2]; [|by exists 1].
    destruct (after_step h tk w2) as [[[]|err] w3]; [|by exists 1].
    destruct (IH w3 (log ++ [tk])) as [n ->]. exists (S n). simpl.
    by rewrite <- app_assoc.
Qed.

(** X10: whatever the engine does, the times to which the loop advances it
    are the first time values, in their order: none is skipped, none is
    repeated, and no other time is ever passed to [contSim]. *)
Theorem run_loop_advances_in_order tv w :
  advanced (run_loop vmin vmax window h tv w []) `prefix_of` tv.
Proof.
  destruct (run_loop_log_grows tv w []) as [n ->]. simpl.
  exists (drop n tv). by rewrite take_drop.
Qed.

(** X11: an engine failure ends the loop at that step.  If the query of the
    voltages raises at [tk], the engine is not advanced to [tk]; if the
    query goes through, the voltage test does not stop the loop and the
    call [contSim(tk)] raises, that call is the last one made.  Either way
    the loop is left through the [except] clause and no later time value is
    used. *)
Theorem run_loop_stops_on_engine_error pre tk post w log :
  exit (run_loop vmin vmax window h pre w log) = Completed ->
  (forall err w1,
     getBusVolt (world (run_loop vmin vmax window h pre w log)) = (Raised err, w1) ->
     run_loop vmin vmax window h (pre ++ tk :: post) w log
     = {| exit := AbortedOnEngineError; world := w1; advanced := log ++ pre |})
  /\ (forall voltages w1 err w2,
        getBusVolt (world (run_loop vmin vmax window h pre w log))
        = (Returned voltages, w1) ->
        PrimFloat.ltb window tk && negb (voltages_ok vmin vmax voltages) = false ->
        contSim tk w1 = (Raised err, w2) ->
        run_loop vmin vmax window h (pre ++ tk :: post) w log
        = {| exit := AbortedOnEngineError; world := w2;
             advanced := log ++ pre ++ [tk] |}).
Proof.
  intros Hexit. pose proof (run_loop_completed_log _ _ _ _ pre w log Hexit) as Hlog.
  split.
  - intros err w1 Hvolt. rewrite run_loop_app, Hexit. simpl. by rewrite Hvolt, Hlog.
  - intros voltages w1 err w2 Hvolt Htest Hcont.
    rewrite run_loop_app, Hexit. simpl. rewrite Hvolt, Htest, Hcont, Hlog.
    by rewrite <- app_assoc.
Qed.

Lemma run_loop_log_prefix tv w log :
  log `prefix_of` advanced (run_loop vmin vmax window h tv w log).
Proof. destruct (run_loop_log_grows tv w log) as [n ->]. by apply prefix_app_r. Qed.

(** X12: the voltage test is not applied before the window has passed: at a
    step [tk] that is not greater than the window, whatever voltages are
    read, the engine is advanced to [tk]. *)
Theorem run_loop_window_shields pre tk post w log voltages w1 :
  exit (run_loop vmin vmax window h pre w log) = Completed ->
  getBusVolt (world (run_loop vmin vmax window h pre w log)) = (Returned voltages, w1) ->
  PrimFloat.ltb window tk = false ->
  (log ++ pre ++ [tk])
    `prefix_of` advanced (run_loop vmin vmax window h (pre ++ tk :: post) w log)
  /\ exit (run_loop vmin vmax window h (pre ++ [tk]) w log) <> AbortedOnDivergence.
Proof.
  intros Hexit Hvolt Hearly.
  pose proof (run_loop_completed_log _ _ _ _ pre w log Hexit) as Hlog. split.
  - rewrite run_loop_app, Hexit. simpl. rewrite Hvolt, Hearly, Hlog. simpl.
    rewrite app_assoc.
    destruct (contSim tk w1) as [[[]|err] w2]; [|done].
    destruct (after_step h tk w2) as [[[]|err] w3]; [|done].
    apply run_loop_log_prefix.
  - rewrite run_loop_app, Hexit. simpl. rewrite Hvolt, Hearly. simpl.
    destruct (contSim tk w1) as [[[]|err] w2]; [|done].
    by destruct (after_step h tk w2) as [[[]|err] w3].
Qed.

(** X13: with an engine that stays healthy the loop runs to the end.  If
    some condition on the world guarantees that the voltages read are all
    strictly inside the band, that [contSim] and the three calls after it
    return, and that the condition holds again afterwards, then from a
    world in that condition the loop completes and has advanced the engine
    to every time value. *)
Theorem run_loop_completes (healthy : World -> Prop) tv w log :
  (forall w0, healthy w0 ->
     exists voltages w1, getBusVolt w0 = (Returned voltages, w1)
       /\ voltages_ok vmin vmax voltages = true
       /\ forall tk, exists w2 w3, contSim tk w1 = (Returned tt, w2)
            /\ after_step h tk w2 = (Returned tt, w3) /\ healthy w3) ->
  healthy w ->
  exit (run_loop vmin vmax window h tv w log) = Completed
  /\ advanced (run_loop vmin vmax window h tv w log) = log ++ tv
  /\ healthy (world (run_loop vmin vmax window h tv w log)).
Proof.
  intros Hstep. revert w log. induction tv as [|tk tv IH]; intros w log Hw.
  - simpl. by rewrite app_nil_r.
  - simpl. destruct (Hstep w Hw) as (voltages & w1 & -> & -> & Hnext).
    destruct (Hnext tk) as (w2 & w3 & -> & -> & Hw3).
    rewrite andb_false_r. destruct (IH w3 (log ++ [tk]) Hw3) as (-> & -> & ?).
    by rewrite <- app_assoc.
Qed.

End stepping_more.

Lemma run_loop_stops_on_engine_error_witness :
  run_loop 0.7 1.2 5 0.02 ([0; 2] ++ 4 :: [6; 8])%float [[1.0]; [1.0]]%float []
  = {| exit := AbortedOnEngineError; world := []; advanced := [0; 2; 4]%float |}.
Proof.
  destruct (run_loop_stops_on_engine_error 0.7 1.2 5 0.02
              [0; 2]%float 4%float [6; 8]%float [[1.0]; [1.0]]%float [])
    as [_ Hcont]; [reflexivity|].
  apply (Hcont [] [] (RuntimeError "engine stopped") []); reflexivity.
Defined.

Lemma run_loop_window_shields_witness :
  ([] ++ [] ++ [0%float])
    `prefix_of` advanced (run_loop 0.7 1.2 5 0.02 ([] ++ 0 :: [2; 4])%float
                            Engines.early_dip [])
  /\ advanced (run_loop 0.7 1.2 5 0.02 [0; 2; 4]%float Engines.early_dip [])
     = [0; 2; 4]%float.
Proof.
  split; [|reflexivity].
  apply (run_loop_window_shields 0.7 1.2 5 0.02 [] 0%float [2; 4]%float
           Engines.early_dip [] [0.2]%float Engines.early_dip); reflexivity.
Defined.

Lemma run_loop_completes_witness :
  exit (run_loop 0.7 1.2 5 0.02 [0; 2; 4; 6; 8]%float 0 []) = Completed
  /\ advanced (run_loop 0.7 1.2 5 0.02 [0; 2; 4; 6; 8]%float 0 [])
     = [0; 2; 4; 6; 8]%float.
Proof.
  destruct (run_loop_completes 0.7 1.2 5 0.02 (fun _ : nat => True)
              [0; 2; 4; 6; 8]%float 0 []) as (Hexit & Hlog & _).
  - intros w0 _. exists [1.01; 1.01]%float, w0.
    split; [reflexivity|]. split; [reflexivity|].
    intros tk. exists (S w0), (S w0). split; [reflexivity|]. split; [reflexivity|exact I].
  - exact I.
  - split; [exact Hexit|exact Hlog].
Defined.

(** ** Time stamps *)

Lemma string_app_inj_length s1 s2 t1 t2 :
  String.length s1 = String.length s2 -> s1 +:+ t1 = s2 +:+ t2 -> s1 = s2 /\ t1 = t2.
Proof.
  revert s2. induction s1 as [|a s1 IH]; intros [|b s2] Hlen Heq; try done.
  rewrite !string_app_cons in Heq. injection Heq as -> Heq. injection Hlen as Hlen.
  destruct (IH s2 Hlen Heq) as [-> ->]. done.
Qed.

Lemma pad2_facts n :
  n < 100 -> String.length (pad2 n) = 2 /\ digits_value (pad2 n) = N.of_nat n.
Proof.
  intros Hn.
  assert (Hall : forallb (fun n => Nat.eqb (String.length (pad2 n)) 2
                                   && N.eqb (digits_value (pad2 n)) (N.of_nat n))
                   (seq 0 100) = true) by (vm_compute; reflexivity).
  rewrite forallb_forall in Hall. specialize (Hall n).
  rewrite andb_true_iff, Nat.eqb_eq, N.eqb_eq in Hall. apply Hall, in_seq. lia.
Qed.

Lemma elem_of_count_from k x y :
  (x <= y < x + N.of_nat k)%N -> In y (count_from k x).
Proof.
  revert x. induction k as [|k IH]; intros x Hy; [lia|].
  simpl. destruct (decide (x = y)) as [->|Hne]; [by left|].
  right. apply IH. lia.
Qed.

Lemma four_digits (x : N) :
  (1000 <= x < 10000)%N ->
  String.length (pretty x) = 4 /\ digits_value (pretty x) = x.
Proof.
  intros Hx.
  assert (Hall : forallb (fun x => Nat.eqb (String.length (pretty x)) 4
                                   && N.eqb (digits_value (pretty x)) x)
                   (count_from (90 * 100) 1000%N) = true) by (vm_compute; reflexivity).
  rewrite forallb_forall in Hall. specialize (Hall x).
  rewrite andb_true_iff, Nat.eqb_eq, N.eqb_eq in Hall.
  apply Hall, elem_of_count_from. lia.
Qed.

Lemma pad4_facts n :
  1000 <= n < 100 * 100 ->
  String.length (pad4 n) = 4 /\ digits_value (pad4 n) = N.of_nat n.
Proof.
  intros Hn. unfold pad4. rewrite !decide_False by lia.
  apply (four_digits (N.of_nat n)). lia.
Qed.

(** X14: for readings of the clock with a four-digit year, [get_timestamp]
    with its default delimiters gives a string of 21 characters, and two
    readings that differ in any field give different strings: every second
    has a time stamp of its own. *)
Theorem get_timestamp_fixed_width_injective (t1 t2 : struct_time) :
  plausible t1 -> plausible t2 ->
  String.length (get_timestamp t1 "[" "]") = 21
  /\ (get_timestamp t1 "[" "]" = get_timestamp t2 "[" "]" -> t1 = t2).
Proof.
  intros (Hy1 & Hm1 & Hd1 & Hh1 & Hi1 & Hs1) (Hy2 & Hm2 & Hd2 & Hh2 & Hi2 & Hs2).
  destruct t1 as [y1 m1 d1 h1 i1 s1], t2 as [y2 m2 d2 h2 i2 s2]; simpl in *.
  destruct (pad4_facts y1) as [Ly1 Vy1]; [lia|]. destruct (pad4_facts y2) as [Ly2 Vy2]; [lia|].
  destruct (pad2_facts m1) as [Lm1 Vm1]; [lia|]. destruct (pad2_facts m2) as [Lm2 Vm2]; [lia|].
  destruct (pad2_facts d1) as [Ld1 Vd1]; [lia|]. destruct (pad2_facts d2) as [Ld2 Vd2]; [lia|].
  destruct (pad2_facts h1) as [Lh1 Vh1]; [lia|]. destruct (pad2_facts h2) as [Lh2 Vh2]; [lia|].
  destruct (pad2_facts i1) as [Li1 Vi1]; [lia|]. destruct (pad2_facts i2) as [Li2 Vi2]; [lia|].
  destruct (pad2_facts s1) as [Ls1 Vs1]; [lia|]. destruct (pad2_facts s2) as [Ls2 Vs2]; [lia|].
  unfold get_timestamp. simpl. split.
  - rewrite !string_length_app, Ly1, Lm1, Ld1, Lh1, Li1, Ls1. reflexivity.
  - intros Heq. apply String.app_inj in Heq.
    apply string_app_inj_length in Heq as [Ey Heq]; [|congruence].
    apply String.app_inj in Heq.
    apply string_app_inj_length in Heq as [Em Heq]; [|congruence].
    apply String.app_inj in Heq.
    apply string_app_inj_length in Heq as [Ed Heq]; [|congruence].
    apply String.app_inj in Heq.
    apply string_app_inj_length in Heq as [Eh Heq]; [|congruence].
    apply String.app_inj in Heq.
    apply string_app_inj_length in Heq as [Ei Heq]; [|congruence].
    apply String.app_inj in Heq.
    apply string_app_inj_length in Heq as [Es _]; [|congruence].
    f_equal; apply Nat2N.inj; congruence.
Qed.

Lemma get_timestamp_fixed_width_injective_witness :
  String.length (get_timestamp Demo.noon "[" "]") = 21
  /\ get_timestamp Demo.noon "[" "]" <> get_timestamp Demo.noon_and_a_second "[" "]".
Proof.
  destruct (get_timestamp_fixed_width_injective Demo.noon Demo.noon_and_a_second)
    as [Hwidth Hinj].
  - unfold plausible. simpl. lia.
  - unfold plausible. simpl. lia.
  - split; [exact Hwidth|]. intros Heq. apply Hinj in Heq. discriminate.
Defined.

(** ** Case directories that do not collide *)

Lemma string_app_empty s : "" +:+ s = s.
Proof. reflexivity. Qed.

Lemma comma_split s s' x y :
  comma_free s = true -> comma_free s' = true ->
  s +:+ ", " +:+ x = s' +:+ ", " +:+ y -> s = s' /\ x = y.
Proof.
  unfold comma_free. revert s'.
  induction s as [|a s IH]; intros [|b s'] Hs Hs' Heq; simpl in *;
    rewrite ?string_app_empty, ?string_app_cons in Heq.
  - split; [done|]. injection Heq as Heq. by apply String.app_inj in Heq.
  - exfalso. injection Heq as <- _. by apply andb_prop in Hs' as [Hb _].
  - exfalso. injection Heq as -> _. by apply andb_prop in Hs as [Ha _].
  - injection Heq as -> Heq.
    apply andb_prop in Hs as [_ Hs]. apply andb_prop in Hs' as [_ Hs'].
    destruct (IH s' Hs Hs' Heq) as [-> ->]. done.
Qed.

Section collisions.
Context {System Controller Disturbance Observable : Type}.
Implicit Types e : Experiment System Controller Disturbance Observable.

Lemma case2str_inj e now s d c r s' d' c' r' :
  comma_free s = true -> comma_free d = true -> comma_free c = true ->
  comma_free s' = true -> comma_free d' = true -> comma_free c' = true ->
  case2str e now s d c r = case2str e now s' d' c' r' ->
  (s, d, c, r) = (s', d', c', r').
Proof.
  intros Hs Hd Hc Hs' Hd' Hc' Heq. unfold case2str in Heq.
  do 2 apply String.app_inj in Heq.
  apply comma_split in Heq as [-> Heq]; [|done..].
  apply comma_split in Heq as [-> Heq]; [|done..].
  apply comma_split in Heq as [-> ->]; done.
Qed.

Lemma elem_of_case_tags e s d c r :
  (s, d, c, r) ∈ case_tags e
  <-> s ∈ (systems e).*1 /\ d ∈ (disturbances e).*1
      /\ c ∈ (controllers e).*1 /\ r ∈ (randomizations e).*1.
Proof.
  unfold case_tags. rewrite !list_elem_of_fmap. setoid_rewrite list_elem_of_bind.
  setoid_rewrite list_elem_of_bind. setoid_rewrite list_elem_of_bind.
  setoid_rewrite list_elem_of_bind. setoid_rewrite list_elem_of_singleton. split.
  - intros (x1 & (x2 & (x3 & (x4 & Heq & H4) & H3) & H2) & H1). simplify_eq.
    repeat split; eexists; split; done.
  - intros ((x1 & -> & H1) & (x2 & -> & H2) & (x3 & -> & H3) & (x4 & -> & H4)).
    exists x1. split; [|done]. exists x2. split; [|done].
    exists x3. split; [|done]. exists x4. done.
Qed.

Lemma NoDup_fmap_inj_on {X Y} (f : X -> Y) (l : list X) x y :
  NoDup (f <$> l) -> x ∈ l -> y ∈ l -> f x = f y -> x = y.
Proof.
  induction l as [|z l IH]; csimpl; intros Hnd Hx Hy Heq; [by inv Hx|].
  apply NoDup_cons in Hnd as [Hz Hnd].
  apply elem_of_cons in Hx as [->|Hx]; apply elem_of_cons in Hy as [->|Hy]; auto.
  - destruct Hz. rewrite Heq. by apply list_elem_of_fmap_2.
  - destruct Hz. rewrite <- Heq. by apply list_elem_of_fmap_2.
Qed.

Lemma NoDup_bind_tags {X B} (l : list (string * X)) (f : string * X -> list B)
    (tag_of : B -> string) :
  NoDup l.*1 ->
  (forall x y, y ∈ f x -> tag_of y = x.1) ->
  (forall x, NoDup (f x)) ->
  NoDup (l ≫= f).
Proof.
  intros Hnd Htag Hf. apply NoDup_bind; [|by intros; apply Hf|by eapply NoDup_fmap_1].
  intros x1 x2 y Hx1 Hx2 Hy1 Hy2.
  apply (NoDup_fmap_inj_on fst l); [done..|].
  by rewrite <- (Htag x1 y), <- (Htag x2 y).
Qed.

Lemma NoDup_case_tags e :
  NoDup (systems e).*1 -> NoDup (disturbances e).*1 ->
  NoDup (controllers e).*1 -> NoDup (randomizations e).*1 ->
  NoDup (case_tags e).
Proof.
  intros Hs Hd Hc Hr. unfold case_tags.
  apply (NoDup_bind_tags _ _ (fun y => y.1.1.1)); [done| |].
  { intros x y Hy.
    apply list_elem_of_bind in Hy as (? & Hy & _).
    apply list_elem_of_bind in Hy as (? & Hy & _).
    apply list_elem_of_bind in Hy as (? & Hy & _).
    by apply list_elem_of_singleton in Hy as ->. }
  intros sys. apply (NoDup_bind_tags _ _ (fun y => y.1.1.2)); [done| |].
  { intros x y Hy.
    apply list_elem_of_bind in Hy as (? & Hy & _).
    apply list_elem_of_bind in Hy as (? & Hy & _).
    by apply list_elem_of_singleton in Hy as ->. }
  intros dis. apply (NoDup_bind_tags _ _ (fun y => y.1.2)); [done| |].
  { intros x y Hy.
    apply list_elem_of_bind in Hy as (? & Hy & _).
    by apply list_elem_of_singleton in Hy as ->. }
  intros con. apply (NoDup_bind_tags _ _ (fun y => y.2)); [done| |].
  { intros x y Hy. by apply list_elem_of_singleton in Hy as ->. }
  intros ran. apply NoDup_singleton.
Qed.

(** X15: the case directories of [init_files_and_dirs] are pairwise
    different when the root name is the same for every case (always so in
    an undocumented experiment), no two entries of an axis share a tag, and
    no tag of a system, of a batch of disturbances or of a batch of
    controllers holds a comma. *)
Theorem case_dirs_distinct e clock :
  (forall i j, get_dir e (clock i) = get_dir e (clock j)) ->
  NoDup (systems e).*1 -> NoDup (disturbances e).*1 ->
  NoDup (controllers e).*1 -> NoDup (randomizations e).*1 ->
  Forall (fun t => comma_free t = true)
    ((systems e).*1 ++ (disturbances e).*1 ++ (controllers e).*1) ->
  NoDup (case_dirs e clock).
Proof.
  intros Hroot Hs Hd Hc Hr Hfree. unfold case_dirs.
  rewrite (imap_ext _ (fun _ '(s, d, c, r) => case2str e (clock 0) s d c r)).
  2:{ intros i [[[s d] c] r] _. unfold case2str. by rewrite (Hroot i 0). }
  rewrite (imap_const (fun '(s, d, c, r) => case2str e (clock 0) s d c r)).
  apply NoDup_fmap_2_strong; [|by apply NoDup_case_tags].
  rewrite !Forall_app, !Forall_forall in Hfree. destruct Hfree as (Fs & Fd & Fc).
  intros [[[s d] c] r] [[[s' d'] c'] r'] (?&?&?&?)%elem_of_case_tags
    (?&?&?&?)%elem_of_case_tags Heq.
  apply (case2str_inj e (clock 0)); auto.
Qed.

End collisions.

Lemma case_dirs_distinct_witness :
  NoDup (case_dirs (perform_all Demo.two_systems (Demo.fresh false)) (fun _ => Demo.noon))
  /\ case_dirs (perform_all Demo.two_systems (Demo.fresh false)) (fun _ => Demo.noon)
     = ["demo/nordic, fault, mpc, Not random"; "demo/ieee39, fault, mpc, Not random"].
Proof.
  split; [|reflexivity].
  apply (case_dirs_distinct (perform_all Demo.two_systems (Demo.fresh false))
           (fun _ => Demo.noon)).
  - intros i j. reflexivity.
  - by_evaluation.
  - by_evaluation.
  - by_evaluation.
  - by_evaluation.
  - by_evaluation.
Defined.

(** With a comma in a tag the names can coincide although the tags of each
    axis are pairwise different. *)
Lemma case_dirs_collide_on_commas :
  NoDup (systems (perform_all Collisions.ambiguous (Demo.fresh false))).*1
  /\ NoDup (disturbances (perform_all Collisions.ambiguous (Demo.fresh false))).*1
  /\ case_dirs (perform_all Collisions.ambiguous (Demo.fresh false)) (fun _ => Demo.noon)
     = ["demo/a, b, c, d, Not random"; "demo/a, c, d, Not random";
        "demo/a, b, b, c, d, Not random"; "demo/a, b, c, d, Not random"].
Proof. split; [by_evaluation|]. split; [by_evaluation|reflexivity]. Qed.

(** ** Settings: when the text can be written, and where the lines go *)

Section settings_more.
Context {System Controller Disturbance Observable : Type}.
Context `{Ordered Disturbance, Ordered Observable, ControllerLike Controller}.
Context `{NumpyFormat}.
Implicit Types e : Experiment System Controller Disturbance Observable.

(** X16: for an experiment as the constructor and any calls leave it,
    [get_settings_str] returns a text exactly when
    [np.format_float_positional] takes every object that [val2str] hands
    to it: no string inside a tuple, no [int] beyond the range of binary64.
    Otherwise it raises the exception of the first object refused, in the
    order of the map and of the tuple: [TypeError] for a string,
    [OverflowError] for such an [int].  It never fails for want of
    settings. *)
Theorem get_settings_str_returns_iff path_exists nm dll reps doc e0 (calls : list call) :
  init path_exists nm dll reps doc = Returned e0 ->
  match first_error (values (settings (perform_all calls e0))) with
  | None => exists text, get_settings_str (perform_all calls e0) = Returned text
  | Some err => get_settings_str (perform_all calls e0) = Raised err
  end.
Proof.
  intros Hinit.
  assert (Hok : settings_keys_ok (perform_all calls e0)).
  { apply perform_all_invariant; [apply settings_keys_invariant|].
    apply init_inv in Hinit as (-> & _).
    unfold settings_keys_ok. simpl. split; [by_evaluation|].
    split; [by_evaluation|done]. }
  destruct Hok as (_ & _ & Hne).
  pose proof (get_settings_str_outcome (perform_all calls e0) Hne) as Hout.
  by destruct (first_error (values (settings (perform_all calls e0)))).
Qed.

Lemma filter_ext_on {X} (P Q : X -> Prop) `{!forall x, Decision (P x)}
    `{!forall x, Decision (Q x)} (l : list X) :
  (forall x, x ∈ l -> P x <-> Q x) -> filter P l = filter Q l.
Proof.
  induction l as [|x l IH]; intros Hext; [done|].
  rewrite !filter_cons. rewrite IH by (intros y Hy; apply Hext; by right).
  destruct (decide (P x)) as [HP|HP], (decide (Q x)) as [HQ|HQ]; try done;
    exfalso; apply (Hext x) in HP || apply (Hext x) in HQ; try done; by left.
Qed.

Lemma keys_update_all {V} (d s : dict V) :
  NoDup (keys d) ->
  keys (update_all d s) = keys s ++ filter (fun k => k ∉ keys s) (keys d).
Proof.
  unfold keys. revert s. induction d as [|[k v] d IH]; intros s Hnd.
  - simpl. by rewrite app_nil_r.
  - rewrite fmap_cons in *. cbn [fst] in *. apply NoDup_cons in Hnd as [Hk Hnd].
    change (update_all ((k, v) :: d) s) with (update_all d (dict_set k v s)).
    rewrite (IH _ Hnd). pose proof (dict_set_keys k v s) as Hset. unfold keys in Hset.
    rewrite Hset. destruct (decide (k ∈ s.*1)) as [Hin|Hout].
    + rewrite filter_cons_False; [done|]. by intros ?.
    + rewrite filter_cons_True by done. rewrite <- app_assoc. simpl. do 2 f_equal.
      apply filter_ext_on. intros k' Hk'.
      rewrite not_elem_of_app, not_elem_of_cons. split; [by intros [? _]|].
      intros Hk's. split; [done|]. split; [by intros ->|apply not_elem_of_nil].
Qed.

(** X17: when [set_RAMSES_settings] returns, the names already in the map
    keep their places and the new names follow, in the order in which the
    update gives them: with the layout of the settings file, a line never
    moves once it is there. *)
Theorem set_RAMSES_settings_keeps_order (d : dict setting_value) e :
  NoDup (keys d) -> Forall (fun k => k ∈ setting_names) (keys d) ->
  (set_RAMSES_settings d e).1 = Returned tt
  /\ keys (settings (set_RAMSES_settings d e).2)
     = keys (settings e) ++ filter (fun k => k ∉ keys (settings e)) (keys d).
Proof.
  intros Hnd Hall. rewrite set_RAMSES_settings_run.
  destruct (recognized_prefix_all setting_names d Hall) as [-> ->].
  split; [done|]. simpl.
  assert (forall s, settings (with_settings s e) = s) as -> by by destruct e.
  by apply keys_update_all.
Qed.

Lemma dict_set_same {V} k (v : V) (s : dict V) :
  dict_get k s = Some v -> dict_set k v s = s.
Proof.
  induction s as [|[k' v'] s IH]; [done|]. simpl.
  destruct (decide (k' = k)) as [->|Hne]; [by intros [= ->]|].
  intros Hget. by rewrite (IH Hget).
Qed.

Lemma update_all_same {V} (d s : dict V) :
  Forall (fun item => dict_get item.1 s = Some item.2) d -> update_all d s = s.
Proof.
  induction 1 as [|[k v] d Hk _ IH]; [done|].
  change (update_all ((k, v) :: d) s) with (update_all d (dict_set k v s)).
  by rewrite (dict_set_same k v s Hk).
Qed.

Lemma dict_get_elem_of {V} (d : dict V) k v :
  NoDup (keys d) -> (k, v) ∈ d -> dict_get k d = Some v.
Proof.
  unfold keys. induction d as [|[k' v'] d IH]; intros Hnd Hin; [by inv Hin|].
  rewrite fmap_cons in Hnd. apply NoDup_cons in Hnd as [Hk' Hnd]. simpl.
  apply elem_of_cons in Hin as [[= <- <-]|Hin]; [by rewrite decide_True|].
  rewrite decide_False; [by apply IH|].
  intros ->. apply Hk'. apply list_elem_of_fmap. by exists (k, v).
Qed.

Lemma recognized_prefix_sub {V} names (d : dict V) :
  recognized_prefix names d `prefix_of` d.
Proof.
  induction d as [|[k v] d IH]; [done|]. simpl.
  case_decide; [by apply prefix_cons|apply prefix_nil].
Qed.

(** X18: making the same call of [set_RAMSES_settings] a second time
    changes nothing more: it ends as the first did (returning, or raising
    for the same key) and leaves the experiment as the first left it. *)
Theorem set_RAMSES_settings_idempotent (d : dict setting_value) e :
  NoDup (keys d) ->
  set_RAMSES_settings d (set_RAMSES_settings d e).2 = set_RAMSES_settings d e.
Proof.
  intros Hnd. rewrite !set_RAMSES_settings_run. simpl. f_equal.
  assert (forall s, settings (with_settings s e) = s) as -> by by destruct e.
  assert (forall s s', with_settings s (with_settings s' e) = with_settings s e) as ->
    by by destruct e.
  f_equal. apply update_all_same.
  destruct (recognized_prefix_sub setting_names d) as [rest Hrest].
  assert (Hnd' : NoDup (keys (recognized_prefix setting_names d))).
  { unfold keys in *. rewrite Hrest, fmap_app in Hnd. by apply NoDup_app in Hnd as [? _]. }
  apply Forall_forall. intros [k v] Hin. simpl.
  rewrite (update_all_get _ _ _ Hnd'). by rewrite (dict_get_elem_of _ _ _ Hnd' Hin).
Qed.

Lemma perform_description (c : call) e :
  description (perform c e).2 = last_description [c] (description e).
Proof.
  assert (Hobs : forall (obs : list (pyobj Observable)) e1,
            description (add_observables obs e1).2 = description e1).
  { intros obs e1. apply (for_each_invariant (fun e' => description e' = description e1));
      [|done]. intros [o|r] e' <-; [|done]. unfold add_observable.
    destruct (insort py_lt (observables e') o); [|done]. by destruct e'. }
  destruct c as [text|tag sys|tag ds|obs|tag cs| | | |d|d hz|touch requests]; simpl.
  - unfold describe. case_decide; [done|]. by destruct e.
  - unfold add_system. case_decide; [done|]. destruct sys; [|done]. by destruct e.
  - unfold add_disturbances, andthen. case_decide; [done|].
    rewrite check_disturbances_run. destruct (first_foreign ds); [done|]. by destruct e.
  - apply Hobs.
  - unfold add_controllers, andthen. case_decide; [done|].
    rewrite check_controllers_run. destruct (first_controller_error cs); [done|].
    by destruct e.
  - done.
  - done.
  - done.
  - rewrite set_RAMSES_settings_run. by destruct e.
  - unfold set_solver_and_horizon. destruct (PrimFloat.leb hz 0); [done|].
    rewrite andthen_assign, solver_settings_run. by destruct e.
  - unfold run_registries.
    change (description (for_each requests add_observables
                           (with_systems (prod_map id touch <$> systems e) e)).2
            = description e).
    transitivity (description (with_systems (prod_map id touch <$> systems e) e));
      [|by destruct e].
    apply (for_each_invariant
             (fun e' => description e'
                        = description (with_systems (prod_map id touch <$> systems e) e)));
      [|done]. intros args e' <-. apply Hobs.
Qed.

(** X19: after any calls, [str(experiment)] is the text of the last call
    of [describe] whose text had at most 100 characters (the earlier
    description when there was none): a refused [describe] and every other
    method leave the description alone. *)
Theorem to_str_is_last_description (calls : list call) e :
  to_str (perform_all calls e) = last_description calls (description e).
Proof.
  unfold to_str. revert e. induction calls as [|c calls IH]; intros e; [done|].
  simpl. fold (perform_all calls (perform c e).2).
  rewrite IH, perform_description. done.
Qed.

End settings_more.

Lemma get_settings_str_returns_iff_witness :
  (exists text, get_settings_str (perform_all Demo.two_systems (Demo.fresh false))
                = Returned text)
  /\ get_settings_str (perform_all Updates.with_omp (Demo.fresh false))
     = Raised not_a_number
  /\ get_settings_str (perform_all Updates.with_large_base (Demo.fresh false))
     = Raised too_large.
Proof.
  assert (first_error (values (settings (perform_all Demo.two_systems (Demo.fresh false))))
          = None) as Hfine by (vm_compute; reflexivity).
  assert (first_error (values (settings (perform_all Updates.with_omp (Demo.fresh false))))
          = Some not_a_number) as Homp by (vm_compute; reflexivity).
  assert (first_error
            (values (settings (perform_all Updates.with_large_base (Demo.fresh false))))
          = Some too_large) as Hbase by (vm_compute; reflexivity).
  pose proof (get_settings_str_returns_iff Demo.path_exists "demo" "C:/RAMSES" 1 false
                (Demo.fresh false) Demo.two_systems eq_refl) as H1.
  pose proof (get_settings_str_returns_iff Demo.path_exists "demo" "C:/RAMSES" 1 false
                (Demo.fresh false) Updates.with_omp eq_refl) as H2.
  pose proof (get_settings_str_returns_iff Demo.path_exists "demo" "C:/RAMSES" 1 false
                (Demo.fresh false) Updates.with_large_base eq_refl) as H3.
  rewrite Hfine in H1. rewrite Homp in H2. rewrite Hbase in H3. by repeat split.
Defined.

Lemma set_RAMSES_settings_keeps_order_witness :
  keys (settings (set_RAMSES_settings Updates.latency_and_profile (Demo.fresh false)).2)
  = ["PLOT_STEP"; "GP_REFRESH_RATE"; "DISP_PROF"; "T_LOAD_REST"; "OMEGA_REF";
     "S_BASE"; "NEWTON_TOLER"; "FIN_DIFFER"; "FULL_UPDATE"; "SKIP_CONV";
     "SCHEME"; "NB_THREADS"; "SPARSE_SOLVER"; "LATENCY"; "NET_FREQ_UPD"].
Proof.
  destruct (set_RAMSES_settings_keeps_order Updates.latency_and_profile (Demo.fresh false))
    as [_ Hkeys]; [by_evaluation|by_evaluation|].
  rewrite Hkeys. reflexivity.
Defined.

Lemma set_RAMSES_settings_idempotent_witness :
  set_RAMSES_settings Demo.profile_off_then_unknown
    (set_RAMSES_settings Demo.profile_off_then_unknown (Demo.fresh false)).2
  = set_RAMSES_settings Demo.profile_off_then_unknown (Demo.fresh false).
Proof.
  apply (set_RAMSES_settings_idempotent Demo.profile_off_then_unknown (Demo.fresh false)).
  by_evaluation.
Defined.

(** ** The solver and horizon file *)

Lemma string_app_assoc s t u : (s +:+ t) +:+ u = s +:+ t +:+ u.
Proof.
  induction s as [|a s IH]; [done|]. rewrite !string_app_cons. by rewrite IH.
Qed.

Lemma rjust_length s width :
  String.length (rjust s width) = Nat.max (String.length s) width.
Proof. unfold rjust. rewrite string_length_app, spaces_length. lia. Qed.

Section solver_file.
Context {System Controller Disturbance Observable : Type}.
Context `{Ordered Disturbance, Ordered Observable, ControllerLike Controller}.
Context `{NumpyFormat, PythonFormat}.
Implicit Types e : Experiment System Controller Disturbance Observable.

Lemma subscript_present (d : dict setting_value) k :
  k ∈ keys d -> exists v, dict_get k d = Some v /\ subscript d k = inr v.
Proof.
  unfold subscript, keys. induction d as [|[k' v'] d IH]; intros Hin; [by inv Hin|].
  rewrite fmap_cons in Hin. simpl. destruct (decide (k' = k)) as [->|Hne].
  - by exists v'.
  - apply elem_of_cons in Hin as [->|Hin]; [done|]. by apply IH.
Qed.

(** X20: for an experiment as the constructor and any calls leave it,
    [get_solver_and_horizon_str] never fails on a missing key.  It returns
    exactly when [np.format_float_positional] takes the three values under
    [max_h], [min_h] and [latency] (numbers, an [int] within the range of
    binary64); otherwise it raises the exception of the conversion for the
    first of the three that is refused.  When it returns, the text is the
    line [CONTINUE SOLVER] with the five settings in the order of the
    f-string, then the line [STOP], each headed by its time right-justified
    in a field as wide as the wider of the two times.  The horizon is a
    [float], as its annotation says; what [f"{x:.3f}"] and [str] print is a
    parameter of the statement. *)
Theorem get_solver_and_horizon_str_layout path_exists nm dll reps doc e0
    (calls : list call) :
  init path_exists nm dll reps doc = Returned e0 ->
  (forall key, get_solver_and_horizon_str (perform_all calls e0) <> inl (KeyError key))
  /\ match head (omap step_refusal (step_values (perform_all calls e0))) with
     | Some err => get_solver_and_horizon_str (perform_all calls e0) = inl (FormatError err)
     | None =>
         exists disc n2 n3 n4 upd,
           dict_get "disc_method" (solver_settings (perform_all calls e0)) = Some disc
           /\ step_values (perform_all calls e0)
              = [Single (Num n2); Single (Num n3); Single (Num n4)]
           /\ dict_get "upd_over" (solver_settings (perform_all calls e0)) = Some upd
           /\ get_solver_and_horizon_str (perform_all calls e0)
              = inr (rjust (format_3f (PyInt 0)) (time_width (perform_all calls e0))
                       +:+ " CONTINUE SOLVER " +:+ fstring disc +:+ " "
                       +:+ format_float_positional n2 +:+ " "
                       +:+ format_float_positional n3 +:+ " "
                       +:+ format_float_positional n4 +:+ " "
                       +:+ fstring upd +:+ nl
                       +:+ rjust (format_3f (PyFloat (horizon (perform_all calls e0))))
                             (time_width (perform_all calls e0))
                       +:+ " STOP" +:+ nl)
           /\ String.length
                (rjust (format_3f (PyInt 0)) (time_width (perform_all calls e0)))
              = time_width (perform_all calls e0)
           /\ String.length
                (rjust (format_3f (PyFloat (horizon (perform_all calls e0))))
                   (time_width (perform_all calls e0)))
              = time_width (perform_all calls e0)
     end.
Proof.
  intros Hinit.
  assert (Hkeys : keys (solver_settings (perform_all calls e0)) = solver_setting_names).
  { apply (perform_all_keeps (fun e => keys (solver_settings e) = solver_setting_names));
      [apply write_solver_keys|]. by apply init_inv in Hinit as (-> & _). }
  set (e := perform_all calls e0) in *.
  assert (Hsub : forall k, k ∈ solver_setting_names ->
            exists v, dict_get k (solver_settings e) = Some v
                      /\ subscript (solver_settings e) k = inr v).
  { intros k Hk. apply subscript_present. by rewrite Hkeys. }
  destruct (Hsub "disc_method") as (v1 & G1 & S1); [by_evaluation|].
  destruct (Hsub "max_h") as (v2 & G2 & S2); [by_evaluation|].
  destruct (Hsub "min_h") as (v3 & G3 & S3); [by_evaluation|].
  destruct (Hsub "latency") as (v4 & G4 & S4); [by_evaluation|].
  destruct (Hsub "upd_over") as (v5 & G5 & S5); [by_evaluation|].
  assert (Hstep : forall v, solver_val2str v
            = match step_refusal v with
              | Some err => inl (FormatError err)
              | None => match v with
                        | Single (Num n) => inr (format_float_positional n)
                        | _ => inr ""
                        end
              end).
  { intros [[s|n]|xs]; cbn [solver_val2str step_refusal]; [done| |done].
    rewrite np_format_outcome. by destruct (refusal (Num n)). }
  unfold get_solver_and_horizon_str, step_values.
  cbn [omap list_omap]. rewrite S1, S2, S3, S4, S5, G2, G3, G4. cbn [and_then].
  rewrite !Hstep. cbn [omap list_omap].
  split.
  - intros key.
    repeat (case_match; cbn [and_then]; try done).
  - destruct (step_refusal v2) as [err|] eqn:R2; cbn [and_then head]; [done|].
    destruct (step_refusal v3) as [err|] eqn:R3; cbn [and_then head].
    { by destruct v2 as [[s2|n2]|xs2]. }
    destruct (step_refusal v4) as [err|] eqn:R4; cbn [and_then head].
    { destruct v2 as [[s2|n2]|xs2]; try done. by destruct v3 as [[s3|n3]|xs3]. }
    destruct v2 as [[s2|n2]|xs2]; try done.
    destruct v3 as [[s3|n3]|xs3]; try done.
    destruct v4 as [[s4|n4]|xs4]; try done.
    cbn [and_then head]. exists v1, n2, n3, n4, v5.
    unfold time_width. repeat split; try done.
    + by rewrite !string_app_assoc.
    + rewrite rjust_length. lia.
    + rewrite rjust_length. lia.
Qed.

End solver_file.

Lemma get_solver_and_horizon_str_layout_witness :
  get_solver_and_horizon_str (H := Numpy.format) Sample.after_session
  = inr (" 0.000 CONTINUE SOLVER BD 0.01 0.001 0. ABL" +:+ nl
           +:+ "50.000 STOP" +:+ nl)
  /\ get_solver_and_horizon_str (H := Numpy.format)
       (perform_all Updates.with_large_latency (Demo.fresh false))
     = inl (FormatError too_large).
Proof.
  destruct (get_solver_and_horizon_str_layout (H2 := Numpy.format)
              Demo.path_exists "demo" "C:/RAMSES" 1 false
              (Demo.fresh false) Sample.session eq_refl) as [_ Hlines].
  destruct (get_solver_and_horizon_str_layout (H2 := Numpy.format)
              Demo.path_exists "demo" "C:/RAMSES" 1 false
              (Demo.fresh false) Updates.with_large_latency eq_refl) as [_ Hlarge].
  assert (head (omap step_refusal (step_values (perform_all Sample.session (Demo.fresh false))))
          = None) as Hfine by (vm_compute; reflexivity).
  assert (head (omap step_refusal
                  (step_values (perform_all Updates.with_large_latency (Demo.fresh false))))
          = Some too_large) as Hbad by (vm_compute; reflexivity).
  rewrite Hfine in Hlines. rewrite Hbad in Hlarge. split; [|exact Hlarge].
  destruct Hlines as (disc & n2 & n3 & n4 & upd & Hdisc & Hsteps & Hupd & Htext & _).
  assert (dict_get "disc_method" (solver_settings (perform_all Sample.session (Demo.fresh false)))
          = Some (Single (Str "BD"))) as Hdisc' by (vm_compute; reflexivity).
  assert (step_values (perform_all Sample.session (Demo.fresh false))
          = [Single (Num (PyFloat 0.01)); Single (Num (PyFloat 0.001));
             Single (Num (PyInt 0))]) as Hsteps' by (vm_compute; reflexivity).
  assert (dict_get "upd_over" (solver_settings (perform_all Sample.session (Demo.fresh false)))
          = Some (Single (Str "ABL"))) as Hupd' by (vm_compute; reflexivity).
  rewrite Hdisc' in Hdisc. rewrite Hsteps' in Hsteps. rewrite Hupd' in Hupd.
  injection Hdisc as <-. injection Hsteps as <- <- <-. injection Hupd as <-.
  unfold Sample.after_session. rewrite Htext. vm_compute. reflexivity.
Defined.

(** Disturbances at times 1, 3, 3 and 7: a new one at time 3 goes after the
    two that are there. *)
Lemma bisect_right_position_witness :
  Sorted not_after [(1, "a"); (3, "b"); (3, "c"); (7, "d")]
  /\ exists i, bisect_right py_lt [(1, "a"); (3, "b"); (3, "c"); (7, "d")] ((3, "e") : Demo.disturbance) = Some i
       /\ i <= 4
       /\ Forall (fun y => py_lt ((3, "e") : Demo.disturbance) y = false)
            (take i [(1, "a"); (3, "b"); (3, "c"); (7, "d")])
       /\ Forall (fun y => py_lt ((3, "e") : Demo.disturbance) y = true)
            (drop i [(1, "a"); (3, "b"); (3, "c"); (7, "d")]).
Proof.
  assert (Hs : Sorted (not_after (A := Demo.disturbance))
                 [(1, "a"); (3, "b"); (3, "c"); (7, "d")]).
  { repeat constructor. }
  split; [exact Hs|].
  exact (bisect_right_position [(1, "a"); (3, "b"); (3, "c"); (7, "d")] (3, "e") Hs).
Defined.

(** * Files and directories: properties *)

(** ** Path names *)

Lemma components_slash_free a : slash_free a = true -> components a = [a].
Proof.
  unfold slash_free. induction a as [|c a IH]; [done|]. cbn [String.list_ascii_of_string forallb components].
  intros [Hc Ha]%andb_prop. apply negb_true_iff in Hc. rewrite Hc, (IH Ha). done.
Qed.

Lemma components_sep a b :
  slash_free a = true -> components (a +:+ "/" +:+ b) = a :: components b.
Proof.
  unfold slash_free. induction a as [|c a IH].
  - intros _. reflexivity.
  - cbn [String.list_ascii_of_string forallb]. intros [Hc Ha]%andb_prop.
    apply negb_true_iff in Hc. rewrite string_app_cons. cbn [components].
    rewrite Hc, (IH Ha). done.
Qed.

Lemma slash_free_app a b : slash_free (a +:+ b) = slash_free a && slash_free b.
Proof. unfold slash_free. by rewrite list_ascii_of_string_app, forallb_app. Qed.

Lemma clean_inv c : clean c = true -> c <> "" /\ c <> "." /\ c <> ".." /\ slash_free c = true.
Proof.
  unfold clean, proper, plain. intros [[Hp _]%andb_prop [Hs _]%andb_prop]%andb_prop.
  apply bool_decide_eq_true in Hp. tauto.
Qed.

Lemma clean_nul_free c : clean c = true -> nul_free c = true.
Proof. unfold clean, plain. by intros [_ [_ Hn]%andb_prop]%andb_prop. Qed.

Lemma nul_free_app a b : nul_free (a +:+ b) = nul_free a && nul_free b.
Proof. unfold nul_free. by rewrite list_ascii_of_string_app, forallb_app. Qed.

Lemma encoded_length_bound s : encoded_length s <= 2 * String.length s.
Proof.
  unfold encoded_length. induction s as [|c s IH]; [done|].
  cbn [String.list_ascii_of_string foldr String.length]. case_match; lia.
Qed.

Lemma slash_free_no_sep c :
  slash_free c = true -> starts_with_sep c = false /\ ends_with_sep c = false.
Proof.
  unfold slash_free, starts_with_sep, ends_with_sep. intros Hc. split.
  - destruct c as [|x c]; [done|]. cbn in Hc. apply andb_prop in Hc as [Hx _].
    by apply negb_true_iff.
  - destruct (last _) as [x|] eqn:Hlast; [|done].
    apply last_Some_elem_of, list_elem_of_In in Hlast.
    rewrite forallb_forall in Hc. apply negb_true_iff. by apply Hc.
Qed.

Lemma ends_with_sep_app a b : b <> "" -> ends_with_sep (a +:+ b) = ends_with_sep b.
Proof.
  intros Hb. unfold ends_with_sep. rewrite list_ascii_of_string_app, last_app.
  destruct (last (String.list_ascii_of_string b)) eqn:Hlast; [done|].
  apply last_None in Hlast. destruct b; [done|discriminate].
Qed.

Lemma path_of_cons a b q : path_of (a :: b :: q) = a +:+ "/" +:+ path_of (b :: q).
Proof. reflexivity. Qed.

Lemma path_of_snoc q b : q <> [] -> path_of (q ++ [b]) = path_of q +:+ "/" +:+ b.
Proof.
  induction q as [|a q IH]; [done|]. intros _. destruct q as [|a' q]; [done|].
  change ((a :: a' :: q) ++ [b]) with (a :: a' :: (q ++ [b])).
  rewrite !path_of_cons. change (a' :: q ++ [b]) with ((a' :: q) ++ [b]).
  rewrite IH by done. by rewrite !string_app_assoc.
Qed.

Lemma path_of_not_empty q : q <> [] -> Forall (fun c => clean c = true) q -> path_of q <> "".
Proof.
  destruct q as [|a q]; [done|]. intros _ [Ha _]%Forall_cons.
  apply clean_inv in Ha as (Ha & _). destruct q; [done|].
  rewrite path_of_cons. destruct a; [done|]. by rewrite string_app_cons.
Qed.

Lemma path_of_no_trailing_sep q :
  Forall (fun c => clean c = true) q -> ends_with_sep (path_of q) = false.
Proof.
  destruct q as [|b q _] using rev_ind; [done|]. intros [Hq Hb]%Forall_app.
  apply Forall_cons in Hb as [Hb _]. apply clean_inv in Hb as (Hne & _ & _ & Hb).
  destruct (decide (q = [])) as [->|Hq'].
  - by apply slash_free_no_sep.
  - rewrite path_of_snoc by done. rewrite <- string_app_assoc, ends_with_sep_app by done.
    by apply slash_free_no_sep.
Qed.

Lemma components_path_of q :
  q <> [] -> Forall (fun c => clean c = true) q -> components (path_of q) = q.
Proof.
  induction q as [|a q IH]; [done|]. intros _ [Ha Hq]%Forall_cons.
  apply clean_inv in Ha as (_ & _ & _ & Ha). destruct q as [|b q].
  - by apply components_slash_free.
  - rewrite path_of_cons, components_sep by done. by rewrite IH.
Qed.

Lemma encoded_length_app a b :
  encoded_length (a +:+ b) = encoded_length a + encoded_length b.
Proof.
  unfold encoded_length. rewrite list_ascii_of_string_app, foldr_app.
  induction (String.list_ascii_of_string a) as [|c cs IH]; [done|].
  cbn [foldr]. rewrite IH. lia.
Qed.

Lemma encoded_length_path_of q :
  Forall (fun c => clean c = true) q -> encoded_length (path_of q) <= 256 * length q.
Proof.
  induction q as [|a q IH]; [done|]. intros [Ha Hq]%Forall_cons.
  assert (encoded_length a <= 255) as Hlen.
  { unfold clean, proper in Ha.
    apply andb_prop in Ha as [[_ Ha%Nat.leb_le]%andb_prop _]. done. }
  destruct q as [|b q]; [cbn [path_of join length]; lia|].
  rewrite path_of_cons, !encoded_length_app. specialize (IH Hq).
  change (encoded_length "/") with 1. cbn [length] in *. lia.
Qed.

Lemma resolve_path_of q :
  q <> [] -> length q <= 15 -> Forall (fun c => clean c = true) q ->
  resolve (path_of q) = Some q.
Proof.
  intros Hne Hshort Hq. unfold resolve. rewrite components_path_of by done.
  assert (forallb proper q = true) as ->.
  { apply forallb_forall. intros c Hc%list_elem_of_In.
    rewrite Forall_forall in Hq. specialize (Hq c Hc).
    unfold clean in Hq. by apply andb_prop in Hq as [? _]. }
  pose proof (encoded_length_path_of q Hq) as Hlen.
  assert ((encoded_length (path_of q) <=? longest_path) = true) as ->; [|done].
  apply Nat.leb_le. unfold longest_path. lia.
Qed.

Lemma nul_free_path_of q :
  Forall (fun c => clean c = true) q -> nul_free (path_of q) = true.
Proof.
  induction q as [|a q IH]; [done|]. intros [Ha Hq]%Forall_cons.
  apply clean_nul_free in Ha. destruct q as [|b q]; [done|].
  rewrite path_of_cons, !nul_free_app, Ha, IH by done. reflexivity.
Qed.

Lemma names_path_of q :
  q <> [] -> length q <= 15 -> Forall (fun c => clean c = true) q ->
  names (path_of q) q.
Proof.
  intros Hne Hshort Hq. split; [by apply nul_free_path_of|].
  split; [by apply path_of_not_empty|by apply resolve_path_of].
Qed.

Lemma join_step_path_of q b :
  q <> [] -> Forall (fun c => clean c = true) q -> clean b = true ->
  join_step (path_of q) b = path_of (q ++ [b]).
Proof.
  intros Hne Hq Hb. unfold join_step.
  apply clean_inv in Hb as (_ & _ & _ & Hb).
  destruct (slash_free_no_sep b Hb) as [-> _].
  rewrite (path_of_no_trailing_sep q Hq), orb_false_r.
  rewrite bool_decide_eq_false_2 by by apply path_of_not_empty.
  by rewrite path_of_snoc.
Qed.

Lemma os_path_join_path_of q bs :
  q <> [] -> Forall (fun c => clean c = true) q -> Forall (fun c => clean c = true) bs ->
  os_path_join (path_of q) bs = path_of (q ++ bs).
Proof.
  unfold os_path_join. revert q. induction bs as [|b bs IH]; intros q Hne Hq Hbs.
  - by rewrite app_nil_r.
  - apply Forall_cons in Hbs as [Hb Hbs]. cbn [foldl].
    rewrite join_step_path_of by done. rewrite IH.
    + by rewrite <- app_assoc.
    + by destruct q.
    + apply Forall_app. split; [done|]. by repeat constructor.
    + done.
Qed.


(** ** Operations on the tree *)

Lemma missing_parent_none path q t :
  removelast q = [] \/ t !! removelast q = Some Dir -> missing_parent path q t = None.
Proof.
  unfold missing_parent. intros [->|Hup]; [done|].
  destruct (removelast q); [done|]. by rewrite Hup.
Qed.

Lemma agrees_refl v : agrees (Some v) v.
Proof. by destruct v. Qed.

Lemma make_if_missing_run path q t :
  names path q ->
  removelast q = [] \/ t !! removelast q = Some Dir ->
  agrees (t !! q) Dir ->
  make_if_missing path path t = (inr tt, <[q := Dir]> t).
Proof.
  intros (Hnul & Hne & Hq) Hup Hfound. unfold make_if_missing, io_bind, os_path_exists.
  rewrite Hnul. cbn [negb]. rewrite bool_decide_eq_false_2, Hq by done.
  destruct (t !! q) as [[|content]|] eqn:Hlook; [| done |].
  - rewrite bool_decide_eq_true_2 by done. by rewrite insert_id.
  - rewrite bool_decide_eq_false_2 by (by intros [? ?]).
    unfold os_mkdir. rewrite Hnul. cbn [negb].
    rewrite bool_decide_eq_false_2, Hq by done.
    by rewrite missing_parent_none, Hlook.
Qed.

Lemma write_text_run path q text t :
  names path q ->
  removelast q = [] \/ t !! removelast q = Some Dir ->
  agrees (t !! q) (File text) ->
  write_text path (io_ret text) t = (inr tt, <[q := File text]> t).
Proof.
  intros (Hnul & Hne & Hq) Hup Hfound. unfold write_text, io_bind, open_w.
  rewrite Hnul. cbn [negb].
  rewrite bool_decide_eq_false_2, Hq by done. rewrite missing_parent_none by done.
  assert (forall t', io_ret text t' = (inr text, t')) as Hret by done.
  destruct (t !! q) as [[|content]|] eqn:Hlook; [done| |];
    rewrite Hret; unfold file_write; by rewrite alter_insert_eq.
Qed.

Lemma run_steps_cons s steps t :
  run_steps (s :: steps) t
  = match run_step s t with
    | (inr _, t') => run_steps steps t'
    | (inl err, t') => (inl err, t')
    end.
Proof. reflexivity. Qed.

Lemma apply_all_cons q v plan t : apply_all ((q, v) :: plan) t = apply_all plan (<[q := v]> t).
Proof. reflexivity. Qed.

Lemma run_steps_build steps plan made t :
  Forall2 denotes steps plan ->
  parents_first made plan ->
  (forall k, k ∈ made -> t !! k = Some Dir) ->
  (forall q v v', (q, v) ∈ plan -> (q, v') ∈ plan -> agrees (Some v) v') ->
  compatible plan t ->
  run_steps steps t = (inr tt, apply_all plan t).
Proof.
  intros Hsteps. revert made t.
  induction Hsteps as [|s [q v] steps plan Hs Hsteps IH]; intros made t Hfirst Hmade Hcons Hcomp.
  { reflexivity. }
  destruct Hfirst as [Hup Hfirst].
  assert (removelast q = [] \/ t !! removelast q = Some Dir) as Hup'.
  { destruct Hup as [?|Hup]; [by left|right; by apply Hmade]. }
  assert (agrees (t !! q) v) as Hfound by (apply Hcomp; left).
  assert (run_step s t = (inr tt, <[q := v]> t)) as Hrun.
  { destruct s as [path|path text], v as [|content]; try done; cbn in Hs.
    - by apply make_if_missing_run.
    - destruct Hs as [Hq ->]. by apply write_text_run. }
  rewrite run_steps_cons, Hrun, apply_all_cons.
  apply (IH (match v with Dir => q :: made | File _ => made end)); [done| | |].
  - intros k Hk. destruct (decide (k = q)) as [->|Hkq].
    + rewrite lookup_insert_eq. f_equal. destruct v as [|content]; [done|].
      specialize (Hmade q Hk). rewrite Hmade in Hfound. done.
    + rewrite lookup_insert_ne by done. apply Hmade.
      destruct v; [|done]. by apply elem_of_cons in Hk as [?|?].
  - intros q' v1 v2 H1 H2. apply (Hcons q'); by right.
  - intros q' v' Hin. destruct (decide (q' = q)) as [->|Hne].
    + rewrite lookup_insert_eq. apply (Hcons q); [left|by right].
    + rewrite lookup_insert_ne by done. apply Hcomp. by right.
Qed.

Lemma apply_all_other plan q t :
  q ∉ plan.*1 -> apply_all plan t !! q = t !! q.
Proof.
  revert t. induction plan as [|[q' v] plan IH]; intros t Hq; [done|].
  rewrite apply_all_cons. rewrite fmap_cons, not_elem_of_cons in Hq. destruct Hq as [Hne Hq].
  rewrite IH by done. by rewrite lookup_insert_ne.
Qed.

Lemma apply_all_lookup (f : list string -> node) plan q t :
  (forall q v, (q, v) ∈ plan -> v = f q) ->
  q ∈ plan.*1 \/ t !! q = Some (f q) ->
  apply_all plan t !! q = Some (f q).
Proof.
  revert t. induction plan as [|[q' v] plan IH]; intros t Hf Hq.
  { destruct Hq as [Hq|Hq]; [by apply elem_of_nil in Hq|done]. }
  rewrite apply_all_cons. apply IH.
  { intros q0 v0 Hin. apply Hf. by right. }
  destruct (decide (q = q')) as [->|Hne].
  - right. rewrite lookup_insert_eq. f_equal. apply Hf. left.
  - destruct Hq as [Hq|Hq].
    + left. rewrite fmap_cons in Hq. by apply elem_of_cons in Hq as [?|?].
    + right. by rewrite lookup_insert_ne.
Qed.

Lemma apply_all_id plan t :
  (forall q v, (q, v) ∈ plan -> t !! q = Some v) -> apply_all plan t = t.
Proof.
  induction plan as [|[q v] plan IH]; intros Hin; [done|].
  rewrite apply_all_cons, insert_id by (apply Hin; left).
  apply IH. intros q' v' H'. apply Hin. by right.
Qed.

Lemma parents_first_weaken made made' plan :
  made ⊆ made' -> parents_first made plan -> parents_first made' plan.
Proof.
  revert made made'. induction plan as [|[q v] plan IH]; intros made made' Hsub; [done|].
  intros [Hup Hrest]. split.
  - destruct Hup as [?|Hup]; [by left|right; by apply Hsub].
  - eapply IH; [|done]. destruct v; [|done].
    intros k [->|Hk]%elem_of_cons; [left|right; by apply Hsub].
Qed.

Lemma parents_first_app made a b :
  parents_first made a -> parents_first made b -> parents_first made (a ++ b).
Proof.
  revert made. induction a as [|[q v] a IH]; intros made Ha Hb; [done|].
  destruct Ha as [Hup Ha]. split; [done|]. apply IH; [done|].
  eapply parents_first_weaken; [|done]. destruct v; [|done].
  intros k Hk. by right.
Qed.

Lemma parents_first_bind {X} made (xs : list X) (f : X -> list (list string * node)) :
  (forall x, x ∈ xs -> parents_first made (f x)) -> parents_first made (xs ≫= f).
Proof.
  induction xs as [|x xs IH]; intros Hf; [done|]. csimpl.
  apply parents_first_app; [apply Hf; left|]. apply IH. intros y Hy. apply Hf. by right.
Qed.

(** ** The construction as a list of steps *)

Lemma run_steps_app a b t :
  run_steps (a ++ b) t = io_seq (run_steps a) (run_steps b) t.
Proof.
  revert t. induction a as [|s a IH]; intros t; [done|].
  change ((s :: a) ++ b) with (s :: (a ++ b)). rewrite run_steps_cons.
  unfold io_seq, io_bind. rewrite run_steps_cons.
  destruct (run_step s t) as [[err|[]] t']; [done|]. apply IH.
Qed.

Lemma io_seq_steps (m k : io unit) a b t :
  (forall t, m t = run_steps a t) -> (forall t, k t = run_steps b t) ->
  io_seq m k t = run_steps (a ++ b) t.
Proof.
  intros Hm Hk. rewrite run_steps_app. unfold io_seq, io_bind. rewrite Hm.
  destruct (run_steps a t) as [[err|[]] t']; [done|]. apply Hk.
Qed.

Lemma run_steps_one s t : run_step s t = run_steps [s] t.
Proof.
  rewrite run_steps_cons. by destruct (run_step s t) as [[err|[]] t'].
Qed.

Lemma io_for_steps {X} (xs : list X) (body : X -> io unit) (f : X -> list step) t :
  (forall x t, body x t = run_steps (f x) t) ->
  io_for xs body t = run_steps (xs ≫= f) t.
Proof.
  intros Hbody. revert t. induction xs as [|x xs IH]; intros t; [done|].
  cbn [io_for]. csimpl. by apply io_seq_steps.
Qed.

Lemma fmap_as_bind {X Y} (f : X -> Y) (l : list X) : f <$> l = l ≫= fun x => [f x].
Proof. induction l as [|x l IH]; [done|]. csimpl. by rewrite IH. Qed.

Section layout_facts.
Context {System Controller Disturbance Observable : Type}.
Context `{Ordered Observable, Printable Observable, Countable Observable}.
Context `{NumpyFormat, PythonFormat}.
Implicit Types e : Experiment System Controller Disturbance Observable.

Lemma init_case_steps e case_dir sett_text dist_text t :
  get_settings_str e = Returned sett_text ->
  get_solver_and_horizon_str e = inr dist_text ->
  init_case e case_dir t
  = run_steps (case_steps case_dir (get_observables_str e) sett_text dist_text) t.
Proof.
  intros Hsett Hdist. unfold init_case, case_steps. rewrite Hsett, Hdist.
  cbn [of_outcome of_solver].
  apply (io_seq_steps _ _ [Ensure case_dir]); [intros; apply (run_steps_one (Ensure _))|].
  intros t1. apply io_seq_steps.
  { intros t2. apply io_for_steps. intros child t3.
    apply (io_seq_steps _ _ [Ensure _]); [intros; apply (run_steps_one (Ensure _))|].
    intros t4. destruct (bool_decide (child = obs_dir)); [|done].
    rewrite fmap_as_bind.
    apply io_for_steps. intros o t5. apply (run_steps_one (Ensure _)). }
  intros t2. apply (io_seq_steps _ _ [Put _ _]); [intros; apply (run_steps_one (Put _ _))|].
  intros t3. apply (io_seq_steps _ _ [Put _ _] [Put _ _]);
    intros; apply (run_steps_one (Put _ _)).
Qed.

End layout_facts.

(** ** The entries of a case *)

Lemma case_steps_unfold cd o s d :
  case_steps cd o s d
  = [Ensure (os_path_join cd []);
     Ensure (os_path_join cd [inp_dir]); Ensure (os_path_join cd [out_dir]);
     Ensure (os_path_join cd [vis_dir]); Ensure (os_path_join cd [obs_dir]);
     Ensure (os_path_join cd [obs_dir; "BUS"]); Ensure (os_path_join cd [obs_dir; "SYNC"]);
     Ensure (os_path_join cd [obs_dir; "INJEC"]); Ensure (os_path_join cd [obs_dir; "SHUNT"]);
     Ensure (os_path_join cd [obs_dir; "DCTL"]); Ensure (os_path_join cd [obs_dir; "BRANCH"]);
     Ensure (os_path_join cd [met_dir]); Ensure (os_path_join cd [det_dir]);
     Put (os_path_join cd [inp_dir; obse_filename]) o;
     Put (os_path_join cd [inp_dir; sett_filename]) s;
     Put (os_path_join cd [inp_dir; dist_filename]) d].
Proof. reflexivity. Qed.

Lemma case_entries_unfold root name o s d :
  case_entries root name o s d
  = [([root; name] ++ [], Dir);
     ([root; name] ++ [inp_dir], Dir); ([root; name] ++ [out_dir], Dir);
     ([root; name] ++ [vis_dir], Dir); ([root; name] ++ [obs_dir], Dir);
     ([root; name] ++ [obs_dir; "BUS"], Dir); ([root; name] ++ [obs_dir; "SYNC"], Dir);
     ([root; name] ++ [obs_dir; "INJEC"], Dir); ([root; name] ++ [obs_dir; "SHUNT"], Dir);
     ([root; name] ++ [obs_dir; "DCTL"], Dir); ([root; name] ++ [obs_dir; "BRANCH"], Dir);
     ([root; name] ++ [met_dir], Dir); ([root; name] ++ [det_dir], Dir);
     ([root; name] ++ [inp_dir; obse_filename], File o);
     ([root; name] ++ [inp_dir; sett_filename], File s);
     ([root; name] ++ [inp_dir; dist_filename], File d)].
Proof. reflexivity. Qed.

Lemma path_resolves root name bs :
  clean root = true -> clean name = true -> length bs <= 13 ->
  Forall (fun c => clean c = true) bs ->
  names (os_path_join (path_of [root; name]) bs) ([root; name] ++ bs).
Proof.
  intros Hroot Hname Hshort Hbs.
  assert (Forall (fun c => clean c = true) ([root; name] ++ bs)) as Hall.
  { apply Forall_app. split; [by repeat constructor|done]. }
  rewrite os_path_join_path_of by (done || by repeat constructor).
  apply names_path_of; [done| |done]. rewrite length_app. cbn [length]. lia.
Qed.

Lemma ensure_denotes root name bs :
  clean root = true -> clean name = true -> length bs <= 13 ->
  Forall (fun c => clean c = true) bs ->
  denotes (Ensure (os_path_join (path_of [root; name]) bs)) ([root; name] ++ bs, Dir).
Proof. intros. by apply path_resolves. Qed.

Lemma put_denotes root name bs text :
  clean root = true -> clean name = true -> length bs <= 13 ->
  Forall (fun c => clean c = true) bs ->
  denotes (Put (os_path_join (path_of [root; name]) bs) text) ([root; name] ++ bs, File text).
Proof. intros Hroot Hname Hshort Hbs. split; [by apply path_resolves|done]. Qed.

Lemma case_steps_denote root name o s d :
  clean root = true -> clean name = true ->
  Forall2 denotes (case_steps (path_of [root; name]) o s d) (case_entries root name o s d).
Proof.
  intros Hroot Hname. rewrite case_steps_unfold, case_entries_unfold.
  repeat (apply List.Forall2_cons;
    [first [apply ensure_denotes|apply put_denotes];
       [done|done|cbn [length]; lia|by repeat constructor]|]).
  apply List.Forall2_nil.
Qed.

Lemma case_entries_parents root name o s d made :
  [root] ∈ made -> parents_first made (case_entries root name o s d).
Proof.
  intros Hroot. rewrite case_entries_unfold. cbn [parents_first removelast app].
  repeat split; right; try done; repeat first [by left|right].
Qed.

Lemma planned_expected root names o s d q v :
  (q, v) ∈ planned root names o s d -> v = expected o s d q.
Proof.
  unfold planned. intros [Heq|Hin]%elem_of_cons; [by simplify_eq|].
  apply list_elem_of_bind in Hin as (name & Hin & _).
  rewrite case_entries_unfold in Hin.
  repeat (apply elem_of_cons in Hin as [Heq|Hin]; [by simplify_eq|]).
  by apply elem_of_nil in Hin.
Qed.

Lemma plain_inv s : plain s = true -> slash_free s = true /\ nul_free s = true.
Proof. unfold plain. by intros [? ?]%andb_prop. Qed.

Lemma case_name_clean s d c r :
  plain s = true /\ String.length s <= 10 -> plain d = true /\ String.length d <= 10 ->
  plain c = true /\ String.length c <= 10 -> plain r = true /\ String.length r <= 10 ->
  clean (case_name (s, d, c, r)) = true.
Proof.
  intros [[Hs Ns]%plain_inv Ls] [[Hd Nd]%plain_inv Ld] [[Hc Nc]%plain_inv Lc]
    [[Hr Nr]%plain_inv Lr].
  assert (String.length (case_name (s, d, c, r))
          = String.length s + String.length d + String.length c + String.length r + 6)
    as Hlen.
  { unfold case_name. rewrite !string_length_app. cbn [String.length]. lia. }
  unfold clean, proper, plain. repeat (apply andb_true_intro; split).
  - apply bool_decide_eq_true.
    repeat split; intros Heq; rewrite Heq in Hlen; cbn in Hlen; lia.
  - apply Nat.leb_le. pose proof (encoded_length_bound (case_name (s, d, c, r))). lia.
  - unfold case_name. rewrite !slash_free_app, Hs, Hd, Hc, Hr. reflexivity.
  - unfold case_name. rewrite !nul_free_app, Ns, Nd, Nc, Nr. reflexivity.
Qed.

Section layout_run.
Context {System Controller Disturbance Observable : Type}.
Context `{Ordered Observable, Printable Observable, Countable Observable}.
Context `{NumpyFormat, PythonFormat}.
Implicit Types e : Experiment System Controller Disturbance Observable.

Lemma case_names_clean e name :
  Forall (fun tag => plain tag = true /\ String.length tag <= 10) (all_tags e) ->
  name ∈ case_name <$> case_tags e -> clean name = true.
Proof.
  unfold all_tags. rewrite !Forall_app, !Forall_forall. intros (Hs & Hd & Hc & Hr).
  intros ([[[s d] c] r] & -> & Hin)%list_elem_of_fmap.
  apply elem_of_case_tags in Hin as (?&?&?&?). apply case_name_clean; auto.
Qed.

Lemma case_dirs_names e clock root :
  (forall i, get_dir e (clock i) = root) ->
  case_dirs e clock = (fun name => path_of [root; name]) <$> (case_name <$> case_tags e).
Proof.
  intros Hroot. unfold case_dirs.
  rewrite (imap_ext _ (fun _ tags => path_of [root; case_name tags])).
  2:{ intros i [[[s d] c] r] _. unfold case2str. by rewrite Hroot. }
  rewrite (imap_const (fun tags => path_of [root; case_name tags])).
  by rewrite <- list_fmap_compose.
Qed.

Lemma init_files_and_dirs_steps e clock root sett_text dist_text t :
  (forall i, get_dir e (clock i) = root) ->
  get_settings_str e = Returned sett_text ->
  get_solver_and_horizon_str e = inr dist_text ->
  init_files_and_dirs e clock t
  = run_steps (Ensure root
               :: ((case_name <$> case_tags e) ≫= fun name =>
                     case_steps (path_of [root; name]) (get_observables_str e)
                       sett_text dist_text)) t.
Proof.
  intros Hroot Hsett Hdist. unfold init_files_and_dirs.
  rewrite !Hroot, (case_dirs_names e clock root Hroot).
  apply (io_seq_steps _ _ [Ensure root]); [intros; apply (run_steps_one (Ensure _))|].
  intros t1. etrans.
  { apply (io_for_steps _ _ (fun case_dir =>
             case_steps case_dir (get_observables_str e) sett_text dist_text)).
    intros case_dir t2. by apply init_case_steps. }
  by rewrite list_fmap_bind.
Qed.

Lemma init_files_and_dirs_run e clock root sett_text dist_text t :
  (forall i, get_dir e (clock i) = root) ->
  clean root = true ->
  Forall (fun tag => plain tag = true /\ String.length tag <= 10) (all_tags e) ->
  get_settings_str e = Returned sett_text ->
  get_solver_and_horizon_str e = inr dist_text ->
  compatible (planned root (case_name <$> case_tags e)
                (get_observables_str e) sett_text dist_text) t ->
  init_files_and_dirs e clock t
  = (inr tt, apply_all (planned root (case_name <$> case_tags e)
                          (get_observables_str e) sett_text dist_text) t).
Proof.
  intros Hroot Hclean Htags Hsett Hdist Hcomp.
  rewrite (init_files_and_dirs_steps e clock root sett_text dist_text) by done.
  apply (run_steps_build _ _ []).
  - unfold planned. apply List.Forall2_cons.
    { apply (names_path_of [root]); [done|cbn [length]; lia|by repeat constructor]. }
    apply Forall2_bind, Forall_Forall2_diag, Forall_forall. intros name Hname.
    apply case_steps_denote; [done|]. by apply (case_names_clean e).
  - split; [by left|]. apply parents_first_bind. intros name _.
    apply case_entries_parents. left.
  - intros k Hk. by apply elem_of_nil in Hk.
  - intros q v v' Hv Hv'. apply planned_expected in Hv, Hv'. subst. apply agrees_refl.
  - done.
Qed.

End layout_run.

Section layout_theorems.
Context {System Controller Disturbance Observable : Type}.
Context `{Ordered Observable, Printable Observable, Countable Observable}.
Context `{NumpyFormat, PythonFormat}.
Implicit Types e : Experiment System Controller Disturbance Observable.

(** X21: [init_files_and_dirs] builds the layout of its docstring, in a
    file system modelled as a tree of relative POSIX paths.  Assumed: every
    reading of the clock gives the same directory name [root]; [root] is
    one clean name (not empty, not [.] or [..], at most 255 bytes, no slash
    and no character of code 0); every tag of the four axes has no slash
    and no character of code 0 and is at most 10 characters long;
    [get_settings_str] and [get_solver_and_horizon_str] return their
    texts; and the tree is compatible with the layout (where the layout has
    an entry the tree has nothing, or a directory for a directory, or a
    file for a file).  Then the call returns; afterwards the directory of
    the experiment, the directory of every case, its six children and the
    six children of the observables directory are directories, the three
    input files of every case hold the texts of the three serializers, and
    every path outside the layout holds what it held. *)
Theorem init_files_and_dirs_builds_layout e clock root sett_text dist_text t :
  (forall i, get_dir e (clock i) = root) ->
  clean root = true ->
  Forall (fun tag => plain tag = true /\ String.length tag <= 10) (all_tags e) ->
  get_settings_str e = Returned sett_text ->
  get_solver_and_horizon_str e = inr dist_text ->
  compatible (planned root (case_name <$> case_tags e)
                (get_observables_str e) sett_text dist_text) t ->
  exists t',
    init_files_and_dirs e clock t = (inr tt, t')
    /\ (forall q v,
          (q, v) ∈ planned root (case_name <$> case_tags e)
                     (get_observables_str e) sett_text dist_text ->
          t' !! q = Some v)
    /\ (forall q,
          q ∉ (planned root (case_name <$> case_tags e)
                 (get_observables_str e) sett_text dist_text).*1 ->
          t' !! q = t !! q).
Proof.
  intros Hroot Hclean Htags Hsett Hdist Hcomp.
  eexists. split; [by apply (init_files_and_dirs_run e clock root)|]. split.
  - intros q v Hin. rewrite (planned_expected _ _ _ _ _ _ _ Hin).
    apply apply_all_lookup; [apply planned_expected|].
    left. apply list_elem_of_fmap. by exists (q, v).
  - intros q Hq. by apply apply_all_other.
Qed.

(** X22: calling [init_files_and_dirs] again changes nothing, in a file
    system modelled as a tree of relative POSIX paths.  Assumed: every
    reading of the clock gives the same directory name [root]; [root] is
    one clean name (not empty, not [.] or [..], at most 255 bytes, no slash
    and no character of code 0); every tag of the four axes has no slash
    and no character of code 0 and is at most 10 characters long;
    [get_settings_str] and [get_solver_and_horizon_str] return their
    texts; and the tree is compatible with the layout (where the layout has
    an entry the tree has nothing, or a directory for a directory, or a
    file for a file).  Then the call returns, and a second call on the
    tree that it leaves (as [run] makes for every case) returns too and
    leaves that tree as it is. *)
Theorem init_files_and_dirs_idempotent e clock root sett_text dist_text t :
  (forall i, get_dir e (clock i) = root) ->
  clean root = true ->
  Forall (fun tag => plain tag = true /\ String.length tag <= 10) (all_tags e) ->
  get_settings_str e = Returned sett_text ->
  get_solver_and_horizon_str e = inr dist_text ->
  compatible (planned root (case_name <$> case_tags e)
                (get_observables_str e) sett_text dist_text) t ->
  exists t',
    init_files_and_dirs e clock t = (inr tt, t')
    /\ init_files_and_dirs e clock t' = (inr tt, t').
Proof.
  intros Hroot Hclean Htags Hsett Hdist Hcomp.
  eexists. split; [by apply (init_files_and_dirs_run e clock root)|].
  assert (forall q v,
            (q, v) ∈ planned root (case_name <$> case_tags e)
                       (get_observables_str e) sett_text dist_text ->
            apply_all (planned root (case_name <$> case_tags e)
                         (get_observables_str e) sett_text dist_text) t !! q = Some v)
    as Hthere.
  { intros q v Hin. rewrite (planned_expected _ _ _ _ _ _ _ Hin).
    apply apply_all_lookup; [apply planned_expected|].
    left. apply list_elem_of_fmap. by exists (q, v). }
  rewrite (init_files_and_dirs_run e clock root sett_text dist_text); [|done..|].
  - by rewrite apply_all_id.
  - intros q v Hin. rewrite (Hthere q v Hin). apply agrees_refl.
Qed.

End layout_theorems.

Lemma init_files_and_dirs_builds_layout_witness :
  exists t',
    init_files_and_dirs (perform_all Demo.two_systems (Demo.fresh false))
      (fun _ => Demo.noon) ∅ = (inr tt, t')
    /\ t' !! ["demo"; "nordic, fault, mpc, Not random"; "3_Explicit observables"; "BUS"]
       = Some Dir
    /\ t' !! ["demo"; "ieee39, fault, mpc, Not random"; "0_Input"; "settings.dat"]
       = Some (File (settings_text (perform_all Demo.two_systems (Demo.fresh false))))
    /\ t' !! ["demo"; "nordic, fault, mpc, Not random"; "6_description.txt"] = None.
Proof.
  destruct (init_files_and_dirs_builds_layout
              (perform_all Demo.two_systems (Demo.fresh false)) (fun _ => Demo.noon)
              "demo" (settings_text (perform_all Demo.two_systems (Demo.fresh false)))
              (solver_text (perform_all Demo.two_systems (Demo.fresh false))) ∅)
    as (t' & Hrun & Hin & Hout).
  - intros i. reflexivity.
  - reflexivity.
  - by_evaluation.
  - vm_compute. reflexivity.
  - vm_compute. reflexivity.
  - intros q v _. rewrite lookup_empty. exact I.
  - exists t'. split; [exact Hrun|]. split; [|split].
    + apply Hin. by_evaluation.
    + apply Hin. by_evaluation.
    + rewrite Hout; [apply lookup_empty|]. by_evaluation.
Defined.

Lemma init_files_and_dirs_idempotent_witness :
  exists t',
    init_files_and_dirs (perform_all Demo.two_systems (Demo.fresh false))
      (fun _ => Demo.noon) ∅ = (inr tt, t')
    /\ init_files_and_dirs (perform_all Demo.two_systems (Demo.fresh false))
         (fun _ => Demo.noon) t' = (inr tt, t').
Proof.
  apply (init_files_and_dirs_idempotent
           (perform_all Demo.two_systems (Demo.fresh false)) (fun _ => Demo.noon)
           "demo" (settings_text (perform_all Demo.two_systems (Demo.fresh false)))
           (solver_text (perform_all Demo.two_systems (Demo.fresh false))) ∅).
  - intros i. reflexivity.
  - reflexivity.
  - by_evaluation.
  - vm_compute. reflexivity.
  - vm_compute. reflexivity.
  - intros q v _. rewrite lookup_empty. exact I.
Defined.

(** ** The files that [run] hands to the engine *)

Lemma os_path_join_inputs cwd filename :
  cwd <> "" -> ends_with_sep cwd = false -> starts_with_sep filename = false ->
  os_path_join cwd [inp_dir; filename] = map2dir_input cwd filename.
Proof.
  intros Hne Hend Hstart. unfold os_path_join, map2dir_input. cbn [foldl].
  assert (join_step cwd inp_dir = cwd +:+ "/" +:+ inp_dir) as ->.
  { unfold join_step. rewrite Hend, bool_decide_eq_false_2 by done. reflexivity. }
  unfold join_step. rewrite Hstart.
  rewrite ends_with_sep_app by done.
  rewrite bool_decide_eq_false_2.
  - cbn [orb]. assert (ends_with_sep ("/" +:+ inp_dir) = false) as -> by reflexivity.
    by rewrite !string_app_assoc.
  - intros Heq. apply (f_equal String.length) in Heq.
    rewrite !string_length_app in Heq. cbn in Heq. lia.
Qed.

Section run_inputs.
Context {System Controller Disturbance Observable : Type}.
Context `{Ordered Disturbance, Ordered Observable, ControllerLike Controller}.
Implicit Types e : Experiment System Controller Disturbance Observable.

Lemma case2str_no_trailing_sep e now s d c r :
  ends_with_sep r = false ->
  case2str e now s d c r <> "" /\ ends_with_sep (case2str e now s d c r) = false.
Proof.
  intros Hr. unfold case2str. split.
  - intros Heq. apply (f_equal String.length) in Heq.
    rewrite !string_length_app in Heq. cbn in Heq. lia.
  - rewrite <- !string_app_assoc. destruct (decide (r = "")) as [->|Hne].
    + unfold ends_with_sep. rewrite !list_ascii_of_string_app, !last_app. reflexivity.
    + by rewrite ends_with_sep_app.
Qed.

(** X23: [run] and [init_files_and_dirs] name the same files.  For an
    experiment as the constructor and any calls leave it and a case that
    [run] goes through, the working directory [cwd] of [run] is one of the
    case directories (when the readings of the clock give one directory
    name), and the name [cwd + "/" + inp_dir + "/" + filename] that [run]
    hands to the engine is the path
    [os.path.join(case_dir, inp_dir, filename)] under which
    [init_files_and_dirs] writes. *)
Theorem run_inputs_are_initialized path_exists nm dll reps doc e0 (calls : list call)
    clock now s d c r filename :
  init path_exists nm dll reps doc = Returned e0 ->
  (forall i, get_dir (perform_all calls e0) (clock i) = get_dir (perform_all calls e0) now) ->
  s ∈ (systems (perform_all calls e0)).*1 ->
  d ∈ (disturbances (perform_all calls e0)).*1 ->
  c ∈ (controllers (perform_all calls e0)).*1 ->
  r ∈ (randomizations (perform_all calls e0)).*1 ->
  starts_with_sep filename = false ->
  case2str (perform_all calls e0) now s d c r ∈ case_dirs (perform_all calls e0) clock
  /\ map2dir_input (case2str (perform_all calls e0) now s d c r) filename
     = os_path_join (case2str (perform_all calls e0) now s d c r) [inp_dir; filename].
Proof.
  intros Hinit Hclock Hs Hd Hc Hr Hfile. split.
  - rewrite (case_dirs_names _ clock (get_dir (perform_all calls e0) now)) by done.
    apply list_elem_of_fmap. exists (case_name (s, d, c, r)). split; [done|].
    apply list_elem_of_fmap. exists (s, d, c, r). split; [done|].
    by apply elem_of_case_tags.
  - apply init_inv in Hinit as (-> & _).
    rewrite perform_all_randomizations in Hr. cbn in Hr.
    apply list_elem_of_singleton in Hr as ->.
    destruct (case2str_no_trailing_sep (perform_all calls (initial nm dll reps doc))
                now s d c "Not random") as [Hne Hend]; [reflexivity|].
    by rewrite os_path_join_inputs.
Qed.

End run_inputs.

Section no_name.
Context {System Controller Disturbance Observable : Type}.
Context `{Ordered Disturbance, Ordered Observable, ControllerLike Controller}.
Context `{Printable Observable, Countable Observable}.
Context `{NumpyFormat, PythonFormat}.
Implicit Types e : Experiment System Controller Disturbance Observable.

Lemma untouched_directory_name :
  untouched (fun e : Experiment System Controller Disturbance Observable =>
               (name e, must_document e, repetitions e, current_repetition e)).
Proof. intros e0. repeat split; by intros; destruct e. Qed.

(** No call changes what [get_dir] returns for a reading of the clock. *)
Lemma perform_all_get_dir (calls : list call) e now :
  get_dir (perform_all calls e) now = get_dir e now.
Proof.
  pose proof (perform_all_untouched _ calls e untouched_directory_name) as Heq.
  injection Heq as Hname Hdoc Hreps Hcur. unfold get_dir.
  by rewrite Hname, Hdoc, Hreps, Hcur.
Qed.

(** X26: the constructor accepts the empty name, but an undocumented
    experiment that has it cannot lay out its files: whatever calls were
    made, [init_files_and_dirs] raises [FileNotFoundError] for the empty
    path and leaves the tree as it was. *)
Theorem init_files_and_dirs_needs_a_name path_exists dll reps e0 (calls : list call)
    clock t :
  init path_exists "" dll reps false = Returned e0 ->
  init_files_and_dirs (perform_all calls e0) clock t
  = (inl (OSError (FileNotFoundError "")), t).
Proof.
  intros (-> & _)%init_inv. unfold init_files_and_dirs.
  rewrite !perform_all_get_dir. reflexivity.
Qed.

End no_name.

(** ** Failures on the way *)

Lemma io_seq_ok {A} (m : io unit) (k : io A) t t' :
  m t = (inr tt, t') -> io_seq m k t = k t'.
Proof. intros Hm. unfold io_seq, io_bind. by rewrite Hm. Qed.

Lemma io_seq_fail {A} (m : io unit) (k : io A) t err t' :
  m t = (inl err, t') -> io_seq m k t = (inl err, t').
Proof. intros Hm. unfold io_seq, io_bind. by rewrite Hm. Qed.

Lemma write_text_raise path q err t :
  names path q ->
  removelast q = [] \/ t !! removelast q = Some Dir ->
  agrees (t !! q) (File "") ->
  write_text path (io_raise err) t = (inl err, <[q := File ""]> t).
Proof.
  intros (Hnul & Hne & Hq) Hup Hfound. unfold write_text, io_bind, open_w.
  rewrite Hnul. cbn [negb].
  rewrite bool_decide_eq_false_2, Hq by done. rewrite missing_parent_none by done.
  by destruct (t !! q) as [[|content]|] eqn:Hlook.
Qed.

Lemma parents_first_take n made plan :
  parents_first made plan -> parents_first made (take n plan).
Proof.
  revert n made. induction plan as [|[q v] plan IH]; intros [|n] made; try done.
  intros [Hup Hrest]. split; [done|]. by apply IH.
Qed.

Lemma io_seq_assoc {A} (a b : io unit) (c : io A) t :
  io_seq a (io_seq b c) t = io_seq (io_seq a b) c t.
Proof. unfold io_seq, io_bind. by destruct (a t) as [[err|[]] t']. Qed.

Section failures.
Context {System Controller Disturbance Observable : Type}.
Context `{Ordered Observable, Printable Observable, Countable Observable}.
Context `{NumpyFormat, PythonFormat}.
Implicit Types e : Experiment System Controller Disturbance Observable.

Lemma planned_one root name o s d :
  planned root [name] o s d = ([root], Dir) :: case_entries root name o s d.
Proof. unfold planned. csimpl. by rewrite ?app_nil_r. Qed.

Lemma started_case_expected root name o q v :
  (q, v) ∈ started_case root name o -> v = expected o "" "" q.
Proof.
  intros Hin. apply (planned_expected root [name] o "" ""). rewrite planned_one.
  apply elem_of_cons in Hin as [->|Hin]; [left|right].
  rewrite case_entries_unfold in *. cbn [removelast] in Hin.
  repeat (apply elem_of_cons in Hin as [->|Hin]; [repeat first [by left|right]|]).
  by apply elem_of_nil in Hin.
Qed.

Lemma init_case_stops e root name x t :
  clean root = true -> clean name = true ->
  get_settings_str e = Raised x ->
  t !! [root] = Some Dir ->
  compatible (started_case root name (get_observables_str e)) t ->
  init_case e (path_of [root; name]) t
  = (inl (Exception x), apply_all (removelast (case_entries root name (get_observables_str e) "" "")) t).
Proof.
  intros Hroot Hname Hsett Hthere Hcomp. unfold init_case. rewrite Hsett. cbn [of_outcome].
  set (cd := path_of [root; name]). set (o := get_observables_str e).
  assert (run_steps (take 14 (case_steps cd o "" "")) t
          = (inr tt, apply_all (take 14 (case_entries root name o "" "")) t)) as Hrun.
  { apply (run_steps_build _ _ [[root]]).
    - apply Forall2_take. by apply case_steps_denote.
    - apply parents_first_take, case_entries_parents. left.
    - intros k Hk. by apply list_elem_of_singleton in Hk as ->.
    - intros q v v' Hv%elem_of_take Hv'%elem_of_take.
      destruct Hv as (i & Hv & _), Hv' as (i' & Hv' & _).
      apply list_elem_of_lookup_2 in Hv, Hv'.
      rewrite (planned_expected root [name] o "" "" q v),
              (planned_expected root [name] o "" "" q v').
      + apply agrees_refl.
      + rewrite planned_one. by right.
      + rewrite planned_one. by right.
    - intros q v Hv. apply Hcomp. right.
      apply elem_of_take in Hv as (i & Hv & Hi).
      rewrite case_entries_unfold in *. cbn [removelast].
      apply (list_elem_of_lookup_2 _ i).
      rewrite <- Hv. do 14 (destruct i as [|i]; [done|]). lia. }
  assert (forall q v, (q, v) ∈ take 14 (case_entries root name o "" "") ->
            v = expected o "" "" q) as Hexp.
  { intros q v (i & Hv & _)%elem_of_take. apply list_elem_of_lookup_2 in Hv.
    apply (planned_expected root [name] o "" ""). rewrite planned_one. by right. }
  do 2 rewrite io_seq_assoc.
  erewrite io_seq_ok; cycle 1.
  { etrans; [|exact Hrun].
    change (take 14 (case_steps cd o "" ""))
      with ((Ensure cd :: (common_children_dirs ≫= fun child =>
               Ensure (os_path_join cd [child])
               :: (if bool_decide (child = obs_dir)
                   then (fun o => Ensure (os_path_join cd [child; o])) <$> obs_children_dirs
                   else [])))
            ++ [Put (os_path_join cd [inp_dir; obse_filename]) o]).
    apply io_seq_steps.
    - intros t1. apply (io_seq_steps _ _ [Ensure _]);
        [intros; apply (run_steps_one (Ensure _))|].
      intros t2. apply io_for_steps. intros child t3.
      apply (io_seq_steps _ _ [Ensure _]); [intros; apply (run_steps_one (Ensure _))|].
      intros t4. destruct (bool_decide (child = obs_dir)); [|done].
      rewrite fmap_as_bind. apply io_for_steps. intros o' t5.
      apply (run_steps_one (Ensure _)).
    - intros t1. apply (run_steps_one (Put _ _)). }
  pose proof (path_resolves root name [inp_dir; sett_filename] Hroot Hname) as Hnames.
  apply io_seq_fail.
  rewrite (write_text_raise _ ([root; name] ++ [inp_dir; sett_filename]));
    [|apply Hnames; [cbn [length]; lia|by repeat constructor]| |].
  - reflexivity.
  - right. cbn [removelast app].
    apply (apply_all_lookup (expected o "" "") _ [root; name; inp_dir]); [done|].
    left. rewrite case_entries_unfold. cbn [take fmap list_fmap fst app].
    repeat first [by left|right].
  - rewrite apply_all_other.
    + apply Hcomp. right. rewrite case_entries_unfold. cbn [removelast app].
      repeat first [by left|right].
    + rewrite case_entries_unfold. cbn [take fmap list_fmap fst app].
      rewrite !not_elem_of_cons. repeat split; try (by intros [=]). apply not_elem_of_nil.
Qed.

End failures.

Lemma resolve_root root : clean root = true -> names root [root].
Proof.
  intros Hroot. apply (names_path_of [root]); [done|cbn [length]; lia|by repeat constructor].
Qed.

Section failure_theorems.
Context {System Controller Disturbance Observable : Type}.
Context `{Ordered Observable, Printable Observable, Countable Observable}.
Context `{NumpyFormat, PythonFormat}.
Implicit Types e : Experiment System Controller Disturbance Observable.

(** X24: when [get_settings_str] raises, [init_files_and_dirs] raises the
    same exception in the first case, after the settings file has been
    opened; the file system is modelled as a tree of relative POSIX paths.
    Assumed: every reading of the clock gives the same directory name
    [root]; [root] is one clean name (not empty, not [.] or [..], at most
    255 bytes, no slash and no character of code 0); every tag of the four
    axes has no slash and no character of code 0 and is at most 10
    characters long; there is at least one case; [get_settings_str] raises
    [x]; and the tree is compatible with the entries made until then (where
    one is to be the tree has nothing, or a directory for a directory, or a
    file for a file).  Then the call raises [x]; by then the directory of
    the experiment and the directories of the first case are there, the
    observables file is written and the settings file is there and empty;
    every other path holds what it held (no file of solver settings, no
    later case). *)
Theorem init_files_and_dirs_stops_at_settings e clock root x first rest t :
  (forall i, get_dir e (clock i) = root) ->
  clean root = true ->
  Forall (fun tag => plain tag = true /\ String.length tag <= 10) (all_tags e) ->
  case_tags e = first :: rest ->
  get_settings_str e = Raised x ->
  compatible (started_case root (case_name first) (get_observables_str e)) t ->
  exists t',
    init_files_and_dirs e clock t = (inl (Exception x), t')
    /\ (forall q v,
          (q, v) ∈ started_case root (case_name first) (get_observables_str e) ->
          t' !! q = Some v)
    /\ (forall q,
          q ∉ (started_case root (case_name first) (get_observables_str e)).*1 ->
          t' !! q = t !! q).
Proof.
  intros Hroot Hclean Htags Hcases Hsett Hcomp.
  assert (clean (case_name first) = true) as Hname.
  { apply (case_names_clean e); [done|]. rewrite Hcases. left. }
  exists (apply_all (started_case root (case_name first) (get_observables_str e)) t).
  split; [|split].
  - unfold init_files_and_dirs. rewrite !Hroot, (case_dirs_names e clock root Hroot), Hcases.
    rewrite !fmap_cons. cbn [io_for].
    rewrite (io_seq_ok _ _ t (<[[root] := Dir]> t)).
    + apply io_seq_fail. rewrite (init_case_stops e root (case_name first) x); [done..| |].
      * apply lookup_insert_eq.
      * intros q v Hin. destruct (decide (q = [root])) as [->|Hne].
        -- rewrite lookup_insert_eq. by rewrite (started_case_expected _ _ _ _ _ Hin).
        -- rewrite lookup_insert_ne by done. by apply Hcomp.
    + apply make_if_missing_run.
      * by apply resolve_root.
      * by left.
      * apply Hcomp. left.
  - intros q v Hin. rewrite (started_case_expected _ _ _ _ _ Hin).
    apply apply_all_lookup; [apply started_case_expected|].
    left. apply list_elem_of_fmap. by exists (q, v).
  - intros q Hq. by apply apply_all_other.
Qed.

(** X25: the directory of the experiment is named by a later reading of
    the clock than the case directories; the file system is modelled as a
    tree of relative POSIX paths.  With [n] cases, the names of the case
    directories come from the readings [0] to [n - 1], the existence test
    from reading [n] and [os.mkdir] from reading [n + 1].  Assumed: there is
    at least one case; every tag of the four axes has no slash and no
    character of code 0 and is at most 10 characters long; the readings
    [0], [n] and [n + 1] each give one clean name (not empty, not [.] or
    [..], at most 255 bytes, no slash and no character of code 0); the name
    of reading [n + 1] differs from that of reading [0] (a documented
    experiment, the second ticking over in between); and the tree holds
    nothing at or under the name of reading [0], nothing at the name of
    reading [n] and nothing at the name of reading [n + 1].  Then the
    directory made is the one named by reading [n + 1], not the one that
    the first case is in; [os.mkdir] of the first case raises
    [FileNotFoundError], and the tree is the old one with that directory
    added. *)
Theorem init_files_and_dirs_clock_race e clock first rest t :
  case_tags e = first :: rest ->
  Forall (fun tag => plain tag = true /\ String.length tag <= 10) (all_tags e) ->
  clean (get_dir e (clock 0)) = true ->
  clean (get_dir e (clock (length (case_tags e)))) = true ->
  clean (get_dir e (clock (S (length (case_tags e))))) = true ->
  get_dir e (clock (S (length (case_tags e)))) <> get_dir e (clock 0) ->
  (forall q, t !! (get_dir e (clock 0) :: q) = None) ->
  t !! [get_dir e (clock (length (case_tags e)))] = None ->
  t !! [get_dir e (clock (S (length (case_tags e))))] = None ->
  init_files_and_dirs e clock t
  = (inl (OSError (FileNotFoundError (path_of [get_dir e (clock 0); case_name first]))),
     <[[get_dir e (clock (S (length (case_tags e))))] := Dir]> t).
Proof.
  intros Hcases Htags. unfold init_files_and_dirs, case_dirs.
  set (r0 := get_dir e (clock 0)). set (rn := get_dir e (clock (length (case_tags e)))).
  set (r' := get_dir e (clock (S (length (case_tags e))))).
  intros Hr0 Hrn Hr' Hdiff Hnone Hnone_n Hnone'.
  assert (clean (case_name first) = true) as Hname.
  { apply (case_names_clean e); [done|]. rewrite Hcases. left. }
  rewrite Hcases. cbn [imap io_for].
  assert (make_if_missing rn r' t = (inr tt, <[[r'] := Dir]> t)) as Hmade.
  { destruct (resolve_root rn Hrn) as (Hnul_n & Hne_n & Hres_n).
    destruct (resolve_root r' Hr') as (Hnul' & Hne' & Hres').
    unfold make_if_missing, io_bind, os_path_exists, os_mkdir.
    rewrite Hnul_n. cbn [negb]. rewrite bool_decide_eq_false_2, Hres_n by done.
    rewrite Hnone_n, bool_decide_eq_false_2 by (by intros [? ?]).
    rewrite Hnul'. cbn [negb]. rewrite bool_decide_eq_false_2, Hres' by done.
    by rewrite Hnone'. }
  rewrite (io_seq_ok _ _ _ _ Hmade). apply io_seq_fail.
  destruct first as [[[s d] c] r].
  change (case2str e (clock 0) s d c r) with (path_of [r0; case_name (s, d, c, r)]).
  unfold init_case. apply io_seq_fail.
  destruct (names_path_of [r0; case_name (s, d, c, r)]) as (Hnul & Hne & Hres);
    [done|cbn [length]; lia|by repeat constructor|].
  unfold make_if_missing, io_bind, os_path_exists, os_mkdir.
  rewrite Hnul. cbn [negb]. rewrite bool_decide_eq_false_2, Hres by done.
  rewrite lookup_insert_ne by (by intros [=]).
  rewrite Hnone, bool_decide_eq_false_2 by (by intros [? ?]).
  cbn [negb]. rewrite ?bool_decide_eq_false_2, ?Hres by done.
  unfold missing_parent. cbn [removelast].
  rewrite lookup_insert_ne by (intros [=]; by apply Hdiff).
  by rewrite Hnone.
Qed.

End failure_theorems.

Lemma init_files_and_dirs_stops_at_settings_witness :
  exists t',
    init_files_and_dirs
      (perform_all (Demo.two_systems ++ Updates.with_omp) (Demo.fresh false))
      (fun _ => Demo.noon) ∅ = (inl (Exception not_a_number), t')
    /\ t' !! ["demo"; "nordic, fault, mpc, Not random"; "0_Input"; "settings.dat"]
       = Some (File "")
    /\ t' !! ["demo"; "nordic, fault, mpc, Not random"; "0_Input"; "disturbances.dat"]
       = None
    /\ t' !! ["demo"; "ieee39, fault, mpc, Not random"] = None.
Proof.
  destruct (init_files_and_dirs_stops_at_settings
              (perform_all (Demo.two_systems ++ Updates.with_omp) (Demo.fresh false))
              (fun _ => Demo.noon) "demo" not_a_number
              ("nordic", "fault", "mpc", "Not random")
              [("ieee39", "fault", "mpc", "Not random")] ∅)
    as (t' & Hrun & Hin & Hout).
  - intros i. reflexivity.
  - reflexivity.
  - by_evaluation.
  - reflexivity.
  - vm_compute. reflexivity.
  - intros q v _. rewrite lookup_empty. exact I.
  - exists t'. split; [exact Hrun|]. split; [|split].
    + apply Hin. by_evaluation.
    + rewrite Hout; [apply lookup_empty|]. by_evaluation.
    + rewrite Hout; [apply lookup_empty|]. by_evaluation.
Defined.

Lemma init_files_and_dirs_clock_race_witness :
  init_files_and_dirs (perform_all Demo.two_systems (Demo.fresh true)) Races.ticking ∅
  = (inl (OSError (FileNotFoundError
                     "[2024-03-09 12 00 00] demo/nordic, fault, mpc, Not random")),
     {[ ["[2024-03-09 12 00 01] demo"] := Dir ]}).
Proof.
  etrans.
  { apply (init_files_and_dirs_clock_race
             (perform_all Demo.two_systems (Demo.fresh true)) Races.ticking
             ("nordic", "fault", "mpc", "Not random")
             [("ieee39", "fault", "mpc", "Not random")] ∅).
    - reflexivity.
    - by_evaluation.
    - reflexivity.
    - reflexivity.
    - reflexivity.
    - by_evaluation.
    - intros q. apply lookup_empty.
    - apply lookup_empty.
    - apply lookup_empty. }
  reflexivity.
Defined.

Lemma init_files_and_dirs_needs_a_name_witness :
  init Demo.path_exists "" "C:/RAMSES" 1 false
  = Returned (initial (System := unit) (Controller := unit)
                (Disturbance := Demo.disturbance) (Observable := nat)
                "" "C:/RAMSES" 1 false)
  /\ init_files_and_dirs
       (perform_all Demo.two_systems (initial "" "C:/RAMSES" 1 false))
       (fun _ => Demo.noon) ∅
     = (inl (OSError (FileNotFoundError "")), ∅).
Proof.
  split; [reflexivity|].
  apply (init_files_and_dirs_needs_a_name Demo.path_exists "C:/RAMSES" 1
           (initial "" "C:/RAMSES" 1 false) Demo.two_systems).
  reflexivity.
Defined.

Lemma run_inputs_are_initialized_witness :
  case2str (perform_all Demo.two_systems (Demo.fresh false)) Demo.noon
    "ieee39" "fault" "mpc" "Not random"
  = "demo/ieee39, fault, mpc, Not random"
  /\ case2str (perform_all Demo.two_systems (Demo.fresh false)) Demo.noon
       "ieee39" "fault" "mpc" "Not random"
     ∈ case_dirs (perform_all Demo.two_systems (Demo.fresh false)) (fun _ => Demo.noon)
  /\ map2dir_input
       (case2str (perform_all Demo.two_systems (Demo.fresh false)) Demo.noon
          "ieee39" "fault" "mpc" "Not random") sett_filename
     = os_path_join
         (case2str (perform_all Demo.two_systems (Demo.fresh false)) Demo.noon
            "ieee39" "fault" "mpc" "Not random") [inp_dir; sett_filename].
Proof.
  split; [reflexivity|].
  apply (run_inputs_are_initialized Demo.path_exists "demo" "C:/RAMSES" 1 false
           (Demo.fresh false) Demo.two_systems (fun _ => Demo.noon) Demo.noon
           "ieee39" "fault" "mpc" "Not random" sett_filename).
  - reflexivity.
  - intros i. reflexivity.
  - by_evaluation.
  - by_evaluation.
  - by_evaluation.
  - by_evaluation.
  - reflexivity.
Defined.

(** ** The order of the time stamps *)

Lemma str_lt_block a1 a2 b1 b2 :
  String.length a1 = String.length a2 ->
  str_lt (a1 +:+ b1) (a2 +:+ b2)
  = if str_lt a1 a2 then true else if str_lt a2 a1 then false else str_lt b1 b2.
Proof.
  revert a2. induction a1 as [|x a1 IH]; intros [|y a2] Hlen; try done.
  injection Hlen as Hlen. rewrite !string_app_cons. cbn [str_lt].
  destruct (N.ltb_spec (N_of_ascii x) (N_of_ascii y)) as [Hxy|Hxy]; [done|].
  destruct (N.ltb_spec (N_of_ascii y) (N_of_ascii x)) as [Hyx|Hyx]; [done|].
  by apply IH.
Qed.

Lemma str_lt_same a b1 b2 : str_lt (a +:+ b1) (a +:+ b2) = str_lt b1 b2.
Proof.
  induction a as [|x a IH]; [done|]. rewrite !string_app_cons. cbn [str_lt].
  by rewrite N.ltb_irrefl.
Qed.

Lemma pad2_order m n :
  m < 100 -> n < 100 -> str_lt (pad2 m) (pad2 n) = (m <? n).
Proof.
  intros Hm Hn.
  assert (Hall : forallb (fun m => forallb (fun n =>
                   Bool.eqb (str_lt (pad2 m) (pad2 n)) (m <? n)) (seq 0 100))
                   (seq 0 100) = true) by (vm_compute; reflexivity).
  rewrite forallb_forall in Hall. specialize (Hall m).
  rewrite forallb_forall in Hall. apply Bool.eqb_prop, Hall; apply in_seq; lia.
Qed.

Lemma digits_order_from s t acc1 acc2 :
  String.length s = String.length t ->
  all_digits s = true -> all_digits t = true ->
  ((acc1 < acc2)%N -> (value_from acc1 s < value_from acc2 t)%N)
  /\ ((acc2 < acc1)%N -> (value_from acc2 t < value_from acc1 s)%N)
  /\ (acc1 = acc2 -> str_lt s t = (value_from acc1 s <? value_from acc2 t)%N).
Proof.
  revert t acc1 acc2. induction s as [|a s IH]; intros [|b t] acc1 acc2 Hlen Hs Ht; try done.
  { repeat split; try done. intros ->. cbn. by rewrite N.ltb_irrefl. }
  injection Hlen as Hlen. unfold all_digits in Hs, Ht.
  cbn [String.list_ascii_of_string forallb] in Hs, Ht.
  apply andb_prop in Hs as [Ha Hs]. apply andb_prop in Ht as [Hb Ht].
  unfold is_digit in Ha, Hb. apply andb_prop in Ha as [Ha1 Ha2], Hb as [Hb1 Hb2].
  apply N.leb_le in Ha1, Ha2, Hb1, Hb2.
  unfold value_from. cbn [String.list_ascii_of_string foldl]. fold (value_from (10 * acc1 + (N_of_ascii a - 48)) s).
  fold (value_from (10 * acc2 + (N_of_ascii b - 48)) t).
  destruct (IH t (10 * acc1 + (N_of_ascii a - 48))%N (10 * acc2 + (N_of_ascii b - 48))%N
              Hlen Hs Ht) as (Hlt & Hgt & Heq).
  repeat split.
  - intros Hacc. apply Hlt. lia.
  - intros Hacc. apply Hgt. lia.
  - intros ->. cbn [str_lt].
    destruct (N.ltb_spec (N_of_ascii a) (N_of_ascii b)) as [Hab|Hab].
    { symmetry. apply N.ltb_lt, Hlt. lia. }
    destruct (N.ltb_spec (N_of_ascii b) (N_of_ascii a)) as [Hba|Hba].
    { symmetry. apply N.ltb_ge, N.lt_le_incl, Hgt. lia. }
    apply Heq. f_equal. lia.
Qed.

Lemma digits_order s t :
  String.length s = String.length t ->
  all_digits s = true -> all_digits t = true ->
  str_lt s t = (digits_value s <? digits_value t)%N.
Proof.
  intros Hlen Hs Ht. by destruct (digits_order_from s t 0 0 Hlen Hs Ht) as (_ & _ & ->).
Qed.

Lemma four_digits_all (x : N) :
  (1000 <= x < 10000)%N -> all_digits (pretty x) = true.
Proof.
  intros Hx.
  assert (Hall : forallb (fun x => all_digits (pretty x))
                   (count_from (90 * 100) 1000%N) = true) by (vm_compute; reflexivity).
  rewrite forallb_forall in Hall. apply Hall, elem_of_count_from. lia.
Qed.

Lemma pad4_order y1 y2 :
  1000 <= y1 < 100 * 100 -> 1000 <= y2 < 100 * 100 ->
  str_lt (pad4 y1) (pad4 y2) = (y1 <? y2).
Proof.
  intros H1 H2.
  destruct (pad4_facts y1 H1) as [L1 V1]. destruct (pad4_facts y2 H2) as [L2 V2].
  rewrite digits_order, V1, V2.
  - destruct (N.ltb_spec (N.of_nat y1) (N.of_nat y2)), (Nat.ltb_spec y1 y2); try done; lia.
  - by rewrite L1, L2.
  - unfold pad4. rewrite !decide_False by lia. apply (four_digits_all (N.of_nat y1)). lia.
  - unfold pad4. rewrite !decide_False by lia. apply (four_digits_all (N.of_nat y2)). lia.
Qed.

Lemma field_order x y b :
  (if x <? y then true else if y <? x then false else b) = (x <? y) || ((x =? y) && b).
Proof.
  destruct (Nat.ltb_spec x y), (Nat.ltb_spec y x), (Nat.eqb_spec x y); try done; lia.
Qed.

(** X27: the time stamps sort as the times do.  For two readings of the
    clock with a four-digit year, the string of the first precedes the
    string of the second, in the order in which Python compares strings,
    exactly when the first reading is the earlier one: a listing of the
    directories by name is a listing by time. *)
Theorem get_timestamp_sorts_by_time (t1 t2 : struct_time) :
  plausible t1 -> plausible t2 ->
  str_lt (get_timestamp t1 "[" "]") (get_timestamp t2 "[" "]")
  = lex_lt (fields t1) (fields t2).
Proof.
  intros (Hy1 & Hm1 & Hd1 & Hh1 & Hi1 & Hs1) (Hy2 & Hm2 & Hd2 & Hh2 & Hi2 & Hs2).
  destruct t1 as [y1 m1 d1 h1 i1 s1], t2 as [y2 m2 d2 h2 i2 s2].
  cbn [tm_year tm_mon tm_mday tm_hour tm_min tm_sec] in *.
  unfold get_timestamp, fields.
  cbn [tm_year tm_mon tm_mday tm_hour tm_min tm_sec lex_lt].
  assert (forall m n, m < 100 -> n < 100 -> String.length (pad2 m) = String.length (pad2 n))
    as Hlen2.
  { intros m n Hm Hn. destruct (pad2_facts m Hm) as [-> _].
    by destruct (pad2_facts n Hn) as [-> _]. }
  rewrite (str_lt_same "["), str_lt_block.
  2:{ destruct (pad4_facts y1 Hy1) as [-> _]. by destruct (pad4_facts y2 Hy2) as [-> _]. }
  rewrite (str_lt_same "-"), str_lt_block by (apply Hlen2; lia).
  rewrite (str_lt_same "-"), str_lt_block by (apply Hlen2; lia).
  rewrite (str_lt_same " "), str_lt_block by (apply Hlen2; lia).
  rewrite (str_lt_same " "), str_lt_block by (apply Hlen2; lia).
  rewrite (str_lt_same " "), str_lt_block by (apply Hlen2; lia).
  rewrite !pad4_order by done. rewrite !pad2_order by lia.
  change (str_lt "]" "]") with false.
  by rewrite !field_order.
Qed.

Lemma get_timestamp_sorts_by_time_witness :
  str_lt (get_timestamp Demo.noon "[" "]") (get_timestamp Demo.noon_and_a_second "[" "]")
  = true
  /\ str_lt (get_timestamp Demo.noon_and_a_second "[" "]") (get_timestamp Demo.noon "[" "]")
     = false.
Proof.
  assert (plausible Demo.noon) as Hnoon by (unfold plausible; cbn; lia).
  assert (plausible Demo.noon_and_a_second) as Hlater by (unfold plausible; cbn; lia).
  split.
  - etrans; [apply (get_timestamp_sorts_by_time Demo.noon Demo.noon_and_a_second Hnoon Hlater)|].
    reflexivity.
  - etrans; [apply (get_timestamp_sorts_by_time Demo.noon_and_a_second Demo.noon Hlater Hnoon)|].
    reflexivity.
Defined.
